(** * Session and identity management of the slash API (server/route/api/v1)

    A shallow embedding of the Go handlers of [auth_service.go],
    [workspace_service.go] and [user_service.go], together with the part of
    the postgres user driver they call.  Handlers are functions in a small
    state-and-failure monad over the database contents and the response
    metadata; a nil dereference is an outcome of its own ([Panic]).

    Libraries outside the repository (bcrypt, golang-jwt's segment codec and
    HMAC, the OAuth2 provider reached over the network, the random source)
    are fields of the class [Externals]: every theorem holds for all of them.
    Store calls are modelled on a reachable database and [grpc.SetHeader] on
    the open stream of a handler: their I/O error returns, which each
    handler forwards as [codes.Internal], are not part of the model, except
    the failure of the INSERT of a user. *)

From Stdlib Require Import ZArith Lia Bool Ascii.
From stdpp Require Import base option list gmap strings pretty sorting.

Local Open Scope string_scope.
Local Open Scope list_scope.
Local Open Scope Z_scope.

(** ** Outcomes of a handler *)

(** google.golang.org/grpc/codes, the codes the handlers use. *)
Inductive Code :=
| Internal | InvalidArgument | PermissionDenied | FailedPrecondition
| Unauthenticated | NotFound.

(** What a handler call ends in: a response, a [status.Errorf] error, or a
    run-time panic (nil pointer dereference). *)
Inductive Outcome (A : Type) :=
| Ok (a : A)
| Fail (c : Code) (msg : string)
| Panic.
Arguments Ok {A} a.
Arguments Fail {A} c msg.
Arguments Panic {A}.

(** A Go [(T, error)] result of a library or store call. *)
Inductive Res (A : Type) :=
| Val (a : A)
| Error (e : string).
Arguments Val {A} a.
Arguments Error {A} e.

Definition isOk {A} (o : Outcome A) : bool :=
  match o with Ok _ => true | _ => false end.

(** ** JSON header values and token claims *)

(** A value of the [map[string]any] a token header decodes to. *)
Inductive JVal :=
| JNull
| JBool (b : bool)
| JNum (n : Z)
| JStr (s : string).

(** Modelled from the spec: the declaration of [ClaimsMessage] (auth.go) is
    missing; the payload carries the subject (user email), the user id, the
    issued-at time and an optional expires-at time, in seconds.  Both times
    are pointers in the code ([claims.IssuedAt.Time], [claims.ExpiresAt !=
    nil]), hence options here. *)
Record ClaimsMessage := {
  Name : string;
  Subject : Z;
  IssuedAt : option Z;
  ExpiresAt : option Z;
}.

(** The three decoded segments of a compact token: header, claims, and the
    signature with the text it signs. *)
Record Segments := {
  segHeader : gmap string JVal;
  segClaims : ClaimsMessage;
  segSigningString : string;
  segSignature : string;
}.

(** [jwt.Token] as the key function sees it. *)
Record Token := {
  Raw : string;
  Method : string;          (* t.Method.Alg() *)
  Header : gmap string JVal;
  Claims : ClaimsMessage;
  SigningString : string;
  Signature : string;
}.

(** [oauth2.IdentityProviderUserInfo]. *)
Record IdentityProviderUserInfo := {
  Identifier : string;
  DisplayName : string;
}.

Module storepb.

Inductive RowStatus := NORMAL | ARCHIVED.

Inductive IdentityProvider_Type := TYPE_UNSPECIFIED | OAUTH2.

Record FieldMapping := {
  fmIdentifier : string;
  fmDisplayName : string;
}.

Record OAuth2Config := {
  ClientId : string;
  ClientSecret : string;
  AuthUrl : string;
  TokenUrl : string;
  UserInfoUrl : string;
  Scopes : list string;
  FieldMapping_ : option FieldMapping;     (* a pointer, nil when unset *)
}.

(** [Config] is a pointer to a oneof whose only case is OAuth2:
    [Config.GetOauth2()] is nil-safe and returns nil for a nil config. *)
Record IdentityProvider := {
  Id : string;
  Title : string;
  Type_ : IdentityProvider_Type;
  Config : option OAuth2Config;
}.

Inductive Visibility := VISIBILITY_UNSPECIFIED | WORKSPACE | PUBLIC.

Record GeneralSetting := {
  Branding : string;
  CustomStyle : string;
}.

Record SecuritySetting := {
  DisallowUserRegistration : bool;
  DisallowPasswordAuth : bool;
}.

(** A workspace setting row: its key together with the value stored under
    it (the oneof [Value]). *)
Inductive WorkspaceSetting :=
| WORKSPACE_SETTING_GENERAL (g : GeneralSetting)
| WORKSPACE_SETTING_SECURITY (s : SecuritySetting)
| WORKSPACE_SETTING_SHORTCUT_RELATED (v : Visibility)
| WORKSPACE_SETTING_IDENTITY_PROVIDER (idps : list IdentityProvider)
| WORKSPACE_SETTING_OTHER.

(** [UserSetting_AccessTokensSetting_AccessToken]. *)
Record AccessToken := {
  AccessToken_ : string;
  Description : string;
}.

End storepb.

(** ** Libraries outside the repository *)

Class Externals := {
  (** bcrypt.GenerateFromPassword at the default cost ([None]: error). *)
  GenerateFromPassword : string → option string;
  (** bcrypt.CompareHashAndPassword hash password returns a nil error. *)
  CompareHashAndPassword : string → string → bool;
  (** golang-jwt: splitting a compact token at its dots and decoding the
      three segments ([None]: malformed). *)
  jwtDecode : string → option Segments;
  (** golang-jwt: [Method.Verify signingString signature key] returns a nil
      error, for the method of the given name. *)
  jwtVerify : string → string → string → string → bool;
  (** golang-jwt: [Token.SignedString] of an HS256 token with the given
      header and claims under a key. *)
  jwtSignedString : gmap string JVal → ClaimsMessage → string → Res string;
  (** util.ValidateEmail and util.RandomString. *)
  ValidateEmail : string → bool;
  RandomString : Z → Res string;
  (** The provider behind an OAuth2 configuration: the token endpoint
      (redirect URI, code) and the user-info endpoint (access token). *)
  ExchangeToken : storepb.OAuth2Config → string → string → Res string;
  UserInfo : storepb.OAuth2Config → string → Res IdentityProviderUserInfo;
  (** time.Time.Format(time.RFC1123) of a time in seconds. *)
  FormatRFC1123 : Z → string;
  (** Constants of auth.go, which is missing. *)
  AccessTokenCookieName : string;
  AccessTokenDuration : Z;
}.

(** ** golang-jwt v5: [Parser.ParseWithClaims] *)

Module jwt.
Section Parser.
Context `{Externals}.

Definition SigningMethodHS256 : string := "HS256".

(** The signing methods the library registers in its [init] functions;
    [Alg()] of a registered method is the name it is registered under. *)
Definition signingMethods : list string :=
  ["HS256"; "HS384"; "HS512"; "RS256"; "RS384"; "RS512";
   "ES256"; "ES384"; "ES512"; "PS256"; "PS384"; "PS512"; "EdDSA"; "none"].

Definition GetSigningMethod (alg : string) : option string :=
  if bool_decide (alg ∈ signingMethods) then Some alg else None.

(** [Parser.ParseUnverified]: decode the segments and look the method of
    the header's [alg] up. *)
Definition ParseUnverified (tokenString : string) : Res Token :=
  match jwtDecode tokenString with
  | None => Error "token is malformed"
  | Some seg =>
      match segHeader seg !! "alg" with
      | Some (JStr alg) =>
          match GetSigningMethod alg with
          | Some m =>
              Val {| Raw := tokenString; Method := m;
                     Header := segHeader seg; Claims := segClaims seg;
                     SigningString := segSigningString seg;
                     Signature := segSignature seg |}
          | None => Error "signing method (alg) is unavailable"
          end
      | _ => Error "signing method (alg) is unspecified"
      end
  end.

(** [Validator.Validate] on the claims of the payload: the expiry, when
    present, must be after now ([now.Before(exp)]); a token without expiry
    never expires.  (The issued-at claim is not checked unless the parser is
    asked to, and the payload has no not-before claim.) *)
Definition validateClaims (now : Z) (c : ClaimsMessage) : bool :=
  match ExpiresAt c with
  | Some exp => bool_decide (now < exp)
  | None => true
  end.

Definition ParseWithClaims (now : Z) (tokenString : string)
    (keyFunc : Token → Res string) : Res Token :=
  match ParseUnverified tokenString with
  | Error e => Error e
  | Val t =>
      match keyFunc t with
      | Error e => Error ("token is unverifiable: " +:+ e)
      | Val key =>
          if negb (jwtVerify (Method t) (SigningString t) (Signature t) key)
          then Error "token signature is invalid"
          else if negb (validateClaims now (Claims t))
          then Error "token has invalid claims: token is expired"
          else Val t
      end
  end.

End Parser.
End jwt.

(** ** The key function of the access-token handlers *)

Section KeyFunc.
Context `{Externals}.

(** [%v] of a header entry. *)
Definition fmtHeader (v : option JVal) : string :=
  match v with
  | None | Some JNull => "<nil>"
  | Some (JBool true) => "true"
  | Some (JBool false) => "false"
  | Some (JNum n) => pretty n
  | Some (JStr s) => s
  end.

(** The closure passed to [jwt.ParseWithClaims] by ListUserAccessTokens
    and CreateUserAccessToken (the two copies are the same text). *)
Definition keyFunc (secret : string) (t : Token) : Res string :=
  if negb (String.eqb (Method t) jwt.SigningMethodHS256) then
    Error ("unexpected access token signing method=" +:+
           fmtHeader (Header t !! "alg") +:+ ", expect &{HS256 SHA-256}")
  else
    match Header t !! "kid" with
    | Some (JStr kid) =>
        if String.eqb kid "v1" then Val secret
        else Error ("unexpected access token kid=" +:+ fmtHeader (Header t !! "kid"))
    | _ => Error ("unexpected access token kid=" +:+ fmtHeader (Header t !! "kid"))
    end.

(** Validation of a stored or fresh access token, as both handlers do it. *)
Definition parseAccessToken (secret : string) (now : Z) (tokenString : string)
    : Res Token :=
  jwt.ParseWithClaims now tokenString (keyFunc secret).

End KeyFunc.

(** ** The store *)

Module store.

(** Modelled from the spec: the declaration of [store.Role] is missing;
    a role is Admin or User. *)
Inductive Role := RoleAdmin | RoleUser.

Global Instance Role_eq_dec : EqDecision Role.
Proof. solve_decision. Defined.

Record User := {
  ID : Z;
  CreatedTs : Z;
  UpdatedTs : Z;
  RowStatus : storepb.RowStatus;
  Email : string;
  Nickname : string;
  PasswordHash : string;
  Role_ : Role;
}.

(** [store.FindUser]: every field is an optional filter. *)
Record FindUser := {
  findID : option Z;
  findEmail : option string;
  findRole : option Role;
}.

Definition findAll : FindUser :=
  {| findID := None; findEmail := None; findRole := None |}.

(** The database: the user table with its serial, the access-token
    setting of every user, and the workspace setting rows. *)
Record DB := {
  users : list User;
  userSeq : Z;
  accessTokens : gmap Z (list storepb.AccessToken);
  workspaceSettings : list storepb.WorkspaceSetting;
}.

Definition matches (find : FindUser) (u : User) : bool :=
  from_option (Z.eqb (ID u)) true (findID find)
  && from_option (String.eqb (Email u)) true (findEmail find)
  && from_option (λ r, bool_decide (Role_ u = r)) true (findRole find).

(** [DB.ListUsers]: the rows the WHERE clause keeps.  The handlers below
    use the length of the result or a match on a unique column, so the
    ORDER BY is left out. *)
Definition ListUsers (d : DB) (find : FindUser) : list User :=
  filter (λ u, matches find u = true) (users d).

(** Modelled from the spec: [Store.GetUser] is missing; it returns the
    user matching the filter, or nil. *)
Definition GetUser (d : DB) (find : FindUser) : option User :=
  head (ListUsers d find).

(** [DB.CreateUser]: the INSERT returns the serial id, the timestamps
    and the default row status; the same record, completed, is returned.
    Modelled from the spec: the schema is missing; email is unique, so the
    INSERT of a taken email fails. *)
Definition CreateUser (now : Z) (d : DB) (create : User) : Res User * DB :=
  if bool_decide (Email create ∈ Email <$> users d) then
    (Error "duplicate key value violates unique constraint", d)
  else
    let user := {| ID := userSeq d + 1; CreatedTs := now; UpdatedTs := now;
                   RowStatus := storepb.NORMAL; Email := Email create;
                   Nickname := Nickname create;
                   PasswordHash := PasswordHash create;
                   Role_ := Role_ create |} in
    (Val user,
     {| users := users d ++ [user]; userSeq := userSeq d + 1;
        accessTokens := accessTokens d;
        workspaceSettings := workspaceSettings d |}).

(** Modelled from the spec: [Store.GetUserAccessTokens] is missing; it
    reads the per-user access-token setting, empty when there is none. *)
Definition GetUserAccessTokens (d : DB) (userID : Z) : list storepb.AccessToken :=
  default [] (accessTokens d !! userID).

(** Modelled from the spec: [Store.UpsertUserSetting] is missing; under
    the key USER_SETTING_ACCESS_TOKENS it replaces the user's whole list. *)
Definition UpsertUserSetting (d : DB) (userID : Z)
    (l : list storepb.AccessToken) : DB :=
  {| users := users d; userSeq := userSeq d;
     accessTokens := <[userID := l]> (accessTokens d);
     workspaceSettings := workspaceSettings d |}.

Definition securityOf (v : storepb.WorkspaceSetting) : option storepb.SecuritySetting :=
  match v with storepb.WORKSPACE_SETTING_SECURITY s => Some s | _ => None end.

Definition identityProvidersOf (v : storepb.WorkspaceSetting)
    : option (list storepb.IdentityProvider) :=
  match v with storepb.WORKSPACE_SETTING_IDENTITY_PROVIDER l => Some l | _ => None end.

(** Modelled from the spec: [Store.GetWorkspaceSecuritySetting] is
    missing; the two booleans, both false when the row does not exist. *)
Definition GetWorkspaceSecuritySetting (d : DB) : storepb.SecuritySetting :=
  default {| storepb.DisallowUserRegistration := false;
             storepb.DisallowPasswordAuth := false |}
          (head (omap securityOf (workspaceSettings d))).

(** [Store.GetWorkspaceSetting] with the key
    WORKSPACE_SETTING_IDENTITY_PROVIDER: the row, or nil. *)
Definition GetIdentityProviderSetting (d : DB)
    : option (list storepb.IdentityProvider) :=
  head (omap identityProvidersOf (workspaceSettings d)).

Definition ListWorkspaceSettings (d : DB) : list storepb.WorkspaceSetting :=
  workspaceSettings d.

End store.

(** ** The service, a request context, and the handler monad *)

Inductive FeatureType :=
| FeatureTypeSSO | FeatureTypeUnlimitedAccounts | FeatureTypeUnlimitedCollections.

(** [APIV1Service]: the signing secret and the license service (an oracle
    for the seat count and the enabled features). *)
Record APIV1Service := {
  Secret : string;
  Seats : Z;
  IsFeatureEnabled : FeatureType → bool;
}.

(** What a request carries besides its message: the user id the
    authentication interceptor put in the context, and the time. *)
Record Ctx := {
  ctxUserID : option Z;
  ctxNow : Z;
}.

(** What a handler can change: the database and the response metadata
    ([grpc.SetHeader]). *)
Record World := {
  db : store.DB;
  header : list (string * string);
}.

Definition M (A : Type) : Type := World → Outcome A * World.

Definition ret {A} (a : A) : M A := λ w, (Ok a, w).
Definition fail {A} (c : Code) (msg : string) : M A := λ w, (Fail c msg, w).
Definition panic {A} : M A := λ w, (Panic, w).
Definition bind {A B} (m : M A) (k : A → M B) : M B :=
  λ w, match m w with
       | (Ok a, w') => k a w'
       | (Fail c msg, w') => (Fail c msg, w')
       | (Panic, w') => (Panic, w')
       end.

Declare Scope handler_scope.
Delimit Scope handler_scope with handler.
Notation "'do' x <- m ; k" := (bind m (λ x, k))
  (at level 10, x name, m at level 100, k at level 200,
   format "'do'  x  <-  m ; '//' k") : handler_scope.
Notation "'run' m ; k" := (bind m (λ _, k))
  (at level 10, m at level 100, k at level 200,
   format "'run'  m ; '//' k") : handler_scope.
Local Open Scope handler_scope.

(** Reading the database, and a store call that changes it. *)
Definition query {A} (f : store.DB → A) : M A := λ w, (Ok (f (db w)), w).
Definition exec {A} (f : store.DB → A * store.DB) : M A :=
  λ w, let '(a, d) := f (db w) in (Ok a, {| db := d; header := header w |}).

(** [grpc.SetHeader(ctx, metadata.New(map[string]string{k: v}))] on the open
    stream of a handler. *)
Definition SetHeader (k v : string) : M unit :=
  λ w, (Ok tt, {| db := db w; header := header w ++ [(k, v)] |}).

(** Modelled from the spec: [getCurrentUser] is missing; the session is
    re-derived on every request: no user id in the context gives nil,
    otherwise the user is looked up by id. *)
Definition getCurrentUser (ctx : Ctx) : M (option store.User) :=
  match ctxUserID ctx with
  | None => ret None
  | Some userID =>
      query (λ d, store.GetUser d {| store.findID := Some userID;
                                     store.findEmail := None;
                                     store.findRole := None |})
  end.

(** ** API messages *)

Module v1pb.

Inductive Role := ROLE_UNSPECIFIED | ADMIN | USER.

Inductive State := STATE_UNSPECIFIED | ACTIVE | INACTIVE.

Record User := {
  Id : Z;
  State_ : State;
  CreatedTime : Z;
  UpdatedTime : Z;
  Role_ : Role;
  Email : string;
  Nickname : string;
}.

Record UserAccessToken := {
  AccessToken : string;
  Description : string;
  IssuedAt : Z;                 (* IssuedAt.Seconds *)
  ExpiresAt : option Z;
}.

Record FieldMapping := {
  fmIdentifier : string;
  fmDisplayName : string;
}.

Record OAuth2Config := {
  ClientId : string;
  ClientSecret : string;
  AuthUrl : string;
  TokenUrl : string;
  UserInfoUrl : string;
  Scopes : list string;
  FieldMapping_ : FieldMapping;
}.

Record IdentityProvider := {
  IdpId : string;
  Title : string;
  Type_ : storepb.IdentityProvider_Type;
  Config : option OAuth2Config;
}.

Record WorkspaceSetting := {
  Branding : string;
  CustomStyle : string;
  DefaultVisibility : storepb.Visibility;
  IdentityProviders : list IdentityProvider;
  DisallowUserRegistration : bool;
  DisallowPasswordAuth : bool;
}.

End v1pb.

(** ** slices.SortFunc *)

Section SortFunc.
Context {E : Type} (cmp : E → E → Z).

(** The inner loop of [insertionSortCmpFunc]: the new element moves left
    while it compares below its left neighbour.  The sorted prefix is held
    reversed, nearest neighbour first. *)
Fixpoint sink (x : E) (rp : list E) : list E :=
  match rp with
  | [] => [x]
  | y :: rest => if (cmp x y <? 0)%Z then y :: sink x rest else x :: y :: rest
  end.

(** [slices.SortFunc]: up to twelve elements the library sorts by exactly
    this insertion sort; longer slices go through pattern-defeating
    quicksort, which orders by the same comparison. *)
Definition SortFunc (l : list E) : list E :=
  rev (fold_left (λ rp x, sink x rp) l []).

End SortFunc.

(** Go's int64 subtraction wraps around. *)
Definition wrap64 (z : Z) : Z := (z + 2 ^ 63) mod 2 ^ 64 - 2 ^ 63.

(** ** user_service.go: the access-token registry *)

Section AccessTokens.
Context `{Externals} (s : APIV1Service).

(** Modelled from the spec: [GenerateAccessToken] (auth.go) is missing;
    the header declares HS256 and the key version ["v1"], the claims hold
    the issued-at time (now) and an expiry only when one was requested. *)
Definition GenerateAccessToken (now : Z) (email : string) (userID : Z)
    (expirationTime : option Z) (secret : string) : Res string :=
  jwtSignedString
    {[ "alg" := JStr "HS256"; "typ" := JStr "JWT"; "kid" := JStr "v1" ]}
    {| Name := email; Subject := userID; IssuedAt := Some now;
       ExpiresAt := expirationTime |}
    secret.

(** The loop of ListUserAccessTokens over the stored records: a record
    whose token does not parse is skipped; the times of the others are
    read from the decoded claims. *)
Fixpoint collectAccessTokens (now : Z) (l : list storepb.AccessToken)
    (accessTokens : list v1pb.UserAccessToken)
    : Outcome (list v1pb.UserAccessToken) :=
  match l with
  | [] => Ok accessTokens
  | userAccessToken :: rest =>
      match parseAccessToken (Secret s) now (storepb.AccessToken_ userAccessToken) with
      | Error _ => collectAccessTokens now rest accessTokens
      | Val t =>
          match IssuedAt (Claims t) with
          | None => Panic
          | Some iat =>
              collectAccessTokens now rest
                (accessTokens ++
                 [{| v1pb.AccessToken := storepb.AccessToken_ userAccessToken;
                     v1pb.Description := storepb.Description userAccessToken;
                     v1pb.IssuedAt := iat;
                     v1pb.ExpiresAt := ExpiresAt (Claims t) |}])
          end
      end
  end.

(** The comparison handed to [slices.SortFunc]:
    [int(i.IssuedAt.Seconds - j.IssuedAt.Seconds)], with [int] 64 bits wide. *)
Definition byIssuedAt (i j : v1pb.UserAccessToken) : Z :=
  wrap64 (v1pb.IssuedAt i - v1pb.IssuedAt j).

Definition ListUserAccessTokens (ctx : Ctx) (requestId : Z)
    : M (list v1pb.UserAccessToken) :=
  do user <- getCurrentUser ctx;
  match user with
  | None => panic
  | Some user =>
      if negb (store.ID user =? requestId)%Z then
        fail PermissionDenied "Permission denied"
      else
        do userAccessTokens <- query (λ d, store.GetUserAccessTokens d (store.ID user));
        match collectAccessTokens (ctxNow ctx) userAccessTokens [] with
        | Ok accessTokens => ret (SortFunc byIssuedAt accessTokens)
        | Fail c msg => fail c msg
        | Panic => panic
        end
  end.

Definition UpsertAccessTokenToStore (user : store.User)
    (accessToken description : string) : M unit :=
  do userAccessTokens <- query (λ d, store.GetUserAccessTokens d (store.ID user));
  exec (λ d, (tt, store.UpsertUserSetting d (store.ID user)
                    (userAccessTokens ++
                     [{| storepb.AccessToken_ := accessToken;
                         storepb.Description := description |}]))).

Definition CreateUserAccessToken (ctx : Ctx) (requestId : Z)
    (description : string) (expiresAt : option Z) : M v1pb.UserAccessToken :=
  do user <- getCurrentUser ctx;
  match user with
  | None => panic
  | Some user =>
      if negb (store.ID user =? requestId)%Z then
        fail PermissionDenied "Permission denied"
      else
        match GenerateAccessToken (ctxNow ctx) (store.Email user) (store.ID user)
                expiresAt (Secret s) with
        | Error e => fail Internal ("failed to generate access token: " +:+ e)
        | Val accessToken =>
            match parseAccessToken (Secret s) (ctxNow ctx) accessToken with
            | Error e => fail Internal ("failed to parse access token: " +:+ e)
            | Val t =>
                run UpsertAccessTokenToStore user accessToken description;
                match IssuedAt (Claims t) with
                | None => panic
                | Some iat =>
                    ret {| v1pb.AccessToken := accessToken;
                           v1pb.Description := description;
                           v1pb.IssuedAt := iat;
                           v1pb.ExpiresAt := ExpiresAt (Claims t) |}
                end
            end
        end
  end.

(** The loop of DeleteUserAccessToken: a record whose token equals the
    request's is skipped, every other one is appended. *)
Fixpoint dropAccessToken (accessToken : string) (l : list storepb.AccessToken)
    (updatedUserAccessTokens : list storepb.AccessToken)
    : list storepb.AccessToken :=
  match l with
  | [] => updatedUserAccessTokens
  | userAccessToken :: rest =>
      if String.eqb (storepb.AccessToken_ userAccessToken) accessToken then
        dropAccessToken accessToken rest updatedUserAccessTokens
      else
        dropAccessToken accessToken rest
          (updatedUserAccessTokens ++ [userAccessToken])
  end.

Definition DeleteUserAccessToken (ctx : Ctx) (accessToken : string) : M unit :=
  do user <- getCurrentUser ctx;
  match user with
  | None => panic
  | Some user =>
      do userAccessTokens <- query (λ d, store.GetUserAccessTokens d (store.ID user));
      exec (λ d, (tt, store.UpsertUserSetting d (store.ID user)
                        (dropAccessToken accessToken userAccessTokens [])))
  end.

End AccessTokens.

(** ** plugin/idp/oauth2 *)

Module oauth2.

(** The message for a missing field, its name between double quotes. *)
Definition required (field : string) : string :=
  "the field " +:+ String "034"%char field +:+ String "034"%char " is empty but required".

(** Modelled from the spec: [NewIdentityProvider] (oauth2.go) is missing,
    only its test is there; construction fails fast on an empty token
    URL, user-info URL or identifier field name, with the three messages
    of the test.  A nil configuration or mapping reads as empty fields. *)
Definition NewIdentityProvider (config : option storepb.OAuth2Config)
    : Res storepb.OAuth2Config :=
  match config with
  | None => Error (required "tokenUrl")
  | Some c =>
      if String.eqb (storepb.TokenUrl c) EmptyString then
        Error (required "tokenUrl")
      else if String.eqb (storepb.UserInfoUrl c) EmptyString then
        Error (required "userInfoUrl")
      else if String.eqb (from_option storepb.fmIdentifier EmptyString
                            (storepb.FieldMapping_ c)) EmptyString then
        Error (required "fieldMapping.identifier")
      else Val c
  end.

End oauth2.

(** ** auth_service.go: the session orchestrator *)

Section Auth.
Context `{Externals} (s : APIV1Service).

Definition unmatchedEmailAndPasswordError : string :=
  "unmatched email and password".

Definition convertUserRoleFromStore (role : store.Role) : v1pb.Role :=
  match role with
  | store.RoleAdmin => v1pb.ADMIN
  | store.RoleUser => v1pb.USER
  end.

(** Modelled from the spec: [convertStateFromRowStatus] is missing; the
    lifecycle status Normal is an active user, Archived an inactive one. *)
Definition convertStateFromRowStatus (rowStatus : storepb.RowStatus) : v1pb.State :=
  match rowStatus with
  | storepb.NORMAL => v1pb.ACTIVE
  | storepb.ARCHIVED => v1pb.INACTIVE
  end.

Definition convertUserFromStore (user : store.User) : v1pb.User :=
  {| v1pb.Id := store.ID user;
     v1pb.State_ := convertStateFromRowStatus (store.RowStatus user);
     v1pb.CreatedTime := store.CreatedTs user;
     v1pb.UpdatedTime := store.UpdatedTs user;
     v1pb.Role_ := convertUserRoleFromStore (store.Role_ user);
     v1pb.Email := store.Email user;
     v1pb.Nickname := store.Nickname user |}.

Definition checkSeatAvailability : M unit :=
  if negb (IsFeatureEnabled s FeatureTypeUnlimitedAccounts) then
    do userList <- query (λ d, store.ListUsers d store.findAll);
    let seats := Seats s in
    if (Z.of_nat (length userList) >=? seats)%Z then
      fail FailedPrecondition
           ("maximum number of users " +:+ pretty seats +:+ " reached")
    else ret tt
  else ret tt.

(** [doSignIn] returns an error value, which its three callers wrap. *)
Definition doSignIn (ctx : Ctx) (user : store.User) (expireTime : Z)
    : M (Res unit) :=
  match GenerateAccessToken (ctxNow ctx) (store.Email user) (store.ID user)
          (Some expireTime) (Secret s) with
  | Error e =>
      ret (Error ("rpc error: code = Internal desc = failed to generate access token: " +:+ e))
  | Val accessToken =>
      run UpsertAccessTokenToStore user accessToken "user login";
      let cookie :=
        AccessTokenCookieName +:+ "=" +:+ accessToken +:+ "; Path=/; Expires=" +:+
        FormatRFC1123 (ctxNow ctx + AccessTokenDuration) +:+
        "; HttpOnly; SameSite=Strict" in
      run SetHeader "Set-Cookie" cookie;
      ret (Val tt)
  end.

Definition SignIn (ctx : Ctx) (email password : string) : M v1pb.User :=
  do user <- query (λ d, store.GetUser d {| store.findID := None;
                                            store.findEmail := Some email;
                                            store.findRole := None |});
  match user with
  | None => fail InvalidArgument unmatchedEmailAndPasswordError
  | Some user =>
      if negb (CompareHashAndPassword (store.PasswordHash user) password) then
        fail InvalidArgument unmatchedEmailAndPasswordError
      else
        do workspaceSecuritySetting <- query store.GetWorkspaceSecuritySetting;
        if storepb.DisallowPasswordAuth workspaceSecuritySetting
           && bool_decide (store.Role_ user = store.RoleUser) then
          fail PermissionDenied "password authentication is not allowed"
        else
          match store.RowStatus user with
          | storepb.ARCHIVED => fail PermissionDenied "user has been archived"
          | storepb.NORMAL =>
              do r <- doSignIn ctx user (ctxNow ctx + AccessTokenDuration);
              match r with
              | Error e => fail Internal ("failed to sign in: " +:+ e)
              | Val _ => ret (convertUserFromStore user)
              end
          end
  end.

(** The loop that resolves the identity provider of the request: the
    first one whose id matches. *)
Definition findIdentityProvider (idpId : string)
    (l : list storepb.IdentityProvider) : option storepb.IdentityProvider :=
  List.find (λ idp, String.eqb (storepb.Id idp) idpId) l.

(** Lines 96-110: the user info stays nil unless the provider's type is
    OAuth2. *)
Definition fetchUserInfo (identityProvider : storepb.IdentityProvider)
    (redirectUri code : string) : M (option IdentityProviderUserInfo) :=
  match storepb.Type_ identityProvider with
  | storepb.OAUTH2 =>
      match oauth2.NewIdentityProvider (storepb.Config identityProvider) with
      | Error e =>
          fail Internal ("failed to create oauth2 identity provider, err: " +:+ e)
      | Val oauth2IdentityProvider =>
          match ExchangeToken oauth2IdentityProvider redirectUri code with
          | Error e => fail Internal ("failed to exchange token, err: " +:+ e)
          | Val token =>
              match UserInfo oauth2IdentityProvider token with
              | Error e => fail Internal ("failed to get user info, err: " +:+ e)
              | Val userInfo => ret (Some userInfo)
              end
          end
      end
  | _ => ret None
  end.

(** Lines 122-145: auto-provision of a user the provider vouches for. *)
Definition provisionUser (ctx : Ctx) (email : string)
    (userInfo : IdentityProviderUserInfo) : M store.User :=
  run checkSeatAvailability;
  match RandomString 20 with
  | Error e => fail Internal ("failed to generate random password, err: " +:+ e)
  | Val password =>
      match GenerateFromPassword password with
      | None => fail Internal "failed to generate password hash, err: bcrypt"
      | Some passwordHash =>
          let userCreate :=
            {| store.ID := 0; store.CreatedTs := 0; store.UpdatedTs := 0;
               store.RowStatus := storepb.NORMAL;
               store.Email := email;
               store.Nickname := DisplayName userInfo;
               store.PasswordHash := passwordHash;
               store.Role_ := store.RoleUser |} in
          do r <- exec (λ d, store.CreateUser (ctxNow ctx) d userCreate);
          match r with
          | Error e => fail Internal ("failed to create user, err: " +:+ e)
          | Val user => ret user
          end
      end
  end.

Definition SignInWithSSO (ctx : Ctx) (idpId code redirectUri : string)
    : M v1pb.User :=
  if negb (IsFeatureEnabled s FeatureTypeSSO) then
    fail PermissionDenied "SSO is not available in the current plan"
  else
    do identityProviderSetting <- query store.GetIdentityProviderSetting;
    match identityProviderSetting with
    | None => fail InvalidArgument "identity provider not found"
    | Some identityProviders =>
        match findIdentityProvider idpId identityProviders with
        | None => fail InvalidArgument "identity provider not found"
        | Some identityProvider =>
            do userInfo <- fetchUserInfo identityProvider redirectUri code;
            match userInfo with
            | None => panic                      (* userInfo.Identifier *)
            | Some userInfo =>
                let email := Identifier userInfo in
                if negb (ValidateEmail email) then
                  fail InvalidArgument "invalid email address"
                else
                  do found <- query (λ d, store.GetUser d
                                 {| store.findID := None;
                                    store.findEmail := Some email;
                                    store.findRole := None |});
                  do user <- match found with
                             | Some user => ret user
                             | None => provisionUser ctx email userInfo
                             end;
                  match store.RowStatus user with
                  | storepb.ARCHIVED =>
                      fail PermissionDenied "user has been archived"
                  | storepb.NORMAL =>
                      do r <- doSignIn ctx user (ctxNow ctx + AccessTokenDuration);
                      match r with
                      | Error e => fail Internal ("failed to sign in, err: " +:+ e)
                      | Val _ => ret (convertUserFromStore user)
                      end
                  end
            end
        end
    end.

(** Lines 165-198 of SignUp: the creation of the user, from the seat check
    to the session. *)
Definition signUpUser (ctx : Ctx) (email nickname password : string) : M v1pb.User :=
  run checkSeatAvailability;
  match GenerateFromPassword password with
  | None => fail Internal "failed to generate password hash: bcrypt"
  | Some passwordHash =>
      do existingUsers <- query (λ d, store.ListUsers d store.findAll);
      let create :=
        {| store.ID := 0; store.CreatedTs := 0; store.UpdatedTs := 0;
           store.RowStatus := storepb.NORMAL;
           store.Email := email;
           store.Nickname := nickname;
           store.PasswordHash := passwordHash;
           store.Role_ := if (length existingUsers =? 0)%nat
                          then store.RoleAdmin else store.RoleUser |} in
      do r <- exec (λ d, store.CreateUser (ctxNow ctx) d create);
      match r with
      | Error e => fail Internal ("failed to create user: " +:+ e)
      | Val user =>
          do r <- doSignIn ctx user (ctxNow ctx + AccessTokenDuration);
          match r with
          | Error e => fail Internal ("failed to sign in: " +:+ e)
          | Val _ => ret (convertUserFromStore user)
          end
      end
  end.

Definition SignUp (ctx : Ctx) (email nickname password : string) : M v1pb.User :=
  do workspaceSecuritySetting <- query store.GetWorkspaceSecuritySetting;
  if storepb.DisallowUserRegistration workspaceSecuritySetting then
    fail PermissionDenied "sign up is not allowed"
  else
    signUpUser ctx email nickname password.

Definition SignOut (ctx : Ctx) : M unit :=
  SetHeader "Set-Cookie"
    (AccessTokenCookieName +:+
     "=; Path=/; Expires=Thu, 01 Jan 1970 00:00:00 GMT; HttpOnly; SameSite=Strict").

(** user_service.go, [CreateUser]: the operation an administrator uses to
    add a user. *)
Definition CreateUser (ctx : Ctx) (email nickname password : string) : M v1pb.User :=
  match GenerateFromPassword password with
  | None => fail Internal "failed to hash password: bcrypt"
  | Some passwordHash =>
      run checkSeatAvailability;
      do r <- exec (λ d, store.CreateUser (ctxNow ctx) d
                 {| store.ID := 0; store.CreatedTs := 0; store.UpdatedTs := 0;
                    store.RowStatus := storepb.NORMAL;
                    store.Email := email;
                    store.Nickname := nickname;
                    store.PasswordHash := passwordHash;
                    store.Role_ := store.RoleUser |});
      match r with
      | Error e => fail Internal ("failed to create user: " +:+ e)
      | Val user => ret (convertUserFromStore user)
      end
  end.

End Auth.

(** ** workspace_service.go: reading the workspace setting *)

Section Workspace.
Context `{Externals} (s : APIV1Service).

(** [oauth2Config.FieldMapping.Identifier] reads through the mapping
    pointer without a guard. *)
Definition convertIdentityProviderConfigFromStore
    (identityProviderConfig : option storepb.OAuth2Config)
    : Outcome (option v1pb.OAuth2Config) :=
  match identityProviderConfig with
  | Some oauth2Config =>
      match storepb.FieldMapping_ oauth2Config with
      | None => Panic
      | Some fieldMapping =>
          Ok (Some
            {| v1pb.ClientId := storepb.ClientId oauth2Config;
               v1pb.ClientSecret := storepb.ClientSecret oauth2Config;
               v1pb.AuthUrl := storepb.AuthUrl oauth2Config;
               v1pb.TokenUrl := storepb.TokenUrl oauth2Config;
               v1pb.UserInfoUrl := storepb.UserInfoUrl oauth2Config;
               v1pb.Scopes := storepb.Scopes oauth2Config;
               v1pb.FieldMapping_ :=
                 {| v1pb.fmIdentifier := storepb.fmIdentifier fieldMapping;
                    v1pb.fmDisplayName := storepb.fmDisplayName fieldMapping |} |})
      end
  | None => Ok None
  end.

Definition convertIdentityProviderFromStore
    (identityProvider : storepb.IdentityProvider) : Outcome v1pb.IdentityProvider :=
  match convertIdentityProviderConfigFromStore (storepb.Config identityProvider) with
  | Ok config =>
      Ok {| v1pb.IdpId := storepb.Id identityProvider;
            v1pb.Title := storepb.Title identityProvider;
            v1pb.Type_ := storepb.Type_ identityProvider;
            v1pb.Config := config |}
  | Fail c msg => Fail c msg
  | Panic => Panic
  end.

(** The client secret of the copy that goes out is set to the empty
    string. *)
Definition clearClientSecret (idp : v1pb.IdentityProvider) : v1pb.IdentityProvider :=
  match v1pb.Config idp with
  | Some oauth2Config =>
      {| v1pb.IdpId := v1pb.IdpId idp; v1pb.Title := v1pb.Title idp;
         v1pb.Type_ := v1pb.Type_ idp;
         v1pb.Config := Some
           {| v1pb.ClientId := v1pb.ClientId oauth2Config;
              v1pb.ClientSecret := EmptyString;
              v1pb.AuthUrl := v1pb.AuthUrl oauth2Config;
              v1pb.TokenUrl := v1pb.TokenUrl oauth2Config;
              v1pb.UserInfoUrl := v1pb.UserInfoUrl oauth2Config;
              v1pb.Scopes := v1pb.Scopes oauth2Config;
              v1pb.FieldMapping_ := v1pb.FieldMapping_ oauth2Config |} |}
  | None => idp
  end.

(** [currentUser == nil || currentUser.Role != store.RoleAdmin]. *)
Definition notAdmin (currentUser : option store.User) : bool :=
  match currentUser with
  | None => true
  | Some u => negb (bool_decide (store.Role_ u = store.RoleAdmin))
  end.

(** The inner loop (lines 68-77) over the stored identity providers. *)
Fixpoint exportIdentityProviders (currentUser : option store.User)
    (l : list storepb.IdentityProvider) (out : list v1pb.IdentityProvider)
    : Outcome (list v1pb.IdentityProvider) :=
  match l with
  | [] => Ok out
  | identityProvider :: rest =>
      match convertIdentityProviderFromStore identityProvider with
      | Ok identityProviderV1pb =>
          let identityProviderV1pb :=
            if notAdmin currentUser then clearClientSecret identityProviderV1pb
            else identityProviderV1pb in
          exportIdentityProviders currentUser rest (out ++ [identityProviderV1pb])
      | Fail c msg => Fail c msg
      | Panic => Panic
      end
  end.

Definition emptyWorkspaceSetting : v1pb.WorkspaceSetting :=
  {| v1pb.Branding := EmptyString; v1pb.CustomStyle := EmptyString;
     v1pb.DefaultVisibility := storepb.VISIBILITY_UNSPECIFIED;
     v1pb.IdentityProviders := [];
     v1pb.DisallowUserRegistration := false;
     v1pb.DisallowPasswordAuth := false |}.

(** The outer loop (lines 53-79): every row overwrites its part of the
    response.  (The visibility enums of the two packages have the same
    names; the conversion between them is missing and carried over.) *)
Fixpoint collectSettings (currentUser : option store.User)
    (l : list storepb.WorkspaceSetting) (workspaceSetting : v1pb.WorkspaceSetting)
    : Outcome v1pb.WorkspaceSetting :=
  match l with
  | [] => Ok workspaceSetting
  | v :: rest =>
      match v with
      | storepb.WORKSPACE_SETTING_GENERAL generalSetting =>
          collectSettings currentUser rest
            {| v1pb.Branding := storepb.Branding generalSetting;
               v1pb.CustomStyle := storepb.CustomStyle generalSetting;
               v1pb.DefaultVisibility := v1pb.DefaultVisibility workspaceSetting;
               v1pb.IdentityProviders := v1pb.IdentityProviders workspaceSetting;
               v1pb.DisallowUserRegistration := v1pb.DisallowUserRegistration workspaceSetting;
               v1pb.DisallowPasswordAuth := v1pb.DisallowPasswordAuth workspaceSetting |}
      | storepb.WORKSPACE_SETTING_SECURITY securitySetting =>
          collectSettings currentUser rest
            {| v1pb.Branding := v1pb.Branding workspaceSetting;
               v1pb.CustomStyle := v1pb.CustomStyle workspaceSetting;
               v1pb.DefaultVisibility := v1pb.DefaultVisibility workspaceSetting;
               v1pb.IdentityProviders := v1pb.IdentityProviders workspaceSetting;
               v1pb.DisallowUserRegistration := storepb.DisallowUserRegistration securitySetting;
               v1pb.DisallowPasswordAuth := storepb.DisallowPasswordAuth securitySetting |}
      | storepb.WORKSPACE_SETTING_SHORTCUT_RELATED defaultVisibility =>
          collectSettings currentUser rest
            {| v1pb.Branding := v1pb.Branding workspaceSetting;
               v1pb.CustomStyle := v1pb.CustomStyle workspaceSetting;
               v1pb.DefaultVisibility := defaultVisibility;
               v1pb.IdentityProviders := v1pb.IdentityProviders workspaceSetting;
               v1pb.DisallowUserRegistration := v1pb.DisallowUserRegistration workspaceSetting;
               v1pb.DisallowPasswordAuth := v1pb.DisallowPasswordAuth workspaceSetting |}
      | storepb.WORKSPACE_SETTING_IDENTITY_PROVIDER identityProviders =>
          match exportIdentityProviders currentUser identityProviders [] with
          | Ok out =>
              collectSettings currentUser rest
                {| v1pb.Branding := v1pb.Branding workspaceSetting;
                   v1pb.CustomStyle := v1pb.CustomStyle workspaceSetting;
                   v1pb.DefaultVisibility := v1pb.DefaultVisibility workspaceSetting;
                   v1pb.IdentityProviders := out;
                   v1pb.DisallowUserRegistration := v1pb.DisallowUserRegistration workspaceSetting;
                   v1pb.DisallowPasswordAuth := v1pb.DisallowPasswordAuth workspaceSetting |}
          | Fail c msg => Fail c msg
          | Panic => Panic
          end
      | storepb.WORKSPACE_SETTING_OTHER =>
          collectSettings currentUser rest workspaceSetting
      end
  end.

Definition GetWorkspaceSetting (ctx : Ctx) : M v1pb.WorkspaceSetting :=
  do currentUser <- getCurrentUser ctx;
  do workspaceSettings <- query store.ListWorkspaceSettings;
  match collectSettings currentUser workspaceSettings emptyWorkspaceSetting with
  | Ok workspaceSetting => ret workspaceSetting
  | Fail c msg => fail c msg
  | Panic => panic
  end.

End Workspace.

(** ** A small world to run the handlers in *)

Module demo.

Definition tokenHeader (alg : string) (kid : option JVal) : gmap string JVal :=
  match kid with
  | Some k => {[ "alg" := JStr alg; "typ" := JStr "JWT"; "kid" := k ]}
  | None => {[ "alg" := JStr alg; "typ" := JStr "JWT" ]}
  end.

Definition segments (alg : string) (kid : option JVal) (iat : Z)
    (exp : option Z) (text : string) : Segments :=
  {| segHeader := tokenHeader alg kid;
     segClaims := {| Name := "steven@example.com"; Subject := 1;
                     IssuedAt := Some iat; ExpiresAt := exp |};
     segSigningString := text;
     segSignature := "mac(" +:+ text +:+ ",secret)" |}.

(** The token strings this world can decode; every one of them carries a
    good signature under the key ["secret"].  Signing always yields the
    session token of Steven, issued at 1000 for a week. *)
Definition tokens : list (string * Segments) :=
  [ ("tok.early",   segments "HS256" (Some (JStr "v1")) 100 None "early");
    ("tok.late",    segments "HS256" (Some (JStr "v1")) 200 None "late");
    ("tok.expired", segments "HS256" (Some (JStr "v1")) 10 (Some 50) "expired");
    ("tok.session", segments "HS256" (Some (JStr "v1")) 1000 (Some 605800) "session");
    ("tok.none",    segments "none"  (Some (JStr "v1")) 100 None "none");
    ("tok.hs512",   segments "HS512" (Some (JStr "v1")) 100 None "hs512");
    ("tok.v0",      segments "HS256" (Some (JStr "v0")) 100 None "v0");
    ("tok.kid1",    segments "HS256" (Some (JNum 1)) 100 None "kid1");
    ("tok.nokid",   segments "HS256" None 100 None "nokid") ].

Definition decode (tokenString : string) : option Segments :=
  snd <$> List.find (λ p, String.eqb (fst p) tokenString) tokens.

Definition verify (alg text sig key : string) : bool :=
  String.eqb sig ("mac(" +:+ text +:+ "," +:+ key +:+ ")").

Definition hasAt (e : string) : bool :=
  match String.index 0 "@" e with Some _ => true | None => false end.

Definition world : Externals := {|
  GenerateFromPassword := λ p, Some ("bcrypt:" +:+ p);
  CompareHashAndPassword := λ h p, String.eqb h ("bcrypt:" +:+ p);
  jwtDecode := decode;
  jwtVerify := verify;
  jwtSignedString := λ _ _ _, Val "tok.session";
  ValidateEmail := hasAt;
  RandomString := λ _, Val "kPq7Zr2LxWm9YtB4NcVa";
  ExchangeToken := λ _ _ code,
    if String.eqb code "test-code" then Val "test-access-token"
    else Error "oauth2: cannot fetch token";
  UserInfo := λ _ token,
    if String.eqb token "test-access-token"
    then Val {| Identifier := "john.doe@example.com"; DisplayName := "John Doe" |}
    else Error "failed to get user information";
  FormatRFC1123 := pretty;
  AccessTokenCookieName := "slash.access-token";
  AccessTokenDuration := 604800;
|}.

Definition service : APIV1Service :=
  {| Secret := "secret"; Seats := 5;
     IsFeatureEnabled := λ f, match f with FeatureTypeSSO => true | _ => false end |}.

Definition steven : store.User :=
  {| store.ID := 1; store.CreatedTs := 1; store.UpdatedTs := 1;
     store.RowStatus := storepb.NORMAL; store.Email := "steven@example.com";
     store.Nickname := "steven"; store.PasswordHash := "bcrypt:hunter2";
     store.Role_ := store.RoleAdmin |}.

Definition record (tokenString description : string) : storepb.AccessToken :=
  {| storepb.AccessToken_ := tokenString; storepb.Description := description |}.

Definition withTokens (l : list storepb.AccessToken) : World :=
  {| db := {| store.users := [steven]; store.userSeq := 1;
              store.accessTokens := {[ 1 := l ]};
              store.workspaceSettings := [] |};
     header := [] |}.

Definition asSteven : Ctx := {| ctxUserID := Some 1; ctxNow := 1000 |}.
Definition anonymous : Ctx := {| ctxUserID := None; ctxNow := 1000 |}.

End demo.

(** * The vocabulary of the properties *)

(** The request of [getCurrentUser] to the store. *)
Definition byID (userID : Z) : store.FindUser :=
  {| store.findID := Some userID; store.findEmail := None; store.findRole := None |}.

Definition byEmail (email : string) : store.FindUser :=
  {| store.findID := None; store.findEmail := Some email; store.findRole := None |}.

(** The caller [getCurrentUser] finds. *)
Definition callerOf (ctx : Ctx) (d : store.DB) : option store.User :=
  match ctxUserID ctx with
  | Some userID => store.GetUser d (byID userID)
  | None => None
  end.

(** The stored record an API record was read from. *)
Definition storedOf (a : v1pb.UserAccessToken) : storepb.AccessToken :=
  {| storepb.AccessToken_ := v1pb.AccessToken a;
     storepb.Description := v1pb.Description a |}.

Definition keeps (accessToken : string) (r : storepb.AccessToken) : bool :=
  negb (String.eqb (storepb.AccessToken_ r) accessToken).

(** Removal of the first match only, as the words of the specification
    have it; [dropAccessToken] is compared with it below. *)
Fixpoint removeFirst (accessToken : string) (l : list storepb.AccessToken)
    : list storepb.AccessToken :=
  match l with
  | [] => []
  | r :: rest =>
      if String.eqb (storepb.AccessToken_ r) accessToken then rest
      else r :: removeFirst accessToken rest
  end.

(** The issued-at seconds of a record fit the comparison's subtraction. *)
Definition inRange (a : v1pb.UserAccessToken) : Prop :=
  - 2 ^ 62 ≤ v1pb.IssuedAt a < 2 ^ 62.

(** The number of users there are, as the seat check counts them. *)
Definition seatsTaken (w : World) : Z := Z.of_nat (length (store.users (db w))).

(** What a handler may do to the user table: leave it, or append one user
    of the given role. *)
Definition appendsAtMost (role : store.Role) (before after : list store.User) : Prop :=
  after = before ∨ ∃ user, after = before ++ [user] ∧ store.Role_ user = role.

(** The role SignUp gives: Admin to the first user ever, User afterwards. *)
Definition signUpRole (existingUsers : list store.User) : store.Role :=
  match existingUsers with
  | [] => store.RoleAdmin
  | _ :: _ => store.RoleUser
  end.

(** Some user is an administrator. *)
Definition hasAdmin (d : store.DB) : Prop :=
  ∃ user, user ∈ store.users d ∧ store.Role_ user = store.RoleAdmin.

(** The invariant of the data model: an administrator exists once any user
    exists. *)
Definition adminOnceAnyUser (d : store.DB) : Prop :=
  store.users d = [] ∨ hasAdmin d.

(** A stored provider, setting row and database with every client secret
    blanked: what two databases that differ only in secrets have in common. *)
Definition blankConfig (c : storepb.OAuth2Config) : storepb.OAuth2Config :=
  {| storepb.ClientId := storepb.ClientId c;
     storepb.ClientSecret := EmptyString;
     storepb.AuthUrl := storepb.AuthUrl c;
     storepb.TokenUrl := storepb.TokenUrl c;
     storepb.UserInfoUrl := storepb.UserInfoUrl c;
     storepb.Scopes := storepb.Scopes c;
     storepb.FieldMapping_ := storepb.FieldMapping_ c |}.

Definition blankProvider (i : storepb.IdentityProvider) : storepb.IdentityProvider :=
  {| storepb.Id := storepb.Id i; storepb.Title := storepb.Title i;
     storepb.Type_ := storepb.Type_ i;
     storepb.Config := blankConfig <$> storepb.Config i |}.

Definition blankSetting (v : storepb.WorkspaceSetting) : storepb.WorkspaceSetting :=
  match v with
  | storepb.WORKSPACE_SETTING_IDENTITY_PROVIDER l =>
      storepb.WORKSPACE_SETTING_IDENTITY_PROVIDER (blankProvider <$> l)
  | _ => v
  end.

Definition sameButSecrets (d1 d2 : store.DB) : Prop :=
  store.users d1 = store.users d2 ∧
  blankSetting <$> store.workspaceSettings d1 =
    blankSetting <$> store.workspaceSettings d2.

(** The client secrets of a response and of a stored provider list, one
    entry per provider ([None]: no OAuth2 configuration). *)
Definition secretsOf (l : list v1pb.IdentityProvider) : list (option string) :=
  (λ i, v1pb.ClientSecret <$> v1pb.Config i) <$> l.

Definition storedSecrets (l : list storepb.IdentityProvider) : list (option string) :=
  (λ i, storepb.ClientSecret <$> storepb.Config i) <$> l.

Definition redacted (i : v1pb.IdentityProvider) : Prop :=
  ∀ c, v1pb.Config i = Some c → v1pb.ClientSecret c = EmptyString.

(** Every stored OAuth2 configuration has its field mapping. *)
Definition mapped (v : storepb.WorkspaceSetting) : Prop :=
  ∀ l i c, v = storepb.WORKSPACE_SETTING_IDENTITY_PROVIDER l → i ∈ l →
           storepb.Config i = Some c → is_Some (storepb.FieldMapping_ c).

(** The provider list the response ends with: the one of the last
    identity-provider row, if there is such a row. *)
Definition lastProviders (l : list storepb.WorkspaceSetting)
    : option (list storepb.IdentityProvider) :=
  last (omap store.identityProvidersOf l).

Section Vocabulary.
Context `{Externals} (s : APIV1Service).

(** The header of a token string, when it decodes. *)
Definition headerOf (tokenString : string) : option (gmap string JVal) :=
  segHeader <$> jwtDecode tokenString.

Definition headerField (tokenString field : string) : option JVal :=
  headerOf tokenString ≫= (λ h, h !! field).

(** What current validation asks of a token string: it decodes, its header
    declares HS256 and the key version ["v1"], its signature verifies under
    the secret, and its expiry, if it has one, is still ahead. *)
Definition validNow (secret : string) (now : Z) (tokenString : string) : Prop :=
  ∃ seg, jwtDecode tokenString = Some seg ∧
         segHeader seg !! "alg" = Some (JStr "HS256") ∧
         segHeader seg !! "kid" = Some (JStr "v1") ∧
         jwtVerify "HS256" (segSigningString seg) (segSignature seg) secret = true ∧
         ∀ exp, ExpiresAt (segClaims seg) = Some exp → now < exp.

(** A stored record survives the read when its token validates now. *)
Definition survives (now : Z) (r : storepb.AccessToken) : bool :=
  match parseAccessToken (Secret s) now (storepb.AccessToken_ r) with
  | Val _ => true
  | Error _ => false
  end.

(** A record carries the times of its token's decoded claims. *)
Definition timesFromClaims (now : Z) (a : v1pb.UserAccessToken) : Prop :=
  ∃ t, parseAccessToken (Secret s) now (v1pb.AccessToken a) = Val t ∧
       IssuedAt (Claims t) = Some (v1pb.IssuedAt a) ∧
       ExpiresAt (Claims t) = v1pb.ExpiresAt a.

(** Every token that validates carries an issued-at claim. *)
Definition issuedAtPresent (now : Z) (l : list storepb.AccessToken) : Prop :=
  ∀ r t, r ∈ l → parseAccessToken (Secret s) now (storepb.AccessToken_ r) = Val t →
         is_Some (IssuedAt (Claims t)).

(** The answer of the seat check when no seat is left. *)
Definition capacityError {A} : Outcome A :=
  Fail FailedPrecondition
       ("maximum number of users " +:+ pretty (Seats s) +:+ " reached").

(** No seat is left: accounts are limited and as many users exist as the
    license has seats, or more. *)
Definition seatsFull (w : World) : Prop :=
  IsFeatureEnabled s FeatureTypeUnlimitedAccounts = false ∧ Seats s ≤ seatsTaken w.

End Vocabulary.

(** ** Inputs of the demo world *)

Definition laptop := demo.record "tok.early" "laptop".
Definition ci := demo.record "tok.late" "ci".
Definition phone := demo.record "tok.early" "phone".
Definition stale := demo.record "tok.expired" "old session".
Definition forged := demo.record "tok.v0" "rotated key".

Definition office : storepb.IdentityProvider :=
  {| storepb.Id := "office"; storepb.Title := "Office directory";
     storepb.Type_ := storepb.TYPE_UNSPECIFIED; storepb.Config := None |}.

Definition github : storepb.IdentityProvider :=
  {| storepb.Id := "github"; storepb.Title := "GitHub";
     storepb.Type_ := storepb.OAUTH2;
     storepb.Config := Some
       {| storepb.ClientId := "test-client-id";
          storepb.ClientSecret := "test-client-secret";
          storepb.AuthUrl := "https://example.com/authorize";
          storepb.TokenUrl := "https://example.com/token";
          storepb.UserInfoUrl := "https://example.com/api/user";
          storepb.Scopes := ["user"];
          storepb.FieldMapping_ := Some
            {| storepb.fmIdentifier := "email";
               storepb.fmDisplayName := "name" |} |} |}.

(** A world with the given users and both providers configured. *)
Definition withUsers (l : list store.User) (disallowRegistration : bool) : World :=
  {| db := {| store.users := l; store.userSeq := Z.of_nat (length l);
              store.accessTokens := ∅;
              store.workspaceSettings :=
                [ storepb.WORKSPACE_SETTING_SECURITY
                    {| storepb.DisallowUserRegistration := disallowRegistration;
                       storepb.DisallowPasswordAuth := false |};
                  storepb.WORKSPACE_SETTING_IDENTITY_PROVIDER [office; github] ] |};
     header := [] |}.

Definition member (n : Z) (email : string) : store.User :=
  {| store.ID := n; store.CreatedTs := 1; store.UpdatedTs := 1;
     store.RowStatus := storepb.NORMAL; store.Email := email;
     store.Nickname := email; store.PasswordHash := "bcrypt:correct horse";
     store.Role_ := store.RoleUser |}.

Definition fourUsers : list store.User :=
  [demo.steven; member 2 "ann@example.com"; member 3 "bo@example.com";
   member 4 "cy@example.com"].

Definition fiveUsers : list store.User := fourUsers ++ [member 5 "di@example.com"].

Definition surfaceUser (id : Z) (role : v1pb.Role) (email nickname : string) : v1pb.User :=
  {| v1pb.Id := id; v1pb.State_ := v1pb.ACTIVE;
     v1pb.CreatedTime := 1000; v1pb.UpdatedTime := 1000;
     v1pb.Role_ := role; v1pb.Email := email; v1pb.Nickname := nickname |}.

(** The provider of the session demo under another stored client secret. *)
Definition githubRotated : storepb.IdentityProvider :=
  {| storepb.Id := "github"; storepb.Title := "GitHub";
     storepb.Type_ := storepb.OAUTH2;
     storepb.Config := Some
       {| storepb.ClientId := "test-client-id";
          storepb.ClientSecret := "rotated-client-secret";
          storepb.AuthUrl := "https://example.com/authorize";
          storepb.TokenUrl := "https://example.com/token";
          storepb.UserInfoUrl := "https://example.com/api/user";
          storepb.Scopes := ["user"];
          storepb.FieldMapping_ := Some
            {| storepb.fmIdentifier := "email";
               storepb.fmDisplayName := "name" |} |} |}.

Definition withProvider (i : storepb.IdentityProvider) : World :=
  {| db := {| store.users := [demo.steven; member 2 "ann@example.com"];
              store.userSeq := 2; store.accessTokens := ∅;
              store.workspaceSettings :=
                [ storepb.WORKSPACE_SETTING_IDENTITY_PROVIDER [i] ] |};
     header := [] |}.

Definition asAnn : Ctx := {| ctxUserID := Some 2; ctxNow := 1000 |}.

Definition secretsSeen (ctx : Ctx) (w : World) : Outcome (list (option string)) :=
  match fst (GetWorkspaceSetting ctx w) with
  | Ok ws => Ok (secretsOf (v1pb.IdentityProviders ws))
  | Fail c msg => Fail c msg
  | Panic => Panic
  end.

(** * More of the handlers *)

(** ** store/db/postgres: updating, listing and deleting users *)

Module postgres.

(** [store.UpdateUser], by the fields the driver reads: the id of the row
    and, each optional, the columns to set. *)
Record UpdateUserFields := {
  ID : Z;
  RowStatus : option storepb.RowStatus;
  Email : option string;
  Nickname : option string;
  PasswordHash : option string;
  Role_ : option store.Role;
}.

(** [store.FindUser] with all the filters the driver reads. *)
Record FindUser := {
  findID : option Z;
  findRowStatus : option storepb.RowStatus;
  findEmail : option string;
  findNickname : option string;
  findRole : option store.Role;
}.

(** A value bound to a placeholder. *)
Inductive Arg :=
| ArgInt (n : Z)
| ArgText (s : string)
| ArgRole (r : store.Role).

(** [RowStatus.String()]. *)
Definition rowStatusString (v : storepb.RowStatus) : string :=
  match v with
  | storepb.NORMAL => "NORMAL"
  | storepb.ARCHIVED => "ARCHIVED"
  end.

Section Statements.
(** [placeholder] is missing: it names the n-th parameter of a statement. *)
Variable placeholder : nat → string.

(** One [if v := ...; v != nil] step of the two builders: the clause takes
    the placeholder after the arguments collected so far. *)
Definition addClause {A} (v : option A) (column : string) (arg : A → Arg)
    (acc : list string * list Arg) : list string * list Arg :=
  match v with
  | Some x =>
      (acc.1 ++ [column +:+ " = " +:+ placeholder (length acc.2 + 1)],
       acc.2 ++ [arg x])
  | None => acc
  end.

(** Lines 43-58: the SET list and its arguments. *)
Definition updateClauses (update : UpdateUserFields) : list string * list Arg :=
  addClause (Role_ update) "role" ArgRole
    (addClause (PasswordHash update) "password_hash" ArgText
       (addClause (Nickname update) "nickname" ArgText
          (addClause (Email update) "email" ArgText
             (addClause (RowStatus update) "row_status"
                (λ v, ArgText (rowStatusString v)) ([], []))))).

(** The UPDATE statement by its parts: the SET list (joined by commas), the
    placeholder of [WHERE id =], and the arguments, the id last. *)
Record UpdateStatement := {
  setList : list string;
  whereID : string;
  updateArgs : list Arg;
}.

(** Lines 43-69 of [UpdateUser]: no statement without a field to set. *)
Definition updateStatement (update : UpdateUserFields) : Res UpdateStatement :=
  let '(set, args) := updateClauses update in
  if (length set =? 0)%nat then Error "no fields to update"
  else Val {| setList := set;
              whereID := placeholder (length args + 1);
              updateArgs := args ++ [ArgInt (ID update)] |}.

(** Lines 90-106 of [ListUsers]: the WHERE list, which starts with the
    always-true clause, and its arguments. *)
Definition whereClauses (find : FindUser) : list string * list Arg :=
  addClause (findRole find) "role" ArgRole
    (addClause (findNickname find) "nickname" ArgText
       (addClause (findEmail find) "email" ArgText
          (addClause (findRowStatus find) "row_status"
             (λ v, ArgText (rowStatusString v))
             (addClause (findID find) "id" ArgInt (["1 = 1"], []))))).

End Statements.

(** What the SET list does to a row. *)
Definition setFields (update : UpdateUserFields) (u : store.User) : store.User :=
  {| store.ID := store.ID u;
     store.CreatedTs := store.CreatedTs u;
     store.UpdatedTs := store.UpdatedTs u;
     store.RowStatus := default (store.RowStatus u) (RowStatus update);
     store.Email := default (store.Email u) (Email update);
     store.Nickname := default (store.Nickname u) (Nickname update);
     store.PasswordHash := default (store.PasswordHash u) (PasswordHash update);
     store.Role_ := default (store.Role_ u) (Role_ update) |}.

Definition hasID (id : Z) (u : store.User) : bool := (store.ID u =? id)%Z.

(** The new email, if any, belongs to another row. *)
Definition emailTaken (update : UpdateUserFields) (l : list store.User) : bool :=
  match Email update with
  | Some e =>
      existsb (λ u, negb (hasID (ID update) u) && String.eqb (store.Email u) e) l
  | None => false
  end.

(** [DB.UpdateUser]: without a field to set it fails before any query;
    otherwise the UPDATE sets the fields of the row with the id and returns
    it.  No row with the id makes the scan of the returned row fail.
    Modelled from the spec: the schema is missing; email is unique, so the
    UPDATE to a taken email fails. *)
Definition UpdateUser (d : store.DB) (update : UpdateUserFields)
    : Res store.User * store.DB :=
  match updateStatement (λ _, EmptyString) update with
  | Error e => (Error e, d)
  | Val _ =>
      match List.find (hasID (ID update)) (store.users d) with
      | None => (Error "sql: no rows in result set", d)
      | Some u =>
          if emailTaken update (store.users d) then
            (Error "duplicate key value violates unique constraint", d)
          else
            (Val (setFields update u),
             {| store.users :=
                  (λ r, if hasID (ID update) r then setFields update r else r)
                    <$> store.users d;
                store.userSeq := store.userSeq d;
                store.accessTokens := store.accessTokens d;
                store.workspaceSettings := store.workspaceSettings d |})
      end
  end.

(** [DB.DeleteUser]: the DELETE removes the rows with the id; deleting
    nothing is no error. *)
Definition DeleteUser (d : store.DB) (id : Z) : store.DB :=
  {| store.users := List.filter (λ u, negb (hasID id u)) (store.users d);
     store.userSeq := store.userSeq d;
     store.accessTokens := store.accessTokens d;
     store.workspaceSettings := store.workspaceSettings d |}.

End postgres.

(** ** user_service.go: the user handlers *)

(** [v1pb.UpdateUserRequest]: the user message (a pointer) with the fields
    the handler reads, and the update mask (a pointer to its paths). *)
Record UserInput := {
  inputId : Z;
  inputEmail : string;
  inputNickname : string;
}.

Record UpdateUserRequest := {
  requestUser : option UserInput;
  requestUpdateMask : option (list string);
}.

Section Users.
Local Open Scope handler_scope.

Definition ListUsers : M (list v1pb.User) :=
  do users <- query (λ d, store.ListUsers d store.findAll);
  ret (convertUserFromStore <$> users).

Definition GetUser (requestId : Z) : M v1pb.User :=
  do user <- query (λ d, store.GetUser d (byID requestId));
  match user with
  | None => fail NotFound "user not found"
  | Some user => ret (convertUserFromStore user)
  end.

(** auth_service.go, [GetAuthStatus]. *)
Definition GetAuthStatus (ctx : Ctx) : M v1pb.User :=
  do user <- getCurrentUser ctx;
  match user with
  | None => fail Unauthenticated "user not found"
  | Some user => ret (convertUserFromStore user)
  end.

(** The loop over the mask's paths (lines 371-377): the two paths it
    knows set a field, any other path is passed over. *)
Definition maskStep (input : UserInput) (userUpdate : postgres.UpdateUserFields)
    (path : string) : postgres.UpdateUserFields :=
  if String.eqb path "email" then
    {| postgres.ID := postgres.ID userUpdate;
       postgres.RowStatus := postgres.RowStatus userUpdate;
       postgres.Email := Some (inputEmail input);
       postgres.Nickname := postgres.Nickname userUpdate;
       postgres.PasswordHash := postgres.PasswordHash userUpdate;
       postgres.Role_ := postgres.Role_ userUpdate |}
  else if String.eqb path "nickname" then
    {| postgres.ID := postgres.ID userUpdate;
       postgres.RowStatus := postgres.RowStatus userUpdate;
       postgres.Email := postgres.Email userUpdate;
       postgres.Nickname := Some (inputNickname input);
       postgres.PasswordHash := postgres.PasswordHash userUpdate;
       postgres.Role_ := postgres.Role_ userUpdate |}
  else userUpdate.

Definition userUpdateOf (input : UserInput) (paths : list string) : postgres.UpdateUserFields :=
  fold_left (maskStep input) paths
    {| postgres.ID := inputId input; postgres.RowStatus := None;
       postgres.Email := None; postgres.Nickname := None;
       postgres.PasswordHash := None; postgres.Role_ := None |}.

Definition UpdateUser (ctx : Ctx) (request : UpdateUserRequest) : M v1pb.User :=
  do user <- getCurrentUser ctx;
  match user, requestUser request with
  | Some user, Some input =>
      if negb (store.ID user =? inputId input)%Z then
        fail PermissionDenied "Permission denied"
      else
        match requestUpdateMask request with
        | None | Some [] => fail InvalidArgument "UpdateMask is empty"
        | Some paths =>
            do r <- exec (λ d, postgres.UpdateUser d (userUpdateOf input paths));
            match r with
            | Error e => fail Internal ("failed to update user: " +:+ e)
            | Val user => ret (convertUserFromStore user)
            end
        end
  | _, _ => panic                         (* user.ID, request.User.Id *)
  end.

Definition DeleteUser (ctx : Ctx) (requestId : Z) : M unit :=
  do user <- getCurrentUser ctx;
  match user with
  | None => panic                         (* user.ID *)
  | Some user =>
      if (store.ID user =? requestId)%Z then
        fail InvalidArgument "cannot delete yourself"
      else
        exec (λ d, (tt, postgres.DeleteUser d requestId))
  end.

End Users.

(** ** The vocabulary of the further properties *)

Section MoreVocabulary.
Variable placeholder : nat → string.

(** The clauses from position [base] on take the placeholders 1, 2, ... in
    order, one argument each. *)
Definition aligned (base : nat) (acc : list string * list postgres.Arg) : Prop :=
  length acc.1 = (base + length acc.2)%nat ∧
  ∀ k clause, acc.1 !! (base + k)%nat = Some clause →
    ∃ column, clause = column +:+ " = " +:+ placeholder (k + 1).

End MoreVocabulary.

(** What the user handlers below never change in a row: its id, role,
    password hash, status and timestamps. *)
Definition protectedOf (u : store.User)
    : Z * store.Role * string * storepb.RowStatus * Z * Z :=
  (store.ID u, store.Role_ u, store.PasswordHash u, store.RowStatus u,
   store.CreatedTs u, store.UpdatedTs u).

(** Two databases agree outside the user table. *)
Definition sameButUsers (d d' : store.DB) : Prop :=
  store.userSeq d' = store.userSeq d ∧
  store.accessTokens d' = store.accessTokens d ∧
  store.workspaceSettings d' = store.workspaceSettings d.

(** The placeholders of the postgres driver, for the runs below. *)
Definition dollar (n : nat) : string := "$" +:+ pretty n.


(** ** More inputs of the demo world *)

(** Steven (Admin, id 1) and Ann (User, id 2). *)
Definition twoUsers : World := withUsers [demo.steven; member 2 "ann@example.com"] false.

(** Ann asks for a new email and nickname under the given mask. *)
Definition annRequest (paths : list string) : UpdateUserRequest :=
  {| requestUser := Some {| inputId := 2; inputEmail := "ann@slash.example";
                            inputNickname := "Ann" |};
     requestUpdateMask := Some paths |}.

Definition emailAndNickname : postgres.UpdateUserFields :=
  {| postgres.ID := 7; postgres.RowStatus := None;
     postgres.Email := Some "ann@example.com";
     postgres.Nickname := Some "ann"; postgres.PasswordHash := None;
     postgres.Role_ := None |}.

(** ** The vocabulary of sessions *)

Section SessionVocabulary.
Context `{Externals} (s : APIV1Service).

(** The token [doSignIn] asks for: for the user, issued now, for the
    duration of a session. *)
Definition sessionToken (ctx : Ctx) (user : store.User) : Res string :=
  GenerateAccessToken (ctxNow ctx) (store.Email user) (store.ID user)
    (Some (ctxNow ctx + AccessTokenDuration)) (Secret s).

(** The value of the Set-Cookie header of a session on a token. *)
Definition sessionCookie (ctx : Ctx) (accessToken : string) : string :=
  AccessTokenCookieName +:+ "=" +:+ accessToken +:+ "; Path=/; Expires=" +:+
  FormatRFC1123 (ctxNow ctx + AccessTokenDuration) +:+
  "; HttpOnly; SameSite=Strict".

(** The world once a session is open: the token is the last record of the
    user's list, under the description "user login", and the same token
    goes out in the cookie. *)
Definition withSession (ctx : Ctx) (user : store.User) (accessToken : string)
    (w : World) : World :=
  {| db := store.UpsertUserSetting (db w) (store.ID user)
             (store.GetUserAccessTokens (db w) (store.ID user) ++
              [{| storepb.AccessToken_ := accessToken;
                  storepb.Description := "user login" |}]);
     header := header w ++ [("Set-Cookie", sessionCookie ctx accessToken)] |}.

(** Password authentication is open to the user: it is allowed, or the
    user is an administrator. *)
Definition mayUsePassword (d : store.DB) (user : store.User) : Prop :=
  storepb.DisallowPasswordAuth (store.GetWorkspaceSecuritySetting d) = false ∨
  store.Role_ user = store.RoleAdmin.

(** The row the INSERT of a new user returns. *)
Definition insertedUser (now : Z) (d : store.DB) (email nickname passwordHash : string)
    (role : store.Role) : store.User :=
  {| store.ID := store.userSeq d + 1; store.CreatedTs := now;
     store.UpdatedTs := now; store.RowStatus := storepb.NORMAL;
     store.Email := email; store.Nickname := nickname;
     store.PasswordHash := passwordHash; store.Role_ := role |}.

(** The world with that row appended. *)
Definition withUser (user : store.User) (w : World) : World :=
  {| db := {| store.users := store.users (db w) ++ [user];
              store.userSeq := store.userSeq (db w) + 1;
              store.accessTokens := store.accessTokens (db w);
              store.workspaceSettings := store.workspaceSettings (db w) |};
     header := header w |}.

(** The identity provider vouches for the user info at this request. *)
Definition vouches (idpId code redirectUri : string) (userInfo : IdentityProviderUserInfo)
    (w : World) : Prop :=
  IsFeatureEnabled s FeatureTypeSSO = true ∧
  ∃ identityProviders identityProvider,
    store.GetIdentityProviderSetting (db w) = Some identityProviders ∧
    findIdentityProvider idpId identityProviders = Some identityProvider ∧
    fetchUserInfo identityProvider redirectUri code w = (Ok (Some userInfo), w) ∧
    ValidateEmail (Identifier userInfo) = true.

End SessionVocabulary.

(** A world whose signer refuses every key. *)
Definition brokenSigner : Externals :=
  {| GenerateFromPassword := @GenerateFromPassword demo.world;
     CompareHashAndPassword := @CompareHashAndPassword demo.world;
     jwtDecode := @jwtDecode demo.world;
     jwtVerify := @jwtVerify demo.world;
     jwtSignedString := λ _ _ _, Error "key is of invalid type";
     ValidateEmail := @ValidateEmail demo.world;
     RandomString := @RandomString demo.world;
     ExchangeToken := @ExchangeToken demo.world;
     UserInfo := @UserInfo demo.world;
     FormatRFC1123 := @FormatRFC1123 demo.world;
     AccessTokenCookieName := @AccessTokenCookieName demo.world;
     AccessTokenDuration := @AccessTokenDuration demo.world |}.

(** Ann, archived. *)
Definition archivedAnn : store.User :=
  {| store.ID := 2; store.CreatedTs := 1; store.UpdatedTs := 1;
     store.RowStatus := storepb.ARCHIVED; store.Email := "ann@example.com";
     store.Nickname := "ann@example.com"; store.PasswordHash := "bcrypt:correct horse";
     store.Role_ := store.RoleUser |}.

(** John, whom the provider of the demo world vouches for, as a user. *)
Definition johnInfo : IdentityProviderUserInfo :=
  {| Identifier := "john.doe@example.com"; DisplayName := "John Doe" |}.

Definition callback : string := "https://slash.example.com/auth/callback".

Definition withJohn : World :=
  withUsers [demo.steven; member 2 "john.doe@example.com"] false.

(** ** workspace_service.go: updating the workspace setting *)

(** The store calls on workspace settings that the update uses. *)
Module workspace_setting.

Definition generalOf (v : storepb.WorkspaceSetting) : option storepb.GeneralSetting :=
  match v with storepb.WORKSPACE_SETTING_GENERAL g => Some g | _ => None end.

Definition shortcutRelatedOf (v : storepb.WorkspaceSetting) : option storepb.Visibility :=
  match v with storepb.WORKSPACE_SETTING_SHORTCUT_RELATED x => Some x | _ => None end.

(** Modelled from the spec: [Store.GetWorkspaceGeneralSetting] is missing;
    as for the security setting, the row, or empty values when the row does
    not exist. *)
Definition GetWorkspaceGeneralSetting (d : store.DB) : storepb.GeneralSetting :=
  default {| storepb.Branding := EmptyString; storepb.CustomStyle := EmptyString |}
          (head (omap generalOf (store.workspaceSettings d))).

(** [Store.GetWorkspaceSetting] with the key
    WORKSPACE_SETTING_SHORTCUT_RELATED: the row, or nil. *)
Definition GetShortcutRelatedSetting (d : store.DB) : option storepb.Visibility :=
  head (omap shortcutRelatedOf (store.workspaceSettings d)).

(** Two rows under the same one of the four keys the handlers write. *)
Definition sameKey (a b : storepb.WorkspaceSetting) : bool :=
  match a, b with
  | storepb.WORKSPACE_SETTING_GENERAL _, storepb.WORKSPACE_SETTING_GENERAL _
  | storepb.WORKSPACE_SETTING_SECURITY _, storepb.WORKSPACE_SETTING_SECURITY _
  | storepb.WORKSPACE_SETTING_SHORTCUT_RELATED _,
    storepb.WORKSPACE_SETTING_SHORTCUT_RELATED _
  | storepb.WORKSPACE_SETTING_IDENTITY_PROVIDER _,
    storepb.WORKSPACE_SETTING_IDENTITY_PROVIDER _ => true
  | _, _ => false
  end.

Fixpoint upsertRow (l : list storepb.WorkspaceSetting) (v : storepb.WorkspaceSetting)
    : list storepb.WorkspaceSetting :=
  match l with
  | [] => [v]
  | r :: rest => if sameKey r v then v :: rest else r :: upsertRow rest v
  end.

(** Modelled from the spec: [Store.UpsertWorkspaceSetting] is missing; the
    key is unique: the row of the key takes the new value, or is added
    when there is none. *)
Definition UpsertWorkspaceSetting (d : store.DB) (v : storepb.WorkspaceSetting)
    : store.DB :=
  {| store.users := store.users d; store.userSeq := store.userSeq d;
     store.accessTokens := store.accessTokens d;
     store.workspaceSettings := upsertRow (store.workspaceSettings d) v |}.

End workspace_setting.

(** The messages of a request, where the pointers the handler reads
    through may be nil: the field mapping of a configuration, and the
    setting and the mask of the request. *)
Module v1in.

Record OAuth2Config := {
  ClientId : string;
  ClientSecret : string;
  AuthUrl : string;
  TokenUrl : string;
  UserInfoUrl : string;
  Scopes : list string;
  FieldMapping_ : option v1pb.FieldMapping;
}.

Record IdentityProvider := {
  IdpId : string;
  Title : string;
  Type_ : storepb.IdentityProvider_Type;
  Config : option OAuth2Config;
}.

Record WorkspaceSetting := {
  Branding : string;
  CustomStyle : string;
  DefaultVisibility : storepb.Visibility;
  IdentityProviders : list IdentityProvider;
  DisallowUserRegistration : bool;
  DisallowPasswordAuth : bool;
}.

Record UpdateWorkspaceSettingRequest := {
  Setting : option WorkspaceSetting;
  UpdateMask : option (list string);
}.

End v1in.

Section WorkspaceUpdate.

(** [oauth2Config.FieldMapping.Identifier] reads through the mapping
    pointer without a guard, here as well. *)
Definition convertIdentityProviderConfigToStore
    (identityProviderConfig : option v1in.OAuth2Config)
    : Outcome (option storepb.OAuth2Config) :=
  match identityProviderConfig with
  | Some oauth2Config =>
      match v1in.FieldMapping_ oauth2Config with
      | None => Panic
      | Some fieldMapping =>
          Ok (Some
            {| storepb.ClientId := v1in.ClientId oauth2Config;
               storepb.ClientSecret := v1in.ClientSecret oauth2Config;
               storepb.AuthUrl := v1in.AuthUrl oauth2Config;
               storepb.TokenUrl := v1in.TokenUrl oauth2Config;
               storepb.UserInfoUrl := v1in.UserInfoUrl oauth2Config;
               storepb.Scopes := v1in.Scopes oauth2Config;
               storepb.FieldMapping_ := Some
                 {| storepb.fmIdentifier := v1pb.fmIdentifier fieldMapping;
                    storepb.fmDisplayName := v1pb.fmDisplayName fieldMapping |} |})
      end
  | None => Ok None
  end.

Definition convertIdentityProviderToStore (identityProvider : v1in.IdentityProvider)
    : Outcome storepb.IdentityProvider :=
  match convertIdentityProviderConfigToStore (v1in.Config identityProvider) with
  | Ok config =>
      Ok {| storepb.Id := v1in.IdpId identityProvider;
            storepb.Title := v1in.Title identityProvider;
            storepb.Type_ := v1in.Type_ identityProvider;
            storepb.Config := config |}
  | Fail c msg => Fail c msg
  | Panic => Panic
  end.

(** The loop of lines 143-145 over the providers of the request. *)
Fixpoint convertIdentityProvidersToStore (l : list v1in.IdentityProvider)
    (identityProviders : list storepb.IdentityProvider)
    : Outcome (list storepb.IdentityProvider) :=
  match l with
  | [] => Ok identityProviders
  | identityProvider :: rest =>
      match convertIdentityProviderToStore identityProvider with
      | Ok converted =>
          convertIdentityProvidersToStore rest (identityProviders ++ [converted])
      | Fail c msg => Fail c msg
      | Panic => Panic
      end
  end.

Definition upsert (v : storepb.WorkspaceSetting) : M unit :=
  exec (λ d, (tt, workspace_setting.UpsertWorkspaceSetting d v)).

(** One turn of the loop over the paths of the mask (lines 88-185).  Every
    known path reads through [request.Setting]. *)
Definition applyPath (setting : option v1in.WorkspaceSetting) (path : string) : M unit :=
  if String.eqb path "branding" then
    do generalSetting <- query workspace_setting.GetWorkspaceGeneralSetting;
    match setting with
    | None => panic
    | Some setting =>
        upsert (storepb.WORKSPACE_SETTING_GENERAL
                  {| storepb.Branding := v1in.Branding setting;
                     storepb.CustomStyle := storepb.CustomStyle generalSetting |})
    end
  else if String.eqb path "custom_style" then
    do generalSetting <- query workspace_setting.GetWorkspaceGeneralSetting;
    match setting with
    | None => panic
    | Some setting =>
        upsert (storepb.WORKSPACE_SETTING_GENERAL
                  {| storepb.Branding := storepb.Branding generalSetting;
                     storepb.CustomStyle := v1in.CustomStyle setting |})
    end
  else if String.eqb path "default_visibility" then
    match setting with
    | None => panic
    | Some setting =>
        upsert (storepb.WORKSPACE_SETTING_SHORTCUT_RELATED
                  (v1in.DefaultVisibility setting))
    end
  else if String.eqb path "identity_providers" then
    match setting with
    | None => panic
    | Some setting =>
        match convertIdentityProvidersToStore (v1in.IdentityProviders setting) [] with
        | Ok identityProviders =>
            upsert (storepb.WORKSPACE_SETTING_IDENTITY_PROVIDER identityProviders)
        | Fail c msg => fail c msg
        | Panic => panic
        end
    end
  else if String.eqb path "disallow_user_registration" then
    do securitySetting <- query store.GetWorkspaceSecuritySetting;
    match setting with
    | None => panic
    | Some setting =>
        upsert (storepb.WORKSPACE_SETTING_SECURITY
                  {| storepb.DisallowUserRegistration :=
                       v1in.DisallowUserRegistration setting;
                     storepb.DisallowPasswordAuth :=
                       storepb.DisallowPasswordAuth securitySetting |})
    end
  else if String.eqb path "disallow_password_auth" then
    do securitySetting <- query store.GetWorkspaceSecuritySetting;
    match setting with
    | None => panic
    | Some setting =>
        upsert (storepb.WORKSPACE_SETTING_SECURITY
                  {| storepb.DisallowUserRegistration :=
                       storepb.DisallowUserRegistration securitySetting;
                     storepb.DisallowPasswordAuth :=
                       v1in.DisallowPasswordAuth setting |})
    end
  else fail InvalidArgument ("invalid path: " +:+ path).

Fixpoint applyPaths (setting : option v1in.WorkspaceSetting) (paths : list string)
    : M unit :=
  match paths with
  | [] => ret tt
  | path :: rest => run applyPath setting path; applyPaths setting rest
  end.

(** The name of a code in the text of a status error. *)
Definition codeName (c : Code) : string :=
  match c with
  | Internal => "Internal"
  | InvalidArgument => "InvalidArgument"
  | PermissionDenied => "PermissionDenied"
  | FailedPrecondition => "FailedPrecondition"
  | Unauthenticated => "Unauthenticated"
  | NotFound => "NotFound"
  end.

Definition UpdateWorkspaceSetting (ctx : Ctx)
    (request : v1in.UpdateWorkspaceSettingRequest) : M v1pb.WorkspaceSetting :=
  match v1in.UpdateMask request with
  | None | Some [] => fail InvalidArgument "update mask is empty"
  | Some paths =>
      run applyPaths (v1in.Setting request) paths;
      λ w, match GetWorkspaceSetting ctx w with
           | (Fail c msg, w') =>
               (Fail Internal
                  ("failed to get workspace setting: rpc error: code = " +:+
                   codeName c +:+ " desc = " +:+ msg), w')
           | r => r
           end
  end.

End WorkspaceUpdate.

(** ** The vocabulary of the workspace setting *)

(** The paths UpdateWorkspaceSetting knows. *)
Definition knownPaths : list string :=
  ["branding"; "custom_style"; "default_visibility"; "identity_providers";
   "disallow_user_registration"; "disallow_password_auth"].

(** The value a setting has after an update: the requested one when the
    mask names its path, the one it had otherwise. *)
Definition named {A} (paths : list string) (path : string) (requested before : A) : A :=
  if bool_decide (path ∈ paths) then requested else before.

(** The six settings of the second database are those of the first with
    the named ones replaced by the values of the request. *)
Definition written (setting : v1in.WorkspaceSetting) (paths : list string)
    (d d' : store.DB) : Prop :=
  storepb.Branding (workspace_setting.GetWorkspaceGeneralSetting d') =
    named paths "branding" (v1in.Branding setting)
      (storepb.Branding (workspace_setting.GetWorkspaceGeneralSetting d)) ∧
  storepb.CustomStyle (workspace_setting.GetWorkspaceGeneralSetting d') =
    named paths "custom_style" (v1in.CustomStyle setting)
      (storepb.CustomStyle (workspace_setting.GetWorkspaceGeneralSetting d)) ∧
  workspace_setting.GetShortcutRelatedSetting d' =
    named paths "default_visibility" (Some (v1in.DefaultVisibility setting))
      (workspace_setting.GetShortcutRelatedSetting d) ∧
  (∀ identityProviders,
     convertIdentityProvidersToStore (v1in.IdentityProviders setting) [] =
       Ok identityProviders →
     store.GetIdentityProviderSetting d' =
       named paths "identity_providers" (Some identityProviders)
         (store.GetIdentityProviderSetting d)) ∧
  ("identity_providers" ∉ paths →
     store.GetIdentityProviderSetting d' = store.GetIdentityProviderSetting d) ∧
  storepb.DisallowUserRegistration (store.GetWorkspaceSecuritySetting d') =
    named paths "disallow_user_registration" (v1in.DisallowUserRegistration setting)
      (storepb.DisallowUserRegistration (store.GetWorkspaceSecuritySetting d)) ∧
  storepb.DisallowPasswordAuth (store.GetWorkspaceSecuritySetting d') =
    named paths "disallow_password_auth" (v1in.DisallowPasswordAuth setting)
      (storepb.DisallowPasswordAuth (store.GetWorkspaceSecuritySetting d)).

(** Two databases agree outside the workspace settings. *)
Definition sameButSettings (d d' : store.DB) : Prop :=
  store.users d' = store.users d ∧ store.userSeq d' = store.userSeq d ∧
  store.accessTokens d' = store.accessTokens d.

(** A message of a response, sent back in a request. *)
Definition sentBack (i : v1pb.IdentityProvider) : v1in.IdentityProvider :=
  {| v1in.IdpId := v1pb.IdpId i; v1in.Title := v1pb.Title i;
     v1in.Type_ := v1pb.Type_ i;
     v1in.Config :=
       (λ c, {| v1in.ClientId := v1pb.ClientId c;
                v1in.ClientSecret := v1pb.ClientSecret c;
                v1in.AuthUrl := v1pb.AuthUrl c;
                v1in.TokenUrl := v1pb.TokenUrl c;
                v1in.UserInfoUrl := v1pb.UserInfoUrl c;
                v1in.Scopes := v1pb.Scopes c;
                v1in.FieldMapping_ := Some (v1pb.FieldMapping_ c) |})
       <$> v1pb.Config i |}.

Definition settingSentBack (ws : v1pb.WorkspaceSetting) : v1in.WorkspaceSetting :=
  {| v1in.Branding := v1pb.Branding ws;
     v1in.CustomStyle := v1pb.CustomStyle ws;
     v1in.DefaultVisibility := v1pb.DefaultVisibility ws;
     v1in.IdentityProviders := sentBack <$> v1pb.IdentityProviders ws;
     v1in.DisallowUserRegistration := v1pb.DisallowUserRegistration ws;
     v1in.DisallowPasswordAuth := v1pb.DisallowPasswordAuth ws |}.

(** Every OAuth2 configuration of the request has its field mapping. *)
Definition mappedIn (l : list v1in.IdentityProvider) : Prop :=
  ∀ i c, i ∈ l → v1in.Config i = Some c → is_Some (v1in.FieldMapping_ c).

(** A request setting that renames the workspace and closes registration
    and password authentication. *)
Definition lockedDown : v1in.WorkspaceSetting :=
  {| v1in.Branding := "Slash"; v1in.CustomStyle := EmptyString;
     v1in.DefaultVisibility := storepb.WORKSPACE;
     v1in.IdentityProviders := [];
     v1in.DisallowUserRegistration := true;
     v1in.DisallowPasswordAuth := true |}.

Definition lockDown (paths : list string) : v1in.UpdateWorkspaceSettingRequest :=
  {| v1in.Setting := Some lockedDown; v1in.UpdateMask := Some paths |}.

(** ** The vocabulary of the user reads *)

(** A stored user with the password hash left out. *)
Definition withoutHash (u : store.User) : store.User :=
  {| store.ID := store.ID u; store.CreatedTs := store.CreatedTs u;
     store.UpdatedTs := store.UpdatedTs u; store.RowStatus := store.RowStatus u;
     store.Email := store.Email u; store.Nickname := store.Nickname u;
     store.PasswordHash := EmptyString; store.Role_ := store.Role_ u |}.

(** Two databases hold the same users up to their password hashes. *)
Definition sameButHashes (d1 d2 : store.DB) : Prop :=
  withoutHash <$> store.users d1 = withoutHash <$> store.users d2.

(** The demo users under other password hashes. *)
Definition rehashed : World :=
  withUsers [withoutHash demo.steven; withoutHash (member 2 "ann@example.com")] false.

(** ** workspace_service.go: the instance owner and the workspace profile *)

(** [profile.Profile], by the fields the handler reads. *)
Record Profile := {
  Mode : string;
  Version : string;
}.

(** [v1pb.WorkspaceProfile], for a subscription message of any type. *)
Record WorkspaceProfile (Subscription : Type) := {
  profileMode : string;
  profileVersion : string;
  profileSubscription : Subscription;
  profileOwner : string;
  profileBranding : string;
}.
Arguments profileMode {Subscription} _.
Arguments profileVersion {Subscription} _.
Arguments profileSubscription {Subscription} _.
Arguments profileOwner {Subscription} _.
Arguments profileBranding {Subscription} _.

Definition byRole (role : store.Role) : store.FindUser :=
  {| store.findID := None; store.findEmail := None; store.findRole := Some role |}.

Section InstanceOwner.

(** The rows of the driver's SELECT come in the order of its ORDER BY
    (updated_ts DESC, created_ts DESC); which of two rows with the same
    stamps comes first is up to the database. *)
Variable orderBy : list store.User → list store.User.

(** [UserNamePrefix] is missing: the prefix of a user's resource name. *)
Variable UserNamePrefix : string.

(** [s.Profile] and [s.LicenseService.GetSubscription()]. *)
Variable serverProfile : Profile.
Variable Subscription : Type.
Variable GetSubscription : Subscription.

(** Modelled from the spec: [Store.GetUser] is missing; it returns the
    user matching the filter, or nil: here the first of the rows as the
    driver orders them. *)
Definition firstUser (d : store.DB) (find : store.FindUser) : option store.User :=
  head (orderBy (store.ListUsers d find)).

(** [GetInstanceOwner] on the package variable [ownerCache], which is
    passed in and handed back: a cached owner is returned without a look
    at the database; an owner that is found is cached; nil is not. *)
Definition GetInstanceOwner (ownerCache : option v1pb.User) (d : store.DB)
    : option v1pb.User * option v1pb.User :=
  match ownerCache with
  | Some owner => (Some owner, ownerCache)
  | None =>
      match firstUser d (byRole store.RoleAdmin) with
      | None => (None, ownerCache)
      | Some user =>
          (Some (convertUserFromStore user), Some (convertUserFromStore user))
      end
  end.

Definition GetWorkspaceProfile (ownerCache : option v1pb.User) (d : store.DB)
    : WorkspaceProfile Subscription * option v1pb.User :=
  let '(owner, ownerCache) := GetInstanceOwner ownerCache d in
  ({| profileMode := Mode serverProfile;
      profileVersion := Version serverProfile;
      profileSubscription := GetSubscription;
      profileOwner :=
        match owner with
        | Some owner => UserNamePrefix +:+ pretty (v1pb.Id owner)
        | None => EmptyString
        end;
      profileBranding :=
        storepb.Branding (workspace_setting.GetWorkspaceGeneralSetting d) |},
   ownerCache).

End InstanceOwner.

(** ** collection_service.go: the collection handlers *)

Module collection.

(** [storepb.Collection]. *)
Record Stored := {
  Id : Z;
  CreatorId : Z;
  CreatedTs : Z;
  UpdatedTs : Z;
  Name : string;
  Title : string;
  Description : string;
  ShortcutIds : list Z;
  Visibility : storepb.Visibility;
}.

(** [v1pb.Collection], the times in seconds.  (The conversion between the
    visibility enums of the two packages is missing and carried over.) *)
Record Message := {
  mId : Z;
  mCreatorId : Z;
  mCreatedTime : Z;
  mUpdatedTime : Z;
  mName : string;
  mTitle : string;
  mDescription : string;
  mShortcutIds : list Z;
  mVisibility : storepb.Visibility;
}.

(** [store.FindCollection], by the filters the handlers set. *)
Record Find := {
  findID : option Z;
  findName : option string;
}.

(** [store.UpdateCollection]; a nil slice of shortcut ids is the empty
    list. *)
Record Update := {
  uID : Z;
  uName : option string;
  uTitle : option string;
  uDescription : option string;
  uShortcutIDs : list Z;
  uVisibility : option storepb.Visibility;
}.

(** The collection calls of [store.Store], none of which is in the
    repository's sources here: an interface over the state they keep.  The
    handlers forward the error of a write as [codes.Internal]. *)
Class Store := {
  State : Type;
  ListCollections : State → list Stored;
  GetCollection : State → Find → option Stored;
  CreateCollection : State → Stored → Res Stored * State;
  UpdateCollection : State → Update → Res Stored * State;
  DeleteCollection : State → Z → Res unit * State;
}.

End collection.

Section Collections.
Context `{collection.Store} (s : APIV1Service).

(** [GetSubscription().CollectionsLimit], as an int. *)
Variable collectionsLimit : Z.

Definition convertCollectionFromStore (c : collection.Stored) : collection.Message :=
  {| collection.mId := collection.Id c;
     collection.mCreatorId := collection.CreatorId c;
     collection.mCreatedTime := collection.CreatedTs c;
     collection.mUpdatedTime := collection.UpdatedTs c;
     collection.mName := collection.Name c;
     collection.mTitle := collection.Title c;
     collection.mDescription := collection.Description c;
     collection.mShortcutIds := collection.ShortcutIds c;
     collection.mVisibility := collection.Visibility c |}.

Definition collectionByID (id : Z) : collection.Find :=
  {| collection.findID := Some id; collection.findName := None |}.

Definition collectionByName (name : string) : collection.Find :=
  {| collection.findID := None; collection.findName := Some name |}.

Definition ListCollections (st : collection.State) : Outcome (list collection.Message) :=
  Ok (convertCollectionFromStore <$> collection.ListCollections st).

(** Lines 42-53, shared by GetCollection and GetCollectionByName. *)
Definition showCollection (ctx : Ctx) (w : World) (found : option collection.Stored)
    : Outcome collection.Message :=
  match found with
  | None => Fail NotFound "collection not found"
  | Some c =>
      match callerOf ctx (db w), collection.Visibility c with
      | Some _, _ | None, storepb.PUBLIC => Ok (convertCollectionFromStore c)
      | None, _ => Fail PermissionDenied "Permission denied"
      end
  end.

Definition GetCollection (ctx : Ctx) (requestId : Z) (w : World)
    (st : collection.State) : Outcome collection.Message :=
  showCollection ctx w (collection.GetCollection st (collectionByID requestId)).

Definition GetCollectionByName (ctx : Ctx) (requestName : string) (w : World)
    (st : collection.State) : Outcome collection.Message :=
  showCollection ctx w (collection.GetCollection st (collectionByName requestName)).

(** The record handed to the store: the creator is the caller. *)
Definition collectionCreate (user : store.User) (c : collection.Message)
    : collection.Stored :=
  {| collection.Id := 0; collection.CreatorId := store.ID user;
     collection.CreatedTs := 0; collection.UpdatedTs := 0;
     collection.Name := collection.mName c;
     collection.Title := collection.mTitle c;
     collection.Description := collection.mDescription c;
     collection.ShortcutIds := collection.mShortcutIds c;
     collection.Visibility := collection.mVisibility c |}.

Definition CreateCollection (ctx : Ctx) (requestCollection : option collection.Message)
    (w : World) (st : collection.State) : Outcome collection.Message * collection.State :=
  match requestCollection with
  | None => (Panic, st)                       (* request.Collection.Name *)
  | Some c =>
      if String.eqb (collection.mName c) EmptyString
         || String.eqb (collection.mTitle c) EmptyString then
        (Fail InvalidArgument "name and title are required", st)
      else if negb (IsFeatureEnabled s FeatureTypeUnlimitedCollections)
              && (Z.of_nat (length (collection.ListCollections st)) >=? collectionsLimit)
      then
        (Fail PermissionDenied
           ("Maximum number of collections " +:+ pretty collectionsLimit +:+ " reached"),
         st)
      else
        match callerOf ctx (db w) with
        | None => (Panic, st)                 (* user.ID *)
        | Some user =>
            match collection.CreateCollection st (collectionCreate user c) with
            | (Error e, st') =>
                (Fail Internal ("failed to create collection, err: " +:+ e), st')
            | (Val created, st') => (Ok (convertCollectionFromStore created), st')
            end
        end
  end.

(** [collection.CreatorId != user.ID && user.Role != store.RoleAdmin]. *)
Definition notCreatorNorAdmin (c : collection.Stored) (user : store.User) : bool :=
  negb (collection.CreatorId c =? store.ID user)%Z
  && negb (bool_decide (store.Role_ user = store.RoleAdmin)).

(** The switch over the paths of the mask (lines 138-152); an unknown path
    is passed over. *)
Definition collectionMaskStep (c : collection.Message) (update : collection.Update)
    (path : string) : collection.Update :=
  if String.eqb path "name" then
    {| collection.uID := collection.uID update;
       collection.uName := Some (collection.mName c);
       collection.uTitle := collection.uTitle update;
       collection.uDescription := collection.uDescription update;
       collection.uShortcutIDs := collection.uShortcutIDs update;
       collection.uVisibility := collection.uVisibility update |}
  else if String.eqb path "title" then
    {| collection.uID := collection.uID update;
       collection.uName := collection.uName update;
       collection.uTitle := Some (collection.mTitle c);
       collection.uDescription := collection.uDescription update;
       collection.uShortcutIDs := collection.uShortcutIDs update;
       collection.uVisibility := collection.uVisibility update |}
  else if String.eqb path "description" then
    {| collection.uID := collection.uID update;
       collection.uName := collection.uName update;
       collection.uTitle := collection.uTitle update;
       collection.uDescription := Some (collection.mDescription c);
       collection.uShortcutIDs := collection.uShortcutIDs update;
       collection.uVisibility := collection.uVisibility update |}
  else if String.eqb path "shortcut_ids" then
    {| collection.uID := collection.uID update;
       collection.uName := collection.uName update;
       collection.uTitle := collection.uTitle update;
       collection.uDescription := collection.uDescription update;
       collection.uShortcutIDs := collection.mShortcutIds c;
       collection.uVisibility := collection.uVisibility update |}
  else if String.eqb path "visibility" then
    {| collection.uID := collection.uID update;
       collection.uName := collection.uName update;
       collection.uTitle := collection.uTitle update;
       collection.uDescription := collection.uDescription update;
       collection.uShortcutIDs := collection.uShortcutIDs update;
       collection.uVisibility := Some (collection.mVisibility c) |}
  else update.

Definition collectionUpdateOf (found : collection.Stored) (c : collection.Message)
    (paths : list string) : collection.Update :=
  fold_left (collectionMaskStep c) paths
    {| collection.uID := collection.Id found; collection.uName := None;
       collection.uTitle := None; collection.uDescription := None;
       collection.uShortcutIDs := []; collection.uVisibility := None |}.

Definition UpdateCollection (ctx : Ctx) (requestCollection : option collection.Message)
    (requestUpdateMask : option (list string)) (w : World) (st : collection.State)
    : Outcome collection.Message * collection.State :=
  match requestUpdateMask with
  | None | Some [] => (Fail InvalidArgument "updateMask is required", st)
  | Some paths =>
      match requestCollection with
      | None => (Panic, st)                   (* request.Collection.Id *)
      | Some c =>
          match collection.GetCollection st (collectionByID (collection.mId c)) with
          | None => (Fail NotFound "collection not found", st)
          | Some found =>
              match callerOf ctx (db w) with
              | None => (Panic, st)           (* user.ID *)
              | Some user =>
                  if notCreatorNorAdmin found user then
                    (Fail PermissionDenied "Permission denied", st)
                  else
                    match collection.UpdateCollection st
                            (collectionUpdateOf found c paths) with
                    | (Error e, st') =>
                        (Fail Internal ("failed to update collection, err: " +:+ e), st')
                    | (Val updated, st') =>
                        (Ok (convertCollectionFromStore updated), st')
                    end
              end
          end
      end
  end.

Definition DeleteCollection (ctx : Ctx) (requestId : Z) (w : World)
    (st : collection.State) : Outcome unit * collection.State :=
  match collection.GetCollection st (collectionByID requestId) with
  | None => (Fail NotFound "collection not found", st)
  | Some found =>
      match callerOf ctx (db w) with
      | None => (Panic, st)                   (* user.ID *)
      | Some user =>
          if notCreatorNorAdmin found user then
            (Fail PermissionDenied "Permission denied", st)
          else
            match collection.DeleteCollection st (collection.Id found) with
            | (Error e, st') =>
                (Fail Internal ("failed to delete collection, err: " +:+ e), st')
            | (Val _, st') => (Ok tt, st')
            end
      end
  end.

End Collections.

(** ** The vocabulary of the collection handlers *)

(** The caller may write the collection: its creator, or an Admin. *)
Definition mayWrite (user : store.User) (c : collection.Stored) : Prop :=
  collection.CreatorId c = store.ID user ∨ store.Role_ user = store.RoleAdmin.

(** A store of collections in a list, for the runs below: ids are given
    in sequence and a write to an id that is not there fails. *)
Definition listStore : collection.Store :=
  {| collection.State := list collection.Stored;
     collection.ListCollections := λ st, st;
     collection.GetCollection := λ st find,
       List.find (λ c,
         from_option (Z.eqb (collection.Id c)) true (collection.findID find)
         && from_option (String.eqb (collection.Name c)) true (collection.findName find))
         st;
     collection.CreateCollection := λ st c,
       let created :=
         {| collection.Id := Z.of_nat (length st) + 1;
            collection.CreatorId := collection.CreatorId c;
            collection.CreatedTs := 1000; collection.UpdatedTs := 1000;
            collection.Name := collection.Name c;
            collection.Title := collection.Title c;
            collection.Description := collection.Description c;
            collection.ShortcutIds := collection.ShortcutIds c;
            collection.Visibility := collection.Visibility c |} in
       (Val created, st ++ [created]);
     collection.UpdateCollection := λ st u,
       let set (c : collection.Stored) :=
         {| collection.Id := collection.Id c;
            collection.CreatorId := collection.CreatorId c;
            collection.CreatedTs := collection.CreatedTs c;
            collection.UpdatedTs := collection.UpdatedTs c;
            collection.Name := default (collection.Name c) (collection.uName u);
            collection.Title := default (collection.Title c) (collection.uTitle u);
            collection.Description :=
              default (collection.Description c) (collection.uDescription u);
            collection.ShortcutIds :=
              match collection.uShortcutIDs u with
              | [] => collection.ShortcutIds c
              | ids => ids
              end;
            collection.Visibility :=
              default (collection.Visibility c) (collection.uVisibility u) |} in
       match List.find (λ c, collection.Id c =? collection.uID u) st with
       | None => (Error "sql: no rows in result set", st)
       | Some c =>
           (Val (set c),
            (λ r, if collection.Id r =? collection.uID u then set r else r) <$> st)
       end;
     collection.DeleteCollection := λ st id,
       (Val tt, List.filter (λ c, negb (collection.Id c =? id)) st) |}.

(** Ann's private reading list. *)
Definition readingList : collection.Stored :=
  {| collection.Id := 1; collection.CreatorId := 2;
     collection.CreatedTs := 1000; collection.UpdatedTs := 1000;
     collection.Name := "reading"; collection.Title := "Reading list";
     collection.Description := EmptyString; collection.ShortcutIds := [4; 7];
     collection.Visibility := storepb.WORKSPACE |}.

Definition usersPrefix : string := "users/".

Definition devProfile : Profile := {| Mode := "dev"; Version := "1.0.0" |}.
(** * Properties *)

Ltac handler :=
  unfold bind, query, exec, ret, fail, panic, SetHeader in *; simpl in *.

Lemma getCurrentUser_run ctx w :
  getCurrentUser ctx w =
    (Ok (match ctxUserID ctx with
         | Some userID => store.GetUser (db w) (byID userID)
         | None => None
         end), w).
Proof. unfold getCurrentUser. by destruct (ctxUserID ctx). Qed.

Lemma GetUser_byID d userID user :
  store.GetUser d (byID userID) = Some user → store.ID user = userID.
Proof.
  unfold store.GetUser, store.ListUsers. intros Hhd.
  apply head_Some_elem_of, list_elem_of_filter in Hhd as [Hm _].
  unfold store.matches in Hm. simpl in Hm.
  rewrite !andb_true_r in Hm. by apply Z.eqb_eq.
Qed.

(** ** Token validation *)

Section TokenValidation.
Context `{Externals}.

Lemma GetSigningMethod_name alg m : jwt.GetSigningMethod alg = Some m → m = alg.
Proof. unfold jwt.GetSigningMethod. case_bool_decide; congruence. Qed.

Lemma ParseUnverified_token tokenString t :
  jwt.ParseUnverified tokenString = Val t →
  headerField tokenString "alg" = Some (JStr (Method t)) ∧
  headerOf tokenString = Some (Header t).
Proof.
  unfold jwt.ParseUnverified, headerField, headerOf.
  destruct (jwtDecode tokenString) as [seg|]; [simpl|discriminate].
  destruct (segHeader seg !! _) as [[| | |alg]|] eqn:Halg; try discriminate.
  destruct (jwt.GetSigningMethod alg) as [m|] eqn:Hm; [|discriminate].
  apply GetSigningMethod_name in Hm as ->.
  intros [= <-]. simpl. done.
Qed.

Lemma keyFunc_accepts secret t key :
  keyFunc secret t = Val key →
  Method t = "HS256" ∧ Header t !! "kid" = Some (JStr "v1") ∧ key = secret.
Proof.
  unfold keyFunc, jwt.SigningMethodHS256.
  destruct (String.eqb (Method t) "HS256") eqn:Hm; [simpl|discriminate].
  apply String.eqb_eq in Hm.
  destruct (Header t !! _) as [[| | |kid]|]; try discriminate.
  destruct (String.eqb kid "v1") eqn:Hk; [|discriminate].
  apply String.eqb_eq in Hk as ->. intros [= <-]. done.
Qed.

(** What a token that passes validation looks like. *)
Lemma parseAccessToken_accepts secret now tokenString t :
  parseAccessToken secret now tokenString = Val t →
  headerField tokenString "alg" = Some (JStr "HS256") ∧
  headerField tokenString "kid" = Some (JStr "v1") ∧
  jwtVerify "HS256" (SigningString t) (Signature t) secret = true ∧
  jwt.validateClaims now (Claims t) = true.
Proof.
  unfold parseAccessToken, jwt.ParseWithClaims.
  destruct (jwt.ParseUnverified tokenString) as [t'|] eqn:Hp; [|discriminate].
  apply ParseUnverified_token in Hp as [Halg Hhdr].
  destruct (keyFunc secret t') as [key|] eqn:Hk; [|discriminate].
  apply keyFunc_accepts in Hk as (Hm & Hkid & ->).
  destruct (jwtVerify _ _ _ _) eqn:Hv; [simpl|discriminate].
  destruct (jwt.validateClaims now (Claims t')) eqn:Hc; [simpl|discriminate].
  intros [= <-]. rewrite Hm in Halg, Hv.
  repeat split; try done.
  unfold headerField. by rewrite Hhdr.
Qed.

(** Validation succeeds exactly on the tokens that are valid now. *)
Lemma parseAccessToken_validNow secret now tokenString :
  (∃ t, parseAccessToken secret now tokenString = Val t) ↔
  validNow secret now tokenString.
Proof.
  unfold validNow, parseAccessToken, jwt.ParseWithClaims, jwt.ParseUnverified.
  destruct (jwtDecode tokenString) as [seg|]; [|split; [intros [? [=]]|intros (? & [=] & _)]].
  split.
  - intros [t Hrun]. exists seg. split; [done|].
    destruct (segHeader seg !! "alg") as [[| | |alg]|] eqn:Halg; try discriminate.
    destruct (jwt.GetSigningMethod alg) as [m|] eqn:Hm; [|discriminate].
    apply GetSigningMethod_name in Hm as ->.
    destruct (keyFunc secret _) as [key|] eqn:Hk; [|discriminate].
    apply keyFunc_accepts in Hk as (Hhs & Hkid & ->). simpl in Hhs, Hkid, Hrun.
    subst alg.
    destruct (jwtVerify _ _ _ _) eqn:Hv; [|discriminate].
    unfold jwt.validateClaims in Hrun.
    repeat split; try done.
    intros exp Hexp. rewrite Hexp in Hrun.
    case_bool_decide; [done|discriminate].
  - intros (seg' & [= <-] & Halg & Hkid & Hv & Hexp).
    rewrite Halg. unfold jwt.GetSigningMethod.
    case_bool_decide as Hin; [|exfalso; apply Hin; unfold jwt.signingMethods; set_solver].
    unfold keyFunc. simpl. rewrite Hkid. simpl. rewrite Hv. simpl.
    unfold jwt.validateClaims.
    destruct (ExpiresAt (segClaims seg)) as [exp|]; [|eauto].
    rewrite bool_decide_true by auto. simpl. eauto.
Qed.

End TokenValidation.

Section TokenRejection.
Context `{Externals} (s : APIV1Service).

(** C1. A token whose header algorithm is not HS256, or whose header key
    version is not the string ["v1"] (another string, a value that is not
    a string, or no [kid] at all), fails validation whatever its signature
    and the secret: no token and no claims come back, the list loop skips
    its record, and the create handler answers an error and stores
    nothing. *)
Theorem hostile_header_rejected (tokenString : string) :
  headerField tokenString "alg" ≠ Some (JStr "HS256") ∨
  headerField tokenString "kid" ≠ Some (JStr "v1") →
  (∀ now, ∃ e, parseAccessToken (Secret s) now tokenString = Error e) ∧
  (∀ now description rest out,
      collectAccessTokens s now
        ({| storepb.AccessToken_ := tokenString;
            storepb.Description := description |} :: rest) out =
      collectAccessTokens s now rest out) ∧
  (∀ ctx requestId description expiresAt w user,
      fst (getCurrentUser ctx w) = Ok (Some user) →
      store.ID user = requestId →
      GenerateAccessToken (ctxNow ctx) (store.Email user) (store.ID user)
        expiresAt (Secret s) = Val tokenString →
      ∃ msg, CreateUserAccessToken s ctx requestId description expiresAt w =
               (Fail Internal msg, w)).
Proof.
  intros Hhostile.
  assert (∀ now, ∃ e, parseAccessToken (Secret s) now tokenString = Error e) as Hreject.
  { intros now.
    destruct (parseAccessToken (Secret s) now tokenString) as [t|e] eqn:Hp; [|eauto].
    apply parseAccessToken_accepts in Hp as (Halg & Hkid & _).
    destruct Hhostile; contradiction. }
  split; [done|]. split.
  - intros now description rest out. destruct (Hreject now) as [e He].
    simpl. by rewrite He.
  - intros ctx requestId description expiresAt w user Huser <- Hfresh.
    destruct (Hreject (ctxNow ctx)) as [e He].
    unfold CreateUserAccessToken. handler.
    rewrite getCurrentUser_run in *. simpl in Huser. injection Huser as ->.
    rewrite Z.eqb_refl, Hfresh, He. simpl. eauto.
Qed.

End TokenRejection.

Section TokenRejectionDemo.
Local Existing Instance demo.world.

Lemma hostile_header_rejected_witness :
  (∃ e, parseAccessToken "secret" 1000 "tok.none" = Error e) ∧
  (∃ e, parseAccessToken "secret" 1000 "tok.nokid" = Error e).
Proof.
  split.
  - apply (hostile_header_rejected demo.service "tok.none").
    left. vm_compute. discriminate.
  - apply (hostile_header_rejected demo.service "tok.nokid").
    right. vm_compute. discriminate.
Defined.

(** A well-formed token of the demo world validates; the same token under
    another algorithm, key version or after its expiry does not. *)
Example demo_validation :
  (∃ t, parseAccessToken "secret" 1000 "tok.early" = Val t) ∧
  parseAccessToken "secret" 1000 "tok.expired" = Error "token has invalid claims: token is expired" ∧
  parseAccessToken "secret" 1000 "tok.hs512" =
    Error "token is unverifiable: unexpected access token signing method=HS512, expect &{HS256 SHA-256}" ∧
  parseAccessToken "secret" 1000 "tok.kid1" = Error "token is unverifiable: unexpected access token kid=1" ∧
  parseAccessToken "other" 1000 "tok.early" = Error "token signature is invalid" ∧
  parseAccessToken "secret" 1000 "garbage" = Error "token is malformed".
Proof. split; [eexists; vm_compute; reflexivity|]. vm_compute. repeat split. Qed.

(** Creating a token stores it and answers with the times of its claims. *)
Example create_access_token_succeeds :
  CreateUserAccessToken demo.service demo.asSteven 1 "ci" (Some 605800)
    (demo.withTokens []) =
  (Ok {| v1pb.AccessToken := "tok.session"; v1pb.Description := "ci";
         v1pb.IssuedAt := 1000; v1pb.ExpiresAt := Some 605800 |},
   demo.withTokens [demo.record "tok.session" "ci"]).
Proof. vm_compute. reflexivity. Qed.

End TokenRejectionDemo.

(** ** slices.SortFunc orders upwards *)

Section SortFuncFacts.
Context {E : Type} (cmp : E → E → Z) (key : E → Z) (P : E → Prop).
Hypothesis cmp_key : ∀ a b, P a → P b → (cmp a b < 0 ↔ key a < key b).

Lemma sink_perm x rp : sink cmp x rp ≡ₚ x :: rp.
Proof.
  induction rp as [|y rest IH]; simpl; [done|].
  destruct (cmp x y <? 0)%Z; [|done].
  rewrite IH. apply Permutation_swap.
Qed.

Lemma SortFunc_perm l : SortFunc cmp l ≡ₚ l.
Proof.
  unfold SortFunc.
  assert (∀ rp, fold_left (λ rp x, sink cmp x rp) l rp ≡ₚ rev l ++ rp) as Hfold.
  { induction l as [|x l IH]; intros rp; simpl; [done|].
    rewrite IH, sink_perm, <- app_assoc. done. }
  rewrite <- (rev_involutive l) at 2.
  rewrite !rev_alt, <- !rev_alt.
  apply Permutation_rev'. rewrite Hfold, app_nil_r. done.
Qed.

(** The prefix held reversed is in descending key order, and stays so. *)
Local Abbreviation descending := (StronglySorted (λ a b, key b ≤ key a)).

Lemma sink_descending x rp :
  P x → Forall P rp → descending rp → descending (sink cmp x rp).
Proof.
  intros Hx Hrp Hs. induction Hs as [|y rest Hrest IH Hy]; simpl.
  - repeat constructor.
  - apply Forall_cons in Hrp as [Py Prest].
    destruct (cmp x y <? 0)%Z eqn:Hc.
    + apply Z.ltb_lt, cmp_key in Hc; [|done..].
      constructor; [by apply IH|].
      rewrite (sink_perm x rest). constructor; [lia|done].
    + apply Z.ltb_ge in Hc.
      assert (key y ≤ key x) by (destruct (Z.lt_ge_cases (key x) (key y)) as [Hlt|]; [apply cmp_key in Hlt; [lia|done..]|done]).
      constructor; [by constructor|].
      constructor; [done|].
      eapply Forall_impl; [exact Hy|]. simpl. intros; lia.
Qed.

Lemma sink_Forall x rp : P x → Forall P rp → Forall P (sink cmp x rp).
Proof. intros. rewrite sink_perm. by constructor. Qed.

Lemma SortFunc_ascending l :
  Forall P l → StronglySorted (λ a b, key a ≤ key b) (SortFunc cmp l).
Proof.
  intros Hl. unfold SortFunc.
  assert (∀ rp, Forall P rp → descending rp →
            let r := fold_left (λ rp x, sink cmp x rp) l rp in
            Forall P r ∧ descending r) as Hfold.
  { induction Hl as [|x l Hx Hl IH]; intros rp Hrp Hs; simpl; [done|].
    apply IH; [by apply sink_Forall|by apply sink_descending]. }
  destruct (Hfold [] (Forall_nil_2 _) (SSorted_nil _)) as [_ Hd].
  revert Hd. generalize (fold_left (λ rp x, sink cmp x rp) l []).
  intros r Hd. induction Hd as [|y rest Hrest IH Hy]; simpl; [constructor|].
  apply StronglySorted_app; repeat split.
  - intros a b Ha Hb. apply list_elem_of_singleton in Hb as ->.
    apply list_elem_of_In, in_rev, list_elem_of_In in Ha.
    rewrite Forall_forall in Hy. by apply Hy.
  - done.
  - repeat constructor.
Qed.

End SortFuncFacts.

(** ** The access-token registry *)

Lemma dropAccessToken_filter accessToken l updated :
  dropAccessToken accessToken l updated =
    updated ++ List.filter (keeps accessToken) l.
Proof.
  revert updated. induction l as [|r rest IH]; intros updated; simpl.
  - by rewrite app_nil_r.
  - unfold keeps at 1.
    destruct (String.eqb (storepb.AccessToken_ r) accessToken); simpl.
    + apply IH.
    + by rewrite IH, <- app_assoc.
Qed.

(** With at most one matching record the loop and first-match removal
    agree. *)
Lemma dropAccessToken_removeFirst accessToken l :
  NoDup (storepb.AccessToken_ <$> l) →
  dropAccessToken accessToken l [] = removeFirst accessToken l.
Proof.
  rewrite dropAccessToken_filter. simpl.
  induction l as [|r rest IH]; simpl; [done|].
  intros [Hr Hrest]%NoDup_cons. unfold keeps at 1.
  destruct (String.eqb (storepb.AccessToken_ r) accessToken) eqn:Heq; simpl.
  - apply String.eqb_eq in Heq as <-.
    clear IH Hrest. induction rest as [|r' rest IH]; simpl; [done|].
    apply not_elem_of_cons in Hr as [Hne Hr].
    unfold keeps at 1.
    destruct (String.eqb_spec (storepb.AccessToken_ r') (storepb.AccessToken_ r));
      [congruence|]. simpl. f_equal. by apply IH.
  - f_equal. by apply IH.
Qed.

Section Registry.
Context `{Externals} (s : APIV1Service).

Lemma collectAccessTokens_ok now l acc out :
  collectAccessTokens s now l acc = Ok out →
  Forall (timesFromClaims s now) acc →
  storedOf <$> out = (storedOf <$> acc) ++ List.filter (survives s now) l ∧
  Forall (timesFromClaims s now) out.
Proof.
  revert acc. induction l as [|r rest IH]; intros acc; simpl.
  - intros [= <-] Hacc. by rewrite app_nil_r.
  - unfold survives at 1.
    destruct (parseAccessToken _ _ _) as [t|e] eqn:Hp; [|by apply IH].
    destruct (IssuedAt (Claims t)) as [iat|] eqn:Hiat; [|discriminate].
    intros Hrun Hacc. apply IH in Hrun as [-> Htimes].
    + split; [|done]. rewrite fmap_app, <- app_assoc. simpl.
      by destruct r.
    + apply Forall_app. split; [done|]. constructor; [|constructor].
      exists t. by simpl.
Qed.

Lemma collectAccessTokens_total now l acc :
  issuedAtPresent s now l → ∃ out, collectAccessTokens s now l acc = Ok out.
Proof.
  revert acc. induction l as [|r rest IH]; intros acc Hiat; simpl; [eauto|].
  assert (issuedAtPresent s now rest) as Hrest.
  { intros r' t Hr'. apply Hiat. by right. }
  destruct (parseAccessToken _ _ _) as [t|e] eqn:Hp; [|by apply IH].
  destruct (Hiat r t) as [iat ->]; [by left|done|]. by apply IH.
Qed.

End Registry.

Section RegistryClaims.
Context `{Externals} (s : APIV1Service).

Lemma byIssuedAt_sign a b :
  inRange a → inRange b →
  (byIssuedAt a b < 0 ↔ v1pb.IssuedAt a < v1pb.IssuedAt b).
Proof.
  unfold inRange, byIssuedAt, wrap64. intros Ha Hb.
  rewrite Z.mod_small by lia. lia.
Qed.

(** What the read returns is in ascending order of issue: the oldest token
    comes first. *)
Lemma ListUserAccessTokens_ascending ctx requestId w out :
  fst (ListUserAccessTokens s ctx requestId w) = Ok out →
  Forall inRange out →
  StronglySorted (λ a b, v1pb.IssuedAt a ≤ v1pb.IssuedAt b) out.
Proof.
  unfold ListUserAccessTokens. handler. rewrite getCurrentUser_run.
  destruct (match ctxUserID ctx with Some _ => _ | None => _ end) as [user|];
    [|discriminate].
  destruct (negb _); [discriminate|].
  destruct (collectAccessTokens _ _ _ _) as [l| |]; simpl; try discriminate.
  intros [= <-] Hr.
  apply (SortFunc_ascending byIssuedAt v1pb.IssuedAt inRange byIssuedAt_sign).
  by rewrite <- (SortFunc_perm byIssuedAt l).
Qed.

Lemma survives_validNow now r :
  survives s now r = true ↔ validNow (Secret s) now (storepb.AccessToken_ r).
Proof.
  rewrite <- parseAccessToken_validNow. unfold survives.
  destruct (parseAccessToken _ _ _) as [t|e]; split; eauto; try done.
  by intros [t [=]].
Qed.

(** C7. Reading the registry never writes: whatever the outcome, the
    database and the response metadata are as before, so the records the
    read leaves out are still stored.  When the read answers, its records
    are exactly the stored records of the user whose token validates now
    (none missing, none added, each once per stored copy), with the times of
    the decoded claims; a token validates now exactly when it decodes, its
    header has HS256 and the key version "v1", its signature verifies and it
    has not expired.  The read does answer for the signed-in owner as soon
    as the validating tokens carry an issued-at claim. *)
Theorem list_prunes_without_writing (ctx : Ctx) (requestId : Z) (w : World) :
  snd (ListUserAccessTokens s ctx requestId w) = w ∧
  (∀ r, survives s (ctxNow ctx) r = true ↔
        validNow (Secret s) (ctxNow ctx) (storepb.AccessToken_ r)) ∧
  (∀ out, fst (ListUserAccessTokens s ctx requestId w) = Ok out →
     storedOf <$> out ≡ₚ
       List.filter (survives s (ctxNow ctx))
                   (store.GetUserAccessTokens (db w) requestId) ∧
     Forall (timesFromClaims s (ctxNow ctx)) out) ∧
  (∀ user, ctxUserID ctx = Some requestId →
     store.GetUser (db w) (byID requestId) = Some user →
     issuedAtPresent s (ctxNow ctx) (store.GetUserAccessTokens (db w) requestId) →
     isOk (fst (ListUserAccessTokens s ctx requestId w)) = true).
Proof.
  split; [|split; [apply survives_validNow|split]];
    unfold ListUserAccessTokens; handler; rewrite getCurrentUser_run.
  - destruct (match ctxUserID ctx with Some _ => _ | None => _ end) as [user|];
      [|done].
    destruct (negb _); [done|].
    by destruct (collectAccessTokens _ _ _ _).
  - intros out.
    destruct (match ctxUserID ctx with Some _ => _ | None => _ end) as [user|];
      [|discriminate].
    destruct (store.ID user =? requestId) eqn:Hid; simpl; [|discriminate].
    apply Z.eqb_eq in Hid as ->.
    destruct (collectAccessTokens _ _ _ _) as [l| |] eqn:Hrun; simpl;
      try discriminate.
    intros [= <-].
    apply collectAccessTokens_ok in Hrun as [Hl Htimes]; [|constructor].
    simpl in Hl. rewrite <- Hl. split.
    + apply fmap_Permutation, SortFunc_perm.
    + by rewrite (SortFunc_perm byIssuedAt l).
  - intros user -> Huser Hiat. rewrite Huser.
    rewrite (GetUser_byID _ _ _ Huser), Z.eqb_refl. simpl.
    destruct (collectAccessTokens_total s (ctxNow ctx)
                (store.GetUserAccessTokens (db w) requestId) [] Hiat) as [l ->].
    done.
Qed.

(** C4, as the code has it.  For the signed-in user, the delete writes the
    user's whole list back without any record whose token string equals the
    request's: every match goes, first and later ones alike; the other
    records stay, in their order, and nothing else in the database or the
    response changes. *)
Theorem delete_removes_every_match (ctx : Ctx) (accessToken : string)
    (w : World) (user : store.User) :
  fst (getCurrentUser ctx w) = Ok (Some user) →
  DeleteUserAccessToken ctx accessToken w =
    (Ok tt,
     {| db := store.UpsertUserSetting (db w) (store.ID user)
                (List.filter (keeps accessToken)
                   (store.GetUserAccessTokens (db w) (store.ID user)));
        header := header w |}).
Proof.
  unfold DeleteUserAccessToken. handler. rewrite getCurrentUser_run. simpl.
  intros [= ->]. by rewrite dropAccessToken_filter.
Qed.

End RegistryClaims.

Section RegistryDemo.
Local Existing Instance demo.world.

(** C3, on two tokens issued at 100 and at 200 and stored newest first: the
    read returns the one issued at 100 first, so the order is ascending by
    issue time, where the comment above the sort announces descending. *)
Theorem list_returns_oldest_first :
  fst (ListUserAccessTokens demo.service demo.asSteven 1
         (demo.withTokens [ci; laptop])) =
    Ok [ {| v1pb.AccessToken := "tok.early"; v1pb.Description := "laptop";
            v1pb.IssuedAt := 100; v1pb.ExpiresAt := None |};
         {| v1pb.AccessToken := "tok.late"; v1pb.Description := "ci";
            v1pb.IssuedAt := 200; v1pb.ExpiresAt := None |} ].
Proof. vm_compute. reflexivity. Qed.

Lemma list_prunes_without_writing_witness :
  let w := demo.withTokens [laptop; stale; forged] in
  snd (ListUserAccessTokens demo.service demo.asSteven 1 w) = w ∧
  isOk (fst (ListUserAccessTokens demo.service demo.asSteven 1 w)) = true ∧
  List.filter (survives demo.service 1000) [laptop; stale; forged] = [laptop].
Proof.
  intros w.
  destruct (list_prunes_without_writing demo.service demo.asSteven 1 w)
    as (Hsame & _ & _ & Hok).
  split; [exact Hsame|]. split; [|vm_compute; reflexivity].
  apply (Hok demo.steven).
  - reflexivity.
  - vm_compute. reflexivity.
  - intros r t Hr. vm_compute in Hr.
    repeat (apply elem_of_cons in Hr as [->|Hr]);
      [vm_compute; intros [= <-]; eexists; reflexivity .. | by apply elem_of_nil in Hr].
Defined.

(** C4, as stated, fails on a list holding the same token string twice: the
    delete takes both copies away, where removal of the first match would
    leave the later one. *)
Lemma delete_first_only_counterexample :
  let stored := [laptop; ci; phone] in
  let w' := snd (DeleteUserAccessToken demo.asSteven "tok.early"
                   (demo.withTokens stored)) in
  store.GetUserAccessTokens (db w') 1 = [ci] ∧
  removeFirst "tok.early" stored = [ci; phone] ∧
  store.GetUserAccessTokens (db w') 1 ≠ removeFirst "tok.early" stored.
Proof. vm_compute. repeat split. discriminate. Qed.

Lemma delete_removes_every_match_witness :
  DeleteUserAccessToken demo.asSteven "tok.early" (demo.withTokens [laptop; ci; phone]) =
    (Ok tt,
     {| db := store.UpsertUserSetting (db (demo.withTokens [laptop; ci; phone])) 1 [ci];
        header := [] |}).
Proof.
  apply (delete_removes_every_match demo.asSteven "tok.early"
           (demo.withTokens [laptop; ci; phone]) demo.steven).
  vm_compute. reflexivity.
Defined.

End RegistryDemo.

(** ** Signing in, signing out *)

Section SessionClaims.
Context `{Externals} (s : APIV1Service).

(** C5. A sign-in for an email no user has and a sign-in with a wrong
    password for an existing user end in the same outcome, InvalidArgument
    with the one message "unmatched email and password", and neither
    changes anything: the two causes cannot be told apart. *)
Theorem sign_in_conflates_causes (ctx1 ctx2 : Ctx)
    (email1 password1 email2 password2 : string) (w1 w2 : World) (user : store.User) :
  store.GetUser (db w1) (byEmail email1) = None →
  store.GetUser (db w2) (byEmail email2) = Some user →
  CompareHashAndPassword (store.PasswordHash user) password2 = false →
  SignIn s ctx1 email1 password1 w1 =
    (Fail InvalidArgument "unmatched email and password", w1) ∧
  SignIn s ctx2 email2 password2 w2 =
    (Fail InvalidArgument "unmatched email and password", w2) ∧
  fst (SignIn s ctx1 email1 password1 w1) = fst (SignIn s ctx2 email2 password2 w2).
Proof.
  intros Hnone Hsome Hwrong.
  assert (SignIn s ctx1 email1 password1 w1 =
            (Fail InvalidArgument "unmatched email and password", w1)) as H1.
  { unfold SignIn. handler. fold (byEmail email1). by rewrite Hnone. }
  assert (SignIn s ctx2 email2 password2 w2 =
            (Fail InvalidArgument "unmatched email and password", w2)) as H2.
  { unfold SignIn. handler. fold (byEmail email2). by rewrite Hsome, Hwrong. }
  by rewrite H1, H2.
Qed.

(** C8. Signing out answers with one more Set-Cookie header, the session
    cookie emptied and expired at the fixed date of 1 January 1970, and
    touches nothing on the server: the database is the same, every user's
    stored access-token list is the same, and whatever the registry listed
    (so whatever token was valid) before is listed after. *)
Theorem sign_out_only_clears_cookie (ctx : Ctx) (w : World) :
  SignOut ctx w =
    (Ok tt,
     {| db := db w;
        header := header w ++
          [("Set-Cookie",
            AccessTokenCookieName +:+
            "=; Path=/; Expires=Thu, 01 Jan 1970 00:00:00 GMT; HttpOnly; SameSite=Strict")] |}) ∧
  db (snd (SignOut ctx w)) = db w ∧
  (∀ userID, store.GetUserAccessTokens (db (snd (SignOut ctx w))) userID =
             store.GetUserAccessTokens (db w) userID) ∧
  (∀ ctx' requestId,
     fst (ListUserAccessTokens s ctx' requestId (snd (SignOut ctx w))) =
     fst (ListUserAccessTokens s ctx' requestId w)).
Proof.
  repeat split.
  intros ctx' requestId. unfold ListUserAccessTokens, SignOut. handler.
  rewrite !getCurrentUser_run. simpl.
  destruct (match ctxUserID ctx' with Some _ => _ | None => _ end) as [user|];
    [|done].
  destruct (negb _); [done|].
  by destruct (collectAccessTokens _ _ _ _).
Qed.

(** C9. When single sign-on is licensed and the request names a configured
    identity provider whose type is not OAuth2, no user info is produced
    (it stays nil) and the handler goes on to read its identifier: the call
    ends in a nil dereference, not in an error status. *)
Theorem sso_non_oauth2_provider_panics (ctx : Ctx) (idpId code redirectUri : string)
    (w : World) (identityProviders : list storepb.IdentityProvider)
    (identityProvider : storepb.IdentityProvider) :
  IsFeatureEnabled s FeatureTypeSSO = true →
  store.GetIdentityProviderSetting (db w) = Some identityProviders →
  findIdentityProvider idpId identityProviders = Some identityProvider →
  storepb.Type_ identityProvider ≠ storepb.OAUTH2 →
  fetchUserInfo identityProvider redirectUri code w = (Ok None, w) ∧
  SignInWithSSO s ctx idpId code redirectUri w = (Panic, w).
Proof.
  intros Hsso Hsetting Hfind Htype.
  assert (fetchUserInfo identityProvider redirectUri code w = (Ok None, w)) as Hinfo.
  { unfold fetchUserInfo. by destruct (storepb.Type_ identityProvider). }
  split; [done|].
  unfold SignInWithSSO. rewrite Hsso. handler.
  by rewrite Hsetting, Hfind, Hinfo.
Qed.

End SessionClaims.

Section SessionDemo.
Local Existing Instance demo.world.

Lemma sign_in_conflates_causes_witness :
  fst (SignIn demo.service demo.anonymous "nobody@example.com" "hunter2"
         (withUsers [demo.steven] false)) =
  fst (SignIn demo.service demo.anonymous "steven@example.com" "letmein"
         (withUsers [demo.steven] false)).
Proof.
  apply (sign_in_conflates_causes demo.service demo.anonymous demo.anonymous
           "nobody@example.com" "hunter2" "steven@example.com" "letmein"
           (withUsers [demo.steven] false) (withUsers [demo.steven] false)
           demo.steven); vm_compute; reflexivity.
Defined.

(** The right password does sign Steven in. *)
Example sign_in_succeeds :
  isOk (fst (SignIn demo.service demo.anonymous "steven@example.com" "hunter2"
               (withUsers [demo.steven] false))) = true.
Proof. vm_compute. reflexivity. Qed.

Lemma sso_non_oauth2_provider_panics_witness :
  fst (SignInWithSSO demo.service demo.anonymous "office" "test-code"
         "https://slash.example.com/auth/callback" (withUsers [demo.steven] false)) = Panic.
Proof.
  pose proof (sso_non_oauth2_provider_panics demo.service demo.anonymous
           "office" "test-code" "https://slash.example.com/auth/callback"
           (withUsers [demo.steven] false) [office; github] office) as Hpanic.
  destruct Hpanic as [_ ->]; [reflexivity | reflexivity | reflexivity | discriminate | reflexivity].
Defined.

(** Through the OAuth2 provider the same request signs John in. *)
Example sso_oauth2_succeeds :
  isOk (fst (SignInWithSSO demo.service demo.anonymous "github" "test-code"
               "https://slash.example.com/auth/callback" (withUsers [demo.steven] false))) = true.
Proof. vm_compute. reflexivity. Qed.

End SessionDemo.

(** ** Creating users *)

Section CreationFacts.
Context `{Externals} (s : APIV1Service).

Lemma ListUsers_findAll d : store.ListUsers d store.findAll = store.users d.
Proof.
  unfold store.ListUsers. induction (store.users d) as [|u l IH]; [done|].
  rewrite filter_cons_True by done. by rewrite IH.
Qed.

Lemma checkSeatAvailability_run w :
  checkSeatAvailability s w =
    (if negb (IsFeatureEnabled s FeatureTypeUnlimitedAccounts)
        && (Seats s <=? seatsTaken w)
     then capacityError s else Ok tt, w).
Proof.
  unfold checkSeatAvailability, seatsTaken.
  destruct (IsFeatureEnabled s FeatureTypeUnlimitedAccounts); simpl; [done|].
  handler. rewrite ListUsers_findAll, Z.geb_leb.
  by destruct (Seats s <=? _).
Qed.

(** The INSERT either fails and changes nothing, or appends the completed
    record, whose role and email are the ones asked for. *)
Lemma CreateUser_insert now d create :
  (∃ e, store.CreateUser now d create = (Error e, d)) ∨
  (∃ user d', store.CreateUser now d create = (Val user, d') ∧
     store.users d' = store.users d ++ [user] ∧
     store.Role_ user = store.Role_ create ∧
     store.Email user = store.Email create ∧
     store.workspaceSettings d' = store.workspaceSettings d).
Proof.
  unfold store.CreateUser. case_bool_decide; [left; eauto|].
  right. eexists _, _. by repeat split.
Qed.

(** [doSignIn] stores a token and sets the cookie: the user table and the
    workspace settings are not its business. *)
Lemma doSignIn_users ctx user expireTime w :
  store.users (db (snd (doSignIn s ctx user expireTime w))) = store.users (db w) ∧
  store.workspaceSettings (db (snd (doSignIn s ctx user expireTime w))) =
    store.workspaceSettings (db w) ∧
  fst (doSignIn s ctx user expireTime w) ≠ Panic ∧
  (∀ c msg, fst (doSignIn s ctx user expireTime w) ≠ Fail c msg).
Proof.
  unfold doSignIn, UpsertAccessTokenToStore.
  destruct (GenerateAccessToken _ _ _ _ _); handler; done.
Qed.

Lemma fetchUserInfo_world identityProvider redirectUri code w :
  snd (fetchUserInfo identityProvider redirectUri code w) = w.
Proof.
  unfold fetchUserInfo.
  destruct (storepb.Type_ identityProvider); [done|].
  destruct (oauth2.NewIdentityProvider _) as [p|]; [|done].
  destruct (ExchangeToken _ _ _); [|done].
  by destruct (UserInfo _ _).
Qed.

Lemma provisionUser_users ctx email userInfo w :
  appendsAtMost store.RoleUser (store.users (db w))
    (store.users (db (snd (provisionUser s ctx email userInfo w)))) ∧
  store.workspaceSettings (db (snd (provisionUser s ctx email userInfo w))) =
    store.workspaceSettings (db w).
Proof.
  destruct (provisionUser s ctx email userInfo w) as [r w'] eqn:Hrun. simpl.
  unfold provisionUser in Hrun. handler.
  rewrite checkSeatAvailability_run in Hrun.
  destruct (_ && _); simpl in Hrun; [by simplify_eq; split; [left|]|].
  destruct (RandomString 20) as [password|]; [|by simplify_eq; split; [left|]].
  destruct (GenerateFromPassword password) as [hash|]; [|by simplify_eq; split; [left|]].
  match type of Hrun with context [store.CreateUser ?n ?d ?c] =>
    destruct (CreateUser_insert n d c) as [[e He]|(user & d' & He & Hu & Hr & _ & Hws)];
    rewrite He in Hrun
  end; simplify_eq/=.
  - by split; [left|].
  - split; [right; eauto|done].
Qed.

Lemma SignUp_users ctx email nickname password w :
  appendsAtMost (signUpRole (store.users (db w))) (store.users (db w))
    (store.users (db (snd (SignUp s ctx email nickname password w)))).
Proof.
  destruct (SignUp s ctx email nickname password w) as [r w'] eqn:Hrun. simpl.
  unfold SignUp, signUpUser in Hrun. handler.
  destruct (storepb.DisallowUserRegistration _); [by simplify_eq; left|].
  rewrite checkSeatAvailability_run in Hrun.
  destruct (_ && _); simpl in Hrun; [by simplify_eq; left|].
  destruct (GenerateFromPassword password) as [hash|]; [|by simplify_eq; left].
  rewrite ListUsers_findAll in Hrun.
  match type of Hrun with context [store.CreateUser ?n ?d ?c] =>
    destruct (CreateUser_insert n d c) as [[e He]|(user & d' & He & Hu & Hr & _)];
    rewrite He in Hrun
  end; simpl in *; [by simplify_eq; left|].
  pose proof (doSignIn_users ctx user (ctxNow ctx + AccessTokenDuration)
                {| db := d'; header := header w |}) as (Hsame & _).
  assert (store.users (db w') = store.users d') as ->.
  { destruct (doSignIn s ctx user _ _) as [[[[]|e]| |] w'']; by simplify_eq/=. }
  right. exists user. split; [done|].
  rewrite Hr. by destruct (store.users (db w)).
Qed.

Lemma CreateUser_users ctx email nickname password w :
  appendsAtMost store.RoleUser (store.users (db w))
    (store.users (db (snd (CreateUser s ctx email nickname password w)))).
Proof.
  destruct (CreateUser s ctx email nickname password w) as [r w'] eqn:Hrun. simpl.
  unfold CreateUser in Hrun. handler.
  destruct (GenerateFromPassword password) as [hash|]; [|by simplify_eq; left].
  rewrite checkSeatAvailability_run in Hrun.
  destruct (_ && _); simpl in Hrun; [by simplify_eq; left|].
  match type of Hrun with context [store.CreateUser ?n ?d ?c] =>
    destruct (CreateUser_insert n d c) as [[e He]|(user & d' & He & Hu & Hr & _)];
    rewrite He in Hrun
  end; simplify_eq/=; [by left|].
  right. eauto.
Qed.

Lemma SignInWithSSO_users ctx idpId code redirectUri w :
  appendsAtMost store.RoleUser (store.users (db w))
    (store.users (db (snd (SignInWithSSO s ctx idpId code redirectUri w)))).
Proof.
  destruct (SignInWithSSO s ctx idpId code redirectUri w) as [r w'] eqn:Hrun. simpl.
  unfold SignInWithSSO in Hrun. handler.
  destruct (IsFeatureEnabled s FeatureTypeSSO); simpl in Hrun; [|by simplify_eq; left].
  destruct (store.GetIdentityProviderSetting (db w)) as [idps|]; [|by simplify_eq; left].
  destruct (findIdentityProvider idpId idps) as [idp|]; [|by simplify_eq; left].
  pose proof (fetchUserInfo_world idp redirectUri code w) as Hw.
  destruct (fetchUserInfo idp redirectUri code w) as [[[userInfo|]| |] w0];
    simpl in Hw; subst w0; try by simplify_eq; left.
  destruct (ValidateEmail (Identifier userInfo)); simpl in Hrun; [|by simplify_eq; left].
  destruct (store.GetUser (db w) _) as [found|].
  - destruct (store.RowStatus found); [|by simplify_eq; left].
    pose proof (doSignIn_users ctx found (ctxNow ctx + AccessTokenDuration) w)
      as (Hsame & _).
    left.
    destruct (doSignIn s ctx found _ w) as [[[[]|e]| |] w'']; by simplify_eq/=.
  - pose proof (provisionUser_users ctx (Identifier userInfo) userInfo w) as [Hp _].
    destruct (provisionUser s ctx (Identifier userInfo) userInfo w)
      as [[user| |] w0]; simpl in Hp; try by simplify_eq.
    destruct (store.RowStatus user); [|by simplify_eq].
    pose proof (doSignIn_users ctx user (ctxNow ctx + AccessTokenDuration) w0)
      as (Hsame & _).
    assert (store.users (db w') = store.users (db w0)) as ->; [|done].
    destruct (doSignIn s ctx user _ w0) as [[[[]|e]| |] w'']; by simplify_eq/=.
Qed.

End CreationFacts.

Section SeatGating.
Context `{Externals} (s : APIV1Service).

Lemma checkSeatAvailability_full w :
  seatsFull s w → checkSeatAvailability s w = (capacityError s, w).
Proof.
  intros [Hlimited Hfull]. rewrite checkSeatAvailability_run, Hlimited. simpl.
  by apply Z.leb_le in Hfull as ->.
Qed.

Lemma provisionUser_full ctx email userInfo w :
  seatsFull s w → provisionUser s ctx email userInfo w = (capacityError s, w).
Proof.
  intros Hfull. unfold provisionUser, bind.
  by rewrite (checkSeatAvailability_full w Hfull).
Qed.

Lemma SignUp_full ctx email nickname password w :
  seatsFull s w →
  SignUp s ctx email nickname password w =
    (if storepb.DisallowUserRegistration (store.GetWorkspaceSecuritySetting (db w))
     then Fail PermissionDenied "sign up is not allowed"
     else capacityError s, w).
Proof.
  intros Hfull. unfold SignUp, signUpUser. handler.
  destruct (storepb.DisallowUserRegistration _); [done|].
  by rewrite (checkSeatAvailability_full w Hfull).
Qed.

Lemma SignInWithSSO_full ctx idpId code redirectUri w :
  seatsFull s w →
  store.users (db (snd (SignInWithSSO s ctx idpId code redirectUri w))) =
    store.users (db w).
Proof.
  intros Hfull.
  destruct (SignInWithSSO s ctx idpId code redirectUri w) as [r w'] eqn:Hrun. simpl.
  unfold SignInWithSSO in Hrun. handler.
  destruct (IsFeatureEnabled s FeatureTypeSSO); simpl in Hrun; [|simplify_eq; done].
  destruct (store.GetIdentityProviderSetting (db w)) as [idps|]; [|simplify_eq; done].
  destruct (findIdentityProvider idpId idps) as [idp|]; [|simplify_eq; done].
  pose proof (fetchUserInfo_world idp redirectUri code w) as Hw.
  destruct (fetchUserInfo idp redirectUri code w) as [[[userInfo|]| |] w0];
    simpl in Hw; subst w0; try (simplify_eq; done).
  destruct (ValidateEmail (Identifier userInfo)); simpl in Hrun; [|simplify_eq; done].
  destruct (store.GetUser (db w) _) as [found|].
  - destruct (store.RowStatus found); [|simplify_eq; done].
    pose proof (doSignIn_users s ctx found (ctxNow ctx + AccessTokenDuration) w)
      as (Hsame & _).
    destruct (doSignIn s ctx found _ w) as [[[[]|e]| |] w'']; by simplify_eq/=.
  - rewrite (provisionUser_full ctx _ userInfo w Hfull) in Hrun.
    unfold capacityError in Hrun. by simplify_eq/=.
Qed.

(** C6. With accounts limited and no seat left, the seat check answers
    the capacity error (FailedPrecondition); so do the creation of a user by
    SignUp and the auto-provision of single sign-on, alone and inside their
    handlers (SignUp once past its registration guard, SignInWithSSO once
    the provider vouches for an unknown email); nothing is written, and in
    no case does SignUp or SignInWithSSO add a user.  With a seat left (in
    particular with N-1 users for N seats) the check passes, and it always
    passes when accounts are unlimited. *)
Theorem seat_gating (ctx : Ctx) (w : World) :
  (seatsFull s w →
     checkSeatAvailability s w = (capacityError s, w) ∧
     (∀ email nickname password,
        signUpUser s ctx email nickname password w = (capacityError s, w)) ∧
     (∀ email userInfo,
        provisionUser s ctx email userInfo w = (capacityError s, w)) ∧
     (∀ email nickname password,
        storepb.DisallowUserRegistration
          (store.GetWorkspaceSecuritySetting (db w)) = false →
        SignUp s ctx email nickname password w = (capacityError s, w)) ∧
     (∀ idpId code redirectUri identityProviders identityProvider userInfo,
        IsFeatureEnabled s FeatureTypeSSO = true →
        store.GetIdentityProviderSetting (db w) = Some identityProviders →
        findIdentityProvider idpId identityProviders = Some identityProvider →
        fetchUserInfo identityProvider redirectUri code w = (Ok (Some userInfo), w) →
        ValidateEmail (Identifier userInfo) = true →
        store.GetUser (db w) (byEmail (Identifier userInfo)) = None →
        SignInWithSSO s ctx idpId code redirectUri w = (capacityError s, w)) ∧
     (∀ email nickname password,
        isOk (fst (SignUp s ctx email nickname password w)) = false ∧
        snd (SignUp s ctx email nickname password w) = w) ∧
     (∀ idpId code redirectUri,
        store.users (db (snd (SignInWithSSO s ctx idpId code redirectUri w))) =
          store.users (db w))) ∧
  (IsFeatureEnabled s FeatureTypeUnlimitedAccounts = false →
     seatsTaken w < Seats s → checkSeatAvailability s w = (Ok tt, w)) ∧
  (IsFeatureEnabled s FeatureTypeUnlimitedAccounts = true →
     checkSeatAvailability s w = (Ok tt, w)).
Proof.
  split; [|split].
  - intros Hfull. repeat split.
    + by apply checkSeatAvailability_full.
    + intros. unfold signUpUser, bind.
      by rewrite (checkSeatAvailability_full w Hfull).
    + intros. by apply provisionUser_full.
    + intros email nickname password Hallowed.
      by rewrite SignUp_full, Hallowed.
    + intros idpId code redirectUri idps idp userInfo Hsso Hsetting Hfind Hinfo Hvalid Hnew.
      unfold SignInWithSSO. rewrite Hsso. handler.
      rewrite Hsetting, Hfind, Hinfo, Hvalid. simpl.
      fold (byEmail (Identifier userInfo)). rewrite Hnew.
      by rewrite (provisionUser_full ctx _ userInfo w Hfull).
    + rewrite SignUp_full by done. by destruct (storepb.DisallowUserRegistration _).
    + by rewrite SignUp_full.
    + intros. by apply SignInWithSSO_full.
  - intros Hlimited Hleft. rewrite checkSeatAvailability_run, Hlimited. simpl.
    by apply Z.leb_gt in Hleft as ->.
  - intros Hunlimited. by rewrite checkSeatAvailability_run, Hunlimited.
Qed.

End SeatGating.

Section SeatGatingDemo.
Local Existing Instance demo.world.

(** Five seats: the fifth sign-up succeeds, the sixth meets the capacity
    error, for SignUp and for a sign-on that would provision John. *)
Lemma seat_gating_witness :
  isOk (fst (SignUp demo.service demo.anonymous "di@example.com" "di" "pw"
               (withUsers fourUsers false))) = true ∧
  SignUp demo.service demo.anonymous "ed@example.com" "ed" "pw" (withUsers fiveUsers false) =
    (Fail FailedPrecondition "maximum number of users 5 reached", withUsers fiveUsers false) ∧
  SignInWithSSO demo.service demo.anonymous "github" "test-code" "https://slash.example.com/auth/callback"
    (withUsers fiveUsers false) =
    (Fail FailedPrecondition "maximum number of users 5 reached", withUsers fiveUsers false) ∧
  checkSeatAvailability demo.service (withUsers fourUsers false) =
    (Ok tt, withUsers fourUsers false).
Proof.
  destruct (seat_gating demo.service demo.anonymous (withUsers fiveUsers false))
    as (Hfull & _ & _).
  destruct Hfull as (_ & _ & _ & Hup & Hsso & _); [by split; vm_compute|].
  destruct (seat_gating demo.service demo.anonymous (withUsers fourUsers false))
    as (_ & Hleft & _).
  split; [vm_compute; reflexivity|]. split; [|split].
  - apply Hup. vm_compute. reflexivity.
  - apply (Hsso "github" "test-code" _ [office; github] github
             {| Identifier := "john.doe@example.com"; DisplayName := "John Doe" |});
      vm_compute; reflexivity.
  - apply Hleft; vm_compute; reflexivity.
Defined.

End SeatGatingDemo.

(** ** The first user and the administrators *)

Lemma hasAdmin_appendsAtMost role before after d d' :
  store.users d = before → store.users d' = after →
  appendsAtMost role before after → hasAdmin d → hasAdmin d'.
Proof.
  intros Hd Hd' [->|(user & -> & _)] (admin & Hin & Hrole);
    exists admin; rewrite Hd'; (split; [|done]).
  - by rewrite <- Hd.
  - apply elem_of_app. left. by rewrite <- Hd.
Qed.

Section FirstUser.
Context `{Externals} (s : APIV1Service).

Lemma SignUp_response ctx email nickname password w r :
  fst (SignUp s ctx email nickname password w) = Ok r →
  ∃ user,
    store.users (db (snd (SignUp s ctx email nickname password w))) =
      store.users (db w) ++ [user] ∧
    store.Role_ user = signUpRole (store.users (db w)) ∧
    r = convertUserFromStore user.
Proof.
  destruct (SignUp s ctx email nickname password w) as [r' w'] eqn:Hrun. simpl.
  intros ->.
  unfold SignUp, signUpUser in Hrun. handler.
  destruct (storepb.DisallowUserRegistration _); [simplify_eq|].
  rewrite checkSeatAvailability_run in Hrun.
  destruct (_ && _); simpl in Hrun; [unfold capacityError in Hrun; simplify_eq|].
  destruct (GenerateFromPassword password) as [hash|]; [|simplify_eq].
  rewrite ListUsers_findAll in Hrun.
  match type of Hrun with context [store.CreateUser ?n ?d ?c] =>
    destruct (CreateUser_insert n d c) as [[e He]|(user & d' & He & Hu & Hr & _)];
    rewrite He in Hrun
  end; simpl in *; [simplify_eq|].
  pose proof (doSignIn_users s ctx user (ctxNow ctx + AccessTokenDuration)
                {| db := d'; header := header w |}) as (Hsame & _).
  exists user.
  destruct (doSignIn s ctx user _ _) as [[[[]|e]| |] w'']; simplify_eq/=.
  rewrite Hsame, Hu. repeat split.
  rewrite Hr. by destruct (store.users (db w)).
Qed.

(** C2, as the code has it.  SignUp adds at most one user, who is Admin
    exactly when no user existed and User exactly when one did, and the
    user it answers with has that role; so after SignUp an administrator
    exists once any user exists.  CreateUser and the auto-provision of
    SignInWithSSO add at most one user, always with role User: they keep an
    existing administrator. *)
Theorem sign_up_promotes_first_user (ctx : Ctx)
    (email nickname password idpId code redirectUri : string) (w : World) :
  let existing := store.users (db w) in
  let afterSignUp := db (snd (SignUp s ctx email nickname password w)) in
  let afterCreateUser := db (snd (CreateUser s ctx email nickname password w)) in
  let afterSSO := db (snd (SignInWithSSO s ctx idpId code redirectUri w)) in
  (store.users afterSignUp = existing ∨
   ∃ user, store.users afterSignUp = existing ++ [user] ∧
           (store.Role_ user = store.RoleAdmin ↔ existing = []) ∧
           (store.Role_ user = store.RoleUser ↔ existing ≠ [])) ∧
  (∀ r, fst (SignUp s ctx email nickname password w) = Ok r →
        (v1pb.Role_ r = v1pb.ADMIN ↔ existing = []) ∧
        (v1pb.Role_ r = v1pb.USER ↔ existing ≠ [])) ∧
  (adminOnceAnyUser (db w) → adminOnceAnyUser afterSignUp) ∧
  (store.users afterCreateUser = existing ∨
   ∃ user, store.users afterCreateUser = existing ++ [user] ∧
           store.Role_ user = store.RoleUser) ∧
  (store.users afterSSO = existing ∨
   ∃ user, store.users afterSSO = existing ++ [user] ∧
           store.Role_ user = store.RoleUser) ∧
  (hasAdmin (db w) → hasAdmin afterCreateUser ∧ hasAdmin afterSSO).
Proof.
  cbv zeta.
  assert (∀ role, role = signUpRole (store.users (db w)) →
            (role = store.RoleAdmin ↔ store.users (db w) = []) ∧
            (role = store.RoleUser ↔ store.users (db w) ≠ [])) as Hrole.
  { intros role ->. by destruct (store.users (db w)). }
  pose proof (SignUp_users s ctx email nickname password w) as Hup.
  pose proof (CreateUser_users s ctx email nickname password w) as Hcreate.
  pose proof (SignInWithSSO_users s ctx idpId code redirectUri w) as Hsso.
  split; [|split; [|split; [|split; [|split]]]]; try done.
  - destruct Hup as [Hsame|(user & Happ & Hr)]; [by left|].
    right. exists user. split; [done|]. by apply Hrole.
  - intros r Hok. apply SignUp_response in Hok as (user & _ & Hr & ->).
    destruct (Hrole _ Hr) as [Ha Hu]. clear Hrole Hr. simpl.
    destruct (store.Role_ user); simpl; intuition congruence.
  - intros [Hempty|Hadmin].
    + destruct Hup as [Hsame|(user & Happ & Hr)].
      * left. by rewrite Hsame.
      * right. exists user. split.
        -- rewrite Happ. apply elem_of_app. right. by left.
        -- by rewrite Hr, Hempty.
    + right. by eapply hasAdmin_appendsAtMost.
  - intros Hadmin. split; by eapply hasAdmin_appendsAtMost.
Qed.

End FirstUser.

Section FirstUserDemo.
Local Existing Instance demo.world.

(** The first sign-up makes an Admin, the next one a User. *)
Lemma sign_up_promotes_first_user_witness :
  fst (SignUp demo.service demo.anonymous "ann@example.com" "ann" "pw" (withUsers [] false)) =
    Ok (surfaceUser 1 v1pb.ADMIN "ann@example.com" "ann") ∧
  fst (SignUp demo.service demo.anonymous "bo@example.com" "bo" "pw" (withUsers [demo.steven] false)) =
    Ok (surfaceUser 2 v1pb.USER "bo@example.com" "bo") ∧
  hasAdmin (db (snd (CreateUser demo.service demo.asSteven "bo@example.com" "bo" "pw"
                       (withUsers [demo.steven] false)))).
Proof.
  split; [vm_compute; reflexivity|]. split; [vm_compute; reflexivity|].
  destruct (sign_up_promotes_first_user demo.service demo.asSteven
              "bo@example.com" "bo" "pw" "github" "test-code" "cb"
              (withUsers [demo.steven] false)) as (_ & _ & _ & _ & _ & Hkeep).
  apply Hkeep. exists demo.steven. split; [by left|reflexivity].
Defined.

(** C2, as stated, fails on an empty user table: CreateUser, and a sign-on
    through a configured provider, each create a first user of role User,
    after which a user exists and no administrator does. *)
Lemma admin_invariant_counterexample :
  let w := withUsers [] false in
  let byCreateUser :=
    db (snd (CreateUser demo.service demo.anonymous "bo@example.com" "bo" "pw" w)) in
  let bySSO :=
    db (snd (SignInWithSSO demo.service demo.anonymous "github" "test-code"
               "https://slash.example.com/auth/callback" w)) in
  adminOnceAnyUser (db w) ∧
  store.Role_ <$> store.users byCreateUser = [store.RoleUser] ∧
  ¬ adminOnceAnyUser byCreateUser ∧
  store.Role_ <$> store.users bySSO = [store.RoleUser] ∧
  ¬ adminOnceAnyUser bySSO.
Proof.
  assert (∀ d, store.Role_ <$> store.users d = [store.RoleUser] →
               ¬ adminOnceAnyUser d) as Hno.
  { intros d Hroles [Hempty|(user & Hin & Hrole)].
    - by rewrite Hempty in Hroles.
    - apply (list_elem_of_fmap_2 store.Role_) in Hin.
      rewrite Hroles, Hrole in Hin.
      apply list_elem_of_singleton in Hin. discriminate. }
  intros w byCreateUser bySSO.
  assert (store.Role_ <$> store.users byCreateUser = [store.RoleUser]) as H1
    by (vm_compute; reflexivity).
  assert (store.Role_ <$> store.users bySSO = [store.RoleUser]) as H2
    by (vm_compute; reflexivity).
  split; [by left|]. split; [exact H1|]. split; [by apply Hno|].
  split; [exact H2|]. by apply Hno.
Qed.

End FirstUserDemo.

(** ** The client secret in the workspace setting *)

Section SecretFacts.

Lemma convert_blank i :
  convertIdentityProviderFromStore (blankProvider i) =
    match convertIdentityProviderFromStore i with
    | Ok p => Ok (clearClientSecret p)
    | Fail c msg => Fail c msg
    | Panic => Panic
    end.
Proof.
  unfold convertIdentityProviderFromStore, blankProvider. simpl.
  destruct (storepb.Config i) as [c|]; simpl; [|reflexivity].
  destruct (storepb.FieldMapping_ c); reflexivity.
Qed.

Lemma clearClientSecret_twice p :
  clearClientSecret (clearClientSecret p) = clearClientSecret p.
Proof.
  unfold clearClientSecret.
  destruct (v1pb.Config p) eqn:Hc; simpl; [done|by rewrite Hc].
Qed.

Lemma clearClientSecret_redacted p : redacted (clearClientSecret p).
Proof.
  unfold clearClientSecret, redacted. destruct (v1pb.Config p) eqn:Hc; simpl.
  - by intros c [= <-].
  - by rewrite Hc.
Qed.

Lemma export_blank caller l out :
  notAdmin caller = true →
  exportIdentityProviders caller (blankProvider <$> l) out =
    exportIdentityProviders caller l out.
Proof.
  intros Hcaller. revert out. induction l as [|i l IH]; intros out; [done|].
  rewrite fmap_cons. simpl. rewrite convert_blank, Hcaller.
  destruct (convertIdentityProviderFromStore i); [|done..].
  by rewrite clearClientSecret_twice, IH.
Qed.

Lemma export_redacted caller l out res :
  notAdmin caller = true →
  exportIdentityProviders caller l out = Ok res →
  Forall redacted out → Forall redacted res.
Proof.
  intros Hcaller. revert out. induction l as [|i l IH]; intros out; simpl.
  - by intros [= <-].
  - destruct (convertIdentityProviderFromStore i) as [p| |]; [|done..].
    rewrite Hcaller. intros Hrun Hout. eapply IH; [done|].
    apply Forall_app. split; [done|].
    constructor; [apply clearClientSecret_redacted|constructor].
Qed.

Lemma convert_secret i p :
  convertIdentityProviderFromStore i = Ok p →
  v1pb.ClientSecret <$> v1pb.Config p = storepb.ClientSecret <$> storepb.Config i.
Proof.
  unfold convertIdentityProviderFromStore, convertIdentityProviderConfigFromStore.
  destruct (storepb.Config i) as [c|]; [|by intros [= <-]].
  destruct (storepb.FieldMapping_ c); [|done]. by intros [= <-].
Qed.

Lemma export_admin caller l out res :
  notAdmin caller = false →
  exportIdentityProviders caller l out = Ok res →
  secretsOf res = secretsOf out ++ storedSecrets l.
Proof.
  intros Hcaller. revert out. induction l as [|i l IH]; intros out; simpl.
  - intros [= <-]. by rewrite app_nil_r.
  - destruct (convertIdentityProviderFromStore i) as [p| |] eqn:Hp; [|done..].
    rewrite Hcaller. intros Hrun. rewrite (IH _ Hrun).
    unfold secretsOf. rewrite fmap_app, <- app_assoc. simpl.
    by rewrite (convert_secret i p Hp).
Qed.

Lemma export_total caller l out :
  (∀ i c, i ∈ l → storepb.Config i = Some c → is_Some (storepb.FieldMapping_ c)) →
  ∃ res, exportIdentityProviders caller l out = Ok res.
Proof.
  revert out. induction l as [|i l IH]; intros out Hmapped; simpl; [eauto|].
  unfold convertIdentityProviderFromStore, convertIdentityProviderConfigFromStore.
  destruct (storepb.Config i) as [c|] eqn:Hc.
  - destruct (Hmapped i c) as [m ->]; [by left|done|].
    apply IH. intros i' c' Hi'. apply Hmapped. by right.
  - apply IH. intros i' c' Hi'. apply Hmapped. by right.
Qed.

Lemma collect_blank caller l ws :
  notAdmin caller = true →
  collectSettings caller (blankSetting <$> l) ws = collectSettings caller l ws.
Proof.
  intros Hcaller. revert ws. induction l as [|v l IH]; intros ws; [done|].
  rewrite fmap_cons. destruct v; simpl; rewrite ?IH; try done.
  rewrite (export_blank caller idps [] Hcaller).
  destruct (exportIdentityProviders caller idps []); [|done..].
  by rewrite IH.
Qed.

Lemma collect_redacted caller l ws res :
  notAdmin caller = true →
  collectSettings caller l ws = Ok res →
  Forall redacted (v1pb.IdentityProviders ws) →
  Forall redacted (v1pb.IdentityProviders res).
Proof.
  intros Hcaller. revert ws. induction l as [|v l IH]; intros ws; simpl.
  - by intros [= <-].
  - destruct v; try (intros Hrun Hws; by eapply IH).
    destruct (exportIdentityProviders caller idps []) as [out| |] eqn:Hout;
      [|done..].
    intros Hrun _. eapply IH; [done|]. simpl.
    by eapply export_redacted.
Qed.

Lemma collect_admin caller l ws res :
  notAdmin caller = false →
  collectSettings caller l ws = Ok res →
  secretsOf (v1pb.IdentityProviders res) =
    match lastProviders l with
    | Some idps => storedSecrets idps
    | None => secretsOf (v1pb.IdentityProviders ws)
    end.
Proof.
  intros Hcaller. unfold lastProviders.
  revert ws. induction l as [|v l IH]; intros ws; simpl.
  - by intros [= <-].
  - destruct v; simpl; try (intros Hrun; by rewrite (IH _ Hrun)).
    destruct (exportIdentityProviders caller idps []) as [out| |] eqn:Hout;
      [|done..].
    intros Hrun. rewrite (IH _ Hrun), last_cons. simpl.
    destruct (last _); [done|].
    by rewrite (export_admin caller idps [] out Hcaller Hout).
Qed.

Lemma collect_total caller l ws :
  (∀ v, v ∈ l → mapped v) → ∃ res, collectSettings caller l ws = Ok res.
Proof.
  revert ws. induction l as [|v l IH]; intros ws Hmapped; simpl; [eauto|].
  assert (∀ v', v' ∈ l → mapped v') as Hrest by (intros; apply Hmapped; by right).
  destruct v; try by apply IH.
  destruct (export_total caller idps []) as [out ->]; [|by apply IH].
  intros i c Hi. by eapply (Hmapped _ (list_elem_of_here _ _)).
Qed.

End SecretFacts.

Section SecretClaim.

Lemma callerOf_users ctx d1 d2 :
  store.users d1 = store.users d2 → callerOf ctx d1 = callerOf ctx d2.
Proof.
  intros Husers. unfold callerOf, store.GetUser, store.ListUsers.
  by rewrite Husers.
Qed.

Lemma GetWorkspaceSetting_run ctx w :
  GetWorkspaceSetting ctx w =
    (collectSettings (callerOf ctx (db w)) (store.workspaceSettings (db w))
                     emptyWorkspaceSetting, w).
Proof.
  unfold GetWorkspaceSetting. handler. rewrite getCurrentUser_run. simpl.
  fold (callerOf ctx (db w)). unfold store.ListWorkspaceSettings.
  by destruct (collectSettings _ _ _).
Qed.

(** C10. Reading the workspace setting writes nothing.  For a caller who
    is anonymous or not an Admin, every OAuth2 configuration in the answer
    has the empty client secret, and the answer is the same for any two
    databases that differ only in stored client secrets.  For an Admin the
    answer carries the stored client secrets as they are.  The read answers
    whenever every stored OAuth2 configuration has its field mapping. *)
Theorem client_secret_redacted (ctx : Ctx) (w : World) :
  snd (GetWorkspaceSetting ctx w) = w ∧
  (notAdmin (callerOf ctx (db w)) = true →
     (∀ ws, fst (GetWorkspaceSetting ctx w) = Ok ws →
            Forall redacted (v1pb.IdentityProviders ws)) ∧
     (∀ w2, sameButSecrets (db w) (db w2) →
            fst (GetWorkspaceSetting ctx w) = fst (GetWorkspaceSetting ctx w2))) ∧
  (notAdmin (callerOf ctx (db w)) = false →
     ∀ ws, fst (GetWorkspaceSetting ctx w) = Ok ws →
           secretsOf (v1pb.IdentityProviders ws) =
             default [] (storedSecrets <$> lastProviders (store.workspaceSettings (db w)))) ∧
  ((∀ v, v ∈ store.workspaceSettings (db w) → mapped v) →
     isOk (fst (GetWorkspaceSetting ctx w)) = true).
Proof.
  rewrite GetWorkspaceSetting_run. simpl.
  split; [done|]. split; [|split].
  - intros Hcaller. split.
    + intros ws Hrun. eapply collect_redacted; [done..|]. constructor.
    + intros w2 [Husers Hrows]. rewrite GetWorkspaceSetting_run. simpl.
      rewrite <- (callerOf_users ctx _ _ Husers).
      rewrite <- (collect_blank _ (store.workspaceSettings (db w)) _ Hcaller).
      rewrite <- (collect_blank _ (store.workspaceSettings (db w2)) _ Hcaller).
      by rewrite Hrows.
  - intros Hcaller ws Hrun.
    rewrite (collect_admin _ _ _ _ Hcaller Hrun).
    by destruct (lastProviders _).
  - intros Hmapped.
    destruct (collect_total (callerOf ctx (db w)) (store.workspaceSettings (db w))
                emptyWorkspaceSetting Hmapped) as [res ->].
    done.
Qed.

End SecretClaim.

Section SecretDemo.
Local Existing Instance demo.world.

(** Ann (role User) and an anonymous caller read an empty secret, and the
    same answer whatever the stored secret; Steven (Admin) reads it. *)
Lemma client_secret_redacted_witness :
  secretsSeen asAnn (withProvider github) = Ok [Some EmptyString] ∧
  secretsSeen demo.anonymous (withProvider github) = Ok [Some EmptyString] ∧
  fst (GetWorkspaceSetting asAnn (withProvider github)) =
    fst (GetWorkspaceSetting asAnn (withProvider githubRotated)) ∧
  secretsSeen demo.asSteven (withProvider github) = Ok [Some "test-client-secret"] ∧
  secretsSeen demo.asSteven (withProvider githubRotated) = Ok [Some "rotated-client-secret"].
Proof.
  destruct (client_secret_redacted asAnn (withProvider github))
    as (_ & Hann & _).
  destruct Hann as [_ Hsame]; [vm_compute; reflexivity|].
  split; [vm_compute; reflexivity|]. split; [vm_compute; reflexivity|].
  split; [|split; vm_compute; reflexivity].
  apply Hsame. split; vm_compute; reflexivity.
Defined.

End SecretDemo.

(** * Further properties *)

(** ** The statements of the user driver *)

Section StatementFacts.
Variable placeholder : nat → string.

Lemma addClause_aligned {A} base (v : option A) column arg acc :
  aligned placeholder base acc → aligned placeholder base (postgres.addClause placeholder v column arg acc).
Proof.
  intros [Hlen Hcl]. destruct v as [x|]; [|done]. split; simpl.
  - rewrite !length_app, Hlen. simpl. lia.
  - intros k clause Hk.
    destruct (decide (k < length acc.2)%nat) as [Hlt|Hge].
    + rewrite lookup_app_l in Hk by lia. eauto.
    + rewrite lookup_app_r in Hk by lia.
      replace (base + k - length acc.1)%nat with (k - length acc.2)%nat in Hk by lia.
      destruct (k - length acc.2)%nat as [|n] eqn:Hn; [|done].
      injection Hk as <-. exists column.
      by replace k with (length acc.2) by lia.
Qed.

Lemma updateClauses_aligned update :
  aligned placeholder 0 (postgres.updateClauses placeholder update).
Proof.
  unfold postgres.updateClauses. repeat apply addClause_aligned.
  split; [done|]. simpl. intros k clause. by rewrite lookup_nil.
Qed.

Lemma updateClauses_empty update :
  (postgres.updateClauses placeholder update).1 = [] ↔
  postgres.RowStatus update = None ∧ postgres.Email update = None ∧
  postgres.Nickname update = None ∧ postgres.PasswordHash update = None ∧
  postgres.Role_ update = None.
Proof.
  unfold postgres.updateClauses, postgres.addClause.
  destruct (postgres.RowStatus update), (postgres.Email update),
    (postgres.Nickname update), (postgres.PasswordHash update),
    (postgres.Role_ update); simpl; split; try done;
    try (intros H; by apply app_eq_nil in H as [_ ?]);
    intros (? & ? & ? & ? & ?); done.
Qed.

End StatementFacts.

Section StatementClaims.
Variable placeholder : nat → string.

(** X1. The UPDATE built for a user is refused before any query when no
    field is to be set, and only then.  Otherwise its k-th SET clause
    names the k-th placeholder, there is one argument per clause in the
    same order, and the id comes last, under the next placeholder, which is
    the one of the WHERE clause. *)
Theorem update_statement_aligned (update : postgres.UpdateUserFields) :
  match postgres.updateStatement placeholder update with
  | Error e =>
      e = "no fields to update" ∧
      postgres.RowStatus update = None ∧ postgres.Email update = None ∧
      postgres.Nickname update = None ∧ postgres.PasswordHash update = None ∧
      postgres.Role_ update = None
  | Val st =>
      postgres.setList st ≠ [] ∧
      length (postgres.updateArgs st) = S (length (postgres.setList st)) ∧
      (∀ k clause, postgres.setList st !! k = Some clause →
         ∃ column, clause = column +:+ " = " +:+ placeholder (k + 1)) ∧
      postgres.whereID st = placeholder (length (postgres.setList st) + 1) ∧
      last (postgres.updateArgs st) = Some (postgres.ArgInt (postgres.ID update))
  end.
Proof.
  unfold postgres.updateStatement.
  pose proof (updateClauses_aligned placeholder update) as [Hlen Hcl].
  pose proof (updateClauses_empty placeholder update) as Hempty.
  destruct (postgres.updateClauses placeholder update) as [set args].
  simpl in *.
  destruct set as [|clause set]; simpl.
  - split; [done|]. by apply Hempty.
  - split; [done|]. rewrite length_app, last_snoc. simpl in *.
    rewrite <- Hlen. repeat split; try done; lia.
Qed.

(** X2. The WHERE list built for a user query starts with the always-true
    clause; each filter adds one clause and one argument, the k-th filter
    clause naming the k-th placeholder. *)
Theorem where_clauses_aligned (find : postgres.FindUser) :
  let clauses := (postgres.whereClauses placeholder find).1 in
  let args := (postgres.whereClauses placeholder find).2 in
  head clauses = Some "1 = 1" ∧
  length clauses = S (length args) ∧
  (∀ k clause, clauses !! S k = Some clause →
     ∃ column, clause = column +:+ " = " +:+ placeholder (k + 1)).
Proof.
  assert (∀ A (v : option A) column arg acc,
            head acc.1 = Some "1 = 1" →
            head (postgres.addClause placeholder v column arg acc).1 = Some "1 = 1")
    as Hhead.
  { intros A [x|] column arg [[|c l] args]; simpl; try done. }
  assert (aligned placeholder 1 (postgres.whereClauses placeholder find)) as [Hlen Hcl].
  { unfold postgres.whereClauses. repeat apply addClause_aligned.
    split; [done|]. simpl. intros k clause. by rewrite lookup_nil. }
  split; [|split; [done|exact Hcl]].
  unfold postgres.whereClauses. by repeat apply Hhead.
Qed.

End StatementClaims.

(** A user update that sets the email and the nickname of user 7. *)
Lemma update_statement_aligned_witness :
  postgres.updateStatement dollar emailAndNickname =
    Val {| postgres.setList := ["email = $1"; "nickname = $2"];
           postgres.whereID := "$3";
           postgres.updateArgs :=
             [postgres.ArgText "ann@example.com"; postgres.ArgText "ann";
              postgres.ArgInt 7] |} ∧
  ∃ st, postgres.updateStatement dollar emailAndNickname = Val st ∧
        postgres.whereID st = dollar (length (postgres.setList st) + 1) ∧
        (∀ k clause, postgres.setList st !! k = Some clause →
           ∃ column, clause = column +:+ " = " +:+ dollar (k + 1)).
Proof.
  split; [vm_compute; reflexivity|].
  pose proof (update_statement_aligned dollar emailAndNickname) as Haligned.
  destruct (postgres.updateStatement dollar emailAndNickname) as [st|e];
    [|destruct Haligned as (_ & _ & [=] & _)].
  destruct Haligned as (_ & _ & Hclauses & Hwhere & _). eauto.
Defined.

Lemma where_clauses_aligned_witness :
  postgres.whereClauses dollar
    {| postgres.findID := None; postgres.findRowStatus := Some storepb.NORMAL;
       postgres.findEmail := None; postgres.findNickname := None;
       postgres.findRole := Some store.RoleAdmin |} =
    (["1 = 1"; "row_status = $1"; "role = $2"],
     [postgres.ArgText "NORMAL"; postgres.ArgRole store.RoleAdmin]) ∧
  head (postgres.whereClauses dollar
    {| postgres.findID := None; postgres.findRowStatus := Some storepb.NORMAL;
       postgres.findEmail := None; postgres.findNickname := None;
       postgres.findRole := Some store.RoleAdmin |}).1 = Some "1 = 1".
Proof.
  split; [vm_compute; reflexivity|].
  apply (where_clauses_aligned dollar).
Defined.

(** ** The user handlers *)

Section UserFacts.

Lemma callerOf_find ctx d user :
  callerOf ctx d = Some user →
  List.find (postgres.hasID (store.ID user)) (store.users d) = Some user ∧
  user ∈ store.users d.
Proof.
  unfold callerOf. destruct (ctxUserID ctx) as [userID|]; [|done].
  intros Hget. pose proof (GetUser_byID _ _ _ Hget) as ->.
  unfold store.GetUser, store.ListUsers in Hget.
  induction (store.users d) as [|u l IH]; [done|]. simpl.
  unfold postgres.hasID at 1.
  destruct (decide (store.matches (byID userID) u = true)) as [Hm|Hm].
  - rewrite filter_cons_True in Hget by done. simpl in Hget. injection Hget as ->.
    unfold store.matches in Hm. simpl in Hm. rewrite !andb_true_r in Hm.
    rewrite Hm. split; [done|by left].
  - rewrite filter_cons_False in Hget by done.
    unfold store.matches in Hm. simpl in Hm. rewrite !andb_true_r in Hm.
    apply not_true_is_false in Hm. rewrite Hm.
    destruct (IH Hget) as [Hfind Hin]. split; [done|by right].
Qed.

Lemma find_hasID_None id (l : list store.User) :
  List.find (postgres.hasID id) l = None ↔ ∀ u, u ∈ l → store.ID u ≠ id.
Proof.
  induction l as [|u l IH]; simpl.
  - split; [intros _ u Hu; by apply elem_of_nil in Hu|done].
  - unfold postgres.hasID at 1. destruct (Z.eqb_spec (store.ID u) id) as [Heq|Hne].
    + split; [done|]. intros Hall. exfalso. by apply (Hall u); [left|].
    + rewrite IH. split.
      * intros Hall u' [->|Hin]%elem_of_cons; auto.
      * intros Hall u' Hin. apply Hall. by right.
Qed.

(** The stored user a request by id finds. *)
Lemma GetUser_find d id :
  store.GetUser d (byID id) = List.find (postgres.hasID id) (store.users d).
Proof.
  unfold store.GetUser, store.ListUsers.
  induction (store.users d) as [|u l IH]; [done|]. simpl.
  unfold postgres.hasID at 1.
  assert (store.matches (byID id) u = (store.ID u =? id)) as Hm.
  { unfold store.matches. simpl. by rewrite !andb_true_r. }
  destruct (store.ID u =? id) eqn:Heq.
  - by rewrite filter_cons_True by (by rewrite Hm).
  - rewrite filter_cons_False by (by rewrite Hm). done.
Qed.

Lemma userUpdateOf_fields input paths :
  let update := userUpdateOf input paths in
  postgres.ID update = inputId input ∧
  postgres.RowStatus update = None ∧
  postgres.PasswordHash update = None ∧
  postgres.Role_ update = None ∧
  postgres.Email update =
    (if bool_decide ("email" ∈ paths) then Some (inputEmail input) else None) ∧
  postgres.Nickname update =
    (if bool_decide ("nickname" ∈ paths) then Some (inputNickname input) else None).
Proof.
  assert (∀ u0,
    let update := fold_left (maskStep input) paths u0 in
    postgres.ID update = postgres.ID u0 ∧
    postgres.RowStatus update = postgres.RowStatus u0 ∧
    postgres.PasswordHash update = postgres.PasswordHash u0 ∧
    postgres.Role_ update = postgres.Role_ u0 ∧
    postgres.Email update =
      (if bool_decide ("email" ∈ paths) then Some (inputEmail input)
       else postgres.Email u0) ∧
    postgres.Nickname update =
      (if bool_decide ("nickname" ∈ paths) then Some (inputNickname input)
       else postgres.Nickname u0)) as Hfold.
  { induction paths as [|path paths IH]; intros u0; simpl; [done|].
    destruct (IH (maskStep input u0 path)) as (HID & Hrs & Hph & Hro & Hem & Hni).
    rewrite HID, Hrs, Hph, Hro, Hem, Hni. clear IH HID Hrs Hph Hro Hem Hni.
    unfold maskStep.
    destruct (String.eqb_spec path "email") as [->|Hne1];
      [|destruct (String.eqb_spec path "nickname") as [->|Hne2]]; simpl;
      repeat split; try done; repeat case_bool_decide; try done; exfalso;
      match goal with
      | H : _ ∈ _ :: _ |- _ =>
          apply elem_of_cons in H as [?|?]; [congruence|contradiction]
      | H : _ ∉ _ :: _ |- _ => apply H; by right
      end. }
  apply (Hfold {| postgres.ID := inputId input; postgres.RowStatus := None;
                  postgres.Email := None; postgres.Nickname := None;
                  postgres.PasswordHash := None; postgres.Role_ := None |}).
Qed.

(** The fields a request's mask sets leave the protected part of a row. *)
Lemma setFields_protected input paths u :
  protectedOf (postgres.setFields (userUpdateOf input paths) u) = protectedOf u.
Proof.
  destruct (userUpdateOf_fields input paths) as (_ & Hrs & Hph & Hro & _).
  unfold protectedOf, postgres.setFields. simpl.
  by rewrite Hrs, Hph, Hro.
Qed.

Lemma UpdateUser_run d update :
  (∃ e, postgres.UpdateUser d update = (Error e, d)) ∨
  (∃ u, List.find (postgres.hasID (postgres.ID update)) (store.users d) = Some u ∧
        postgres.UpdateUser d update =
          (Val (postgres.setFields update u),
           {| store.users :=
                (λ r, if postgres.hasID (postgres.ID update) r
                      then postgres.setFields update r else r) <$> store.users d;
              store.userSeq := store.userSeq d;
              store.accessTokens := store.accessTokens d;
              store.workspaceSettings := store.workspaceSettings d |})).
Proof.
  unfold postgres.UpdateUser.
  destruct (postgres.updateStatement _ update); [|left; eauto].
  destruct (List.find _ _) as [u|]; [|left; eauto].
  destruct (postgres.emailTaken update (store.users d)); [left; eauto|].
  right. eauto.
Qed.

End UserFacts.

Section UserClaims.

Lemma UpdateUser_cases ctx request w :
  (∃ o, UpdateUser ctx request w = (o, w) ∧ isOk o = false) ∨
  (∃ caller input paths,
     callerOf ctx (db w) = Some caller ∧
     requestUser request = Some input ∧
     requestUpdateMask request = Some paths ∧ paths ≠ [] ∧
     store.ID caller = inputId input ∧
     UpdateUser ctx request w =
       (Ok (convertUserFromStore
              (postgres.setFields (userUpdateOf input paths) caller)),
        {| db := {| store.users :=
                      (λ r, if postgres.hasID (inputId input) r
                            then postgres.setFields (userUpdateOf input paths) r
                            else r) <$> store.users (db w);
                    store.userSeq := store.userSeq (db w);
                    store.accessTokens := store.accessTokens (db w);
                    store.workspaceSettings := store.workspaceSettings (db w) |};
           header := header w |})).
Proof.
  unfold UpdateUser. handler. rewrite getCurrentUser_run. simpl.
  fold (callerOf ctx (db w)).
  destruct (callerOf ctx (db w)) as [caller|] eqn:Hcaller; [|left; eauto].
  destruct (requestUser request) as [input|]; [|left; eauto].
  destruct (store.ID caller =? inputId input) eqn:Hid; simpl; [|left; eauto].
  apply Z.eqb_eq in Hid.
  destruct (requestUpdateMask request) as [[|path paths]|]; [left; eauto| |left; eauto].
  destruct (userUpdateOf_fields input (path :: paths)) as (HID & _).
  destruct (UpdateUser_run (db w) (userUpdateOf input (path :: paths)))
    as [[e ->]|(u & Hfind & ->)]; simpl.
  - left. destruct w. eauto.
  - right. exists caller, input, (path :: paths).
    rewrite HID in Hfind. rewrite <- Hid in Hfind.
    destruct (callerOf_find _ _ _ Hcaller) as [Hfind' _].
    rewrite Hfind' in Hfind. injection Hfind as <-.
    rewrite HID. repeat split; done.
Qed.

(** X3. Whatever the request, UpdateUser changes at most the email and the
    nickname of the rows with the caller's own id: ids, roles, password
    hashes, statuses and timestamps of all rows stay, the rows of other
    users stay as they are, and so do the rest of the database and the
    response metadata; an administrator that exists still exists.  When
    the call fails nothing at all has changed; when it answers, the email
    and the nickname are the requested ones for the paths the mask names
    and the stored ones otherwise. *)
Theorem update_user_only_own_contact (ctx : Ctx) (request : UpdateUserRequest)
    (w : World) :
  let w' := snd (UpdateUser ctx request w) in
  (isOk (fst (UpdateUser ctx request w)) = false → w' = w) ∧
  protectedOf <$> store.users (db w') = protectedOf <$> store.users (db w) ∧
  (∀ i u, store.users (db w) !! i = Some u →
          store.ID <$> callerOf ctx (db w) ≠ Some (store.ID u) →
          store.users (db w') !! i = Some u) ∧
  sameButUsers (db w) (db w') ∧ header w' = header w ∧
  (hasAdmin (db w) → hasAdmin (db w')) ∧
  (∀ r, fst (UpdateUser ctx request w) = Ok r →
     ∃ caller input paths,
       callerOf ctx (db w) = Some caller ∧ requestUser request = Some input ∧
       requestUpdateMask request = Some paths ∧
       v1pb.Id r = store.ID caller ∧
       v1pb.Role_ r = convertUserRoleFromStore (store.Role_ caller) ∧
       v1pb.Email r = (if bool_decide ("email" ∈ paths) then inputEmail input
                       else store.Email caller) ∧
       v1pb.Nickname r = (if bool_decide ("nickname" ∈ paths) then inputNickname input
                          else store.Nickname caller)).
Proof.
  cbv zeta.
  destruct (UpdateUser_cases ctx request w)
    as [(o & -> & Hfail)|(caller & input & paths & Hcaller & Hinput & Hmask & _ & Hid & ->)];
    simpl.
  - repeat split; try done. intros r ->. done.
  - pose proof (setFields_protected input paths) as Hprot.
    destruct (userUpdateOf_fields input paths) as (_ & Hrs & Hph & Hro & Hem & Hni).
    repeat split; try done.
    + rewrite <- list_fmap_compose. apply list_fmap_ext.
      intros i u _. simpl. by destruct (postgres.hasID _ u).
    + intros i u Hu Hother. rewrite list_lookup_fmap, Hu. simpl.
      rewrite Hcaller in Hother. simpl in Hother. unfold postgres.hasID.
      destruct (Z.eqb_spec (store.ID u) (inputId input)); [|done].
      exfalso. apply Hother. congruence.
    + intros (admin & Hin & Hrole).
      exists (if postgres.hasID (inputId input) admin
              then postgres.setFields (userUpdateOf input paths) admin else admin).
      split.
      * by apply (list_elem_of_fmap_2 (λ r, if postgres.hasID (inputId input) r
                    then postgres.setFields (userUpdateOf input paths) r else r)).
      * destruct (postgres.hasID _ admin); [|done]. simpl. by rewrite Hro.
    + intros r [= <-]. exists caller, input, paths. simpl.
      rewrite Hro, Hem, Hni. clear Hem Hni. simpl.
      repeat split; try done; case_bool_decide; reflexivity.
Qed.

(** X4. A mask that names neither "email" nor "nickname" (say "role" or
    "password") cannot update anything: the driver refuses the statement
    without fields, the handler answers Internal, and nothing changes. *)
Theorem update_user_unknown_paths (ctx : Ctx) (request : UpdateUserRequest)
    (w : World) (caller : store.User) (input : UserInput) (paths : list string) :
  callerOf ctx (db w) = Some caller →
  requestUser request = Some input →
  store.ID caller = inputId input →
  requestUpdateMask request = Some paths → paths ≠ [] →
  "email" ∉ paths → "nickname" ∉ paths →
  UpdateUser ctx request w =
    (Fail Internal "failed to update user: no fields to update", w).
Proof.
  intros Hcaller Hinput Hid Hmask Hne Hemail Hnick.
  unfold UpdateUser. handler. rewrite getCurrentUser_run. simpl.
  fold (callerOf ctx (db w)). rewrite Hcaller, Hinput, Hid, Z.eqb_refl, Hmask. simpl.
  destruct paths as [|path paths]; [done|].
  destruct (userUpdateOf_fields input (path :: paths))
    as (_ & Hrs & Hph & Hro & Hem & Hni).
  rewrite bool_decide_false in Hem, Hni by done.
  unfold postgres.UpdateUser, postgres.updateStatement.
  pose proof (proj2 (updateClauses_empty (λ _, EmptyString)
                       (userUpdateOf input (path :: paths)))) as Hempty.
  destruct (postgres.updateClauses _ _) as [set args]. simpl in Hempty.
  rewrite Hempty by done. simpl. by destruct w.
Qed.

(** X5. DeleteUser never removes the caller: a request for the caller's
    own id is refused, and a successful call removes exactly the rows with
    the requested id, keeping the others in order and the rest of the
    database.  So the caller is still there, an Admin caller leaves an
    administrator, and the removed id is not found afterwards.  A failed
    call changes nothing. *)
Theorem delete_user_spares_caller (ctx : Ctx) (requestId : Z) (w : World) :
  let w' := snd (DeleteUser ctx requestId w) in
  (isOk (fst (DeleteUser ctx requestId w)) = false → w' = w) ∧
  (isOk (fst (DeleteUser ctx requestId w)) = true →
     store.users (db w') =
       List.filter (λ u, negb (postgres.hasID requestId u)) (store.users (db w)) ∧
     GetUser requestId w' = (Fail NotFound "user not found", w')) ∧
  (∀ caller, callerOf ctx (db w) = Some caller →
     fst (DeleteUser ctx (store.ID caller) w) =
       Fail InvalidArgument "cannot delete yourself" ∧
     caller ∈ store.users (db w') ∧
     (store.Role_ caller = store.RoleAdmin → hasAdmin (db w'))) ∧
  sameButUsers (db w) (db w') ∧ header w' = header w.
Proof.
  cbv zeta. unfold DeleteUser. handler. rewrite getCurrentUser_run. simpl.
  fold (callerOf ctx (db w)).
  destruct (callerOf ctx (db w)) as [caller|] eqn:Hcaller; simpl.
  - assert (∀ requestId', store.ID caller ≠ requestId' →
              caller ∈ List.filter (λ u, negb (postgres.hasID requestId' u))
                                   (store.users (db w))) as Hkept.
    { intros requestId' Hne. apply list_elem_of_In, filter_In. split.
      - apply list_elem_of_In. by apply (callerOf_find ctx).
      - unfold postgres.hasID. by destruct (Z.eqb_spec (store.ID caller) requestId'). }
    assert (caller ∈ store.users (db w)) as Hin by (by apply (callerOf_find ctx)).
    destruct (Z.eqb_spec (store.ID caller) requestId) as [Heq|Hne]; simpl.
    + split; [done|]. split; [done|]. split; [|by repeat split].
      intros c [= <-]. rewrite Z.eqb_refl. split; [done|]. split; [done|].
      intros Hrole. by exists caller.
    + split; [done|]. split; [|split; [|by repeat split]].
      * intros _. split; [done|].
        unfold GetUser. handler. rewrite GetUser_find. simpl.
        destruct (List.find _ _) as [u|] eqn:Hfind; [|done].
        apply find_some in Hfind as [Hu Hid].
        apply filter_In in Hu as [_ Hnot]. by rewrite Hid in Hnot.
      * intros c [= <-]. rewrite Z.eqb_refl. split; [done|].
        split; [by apply Hkept|]. intros Hrole. exists caller.
        split; [by apply Hkept|done].
  - split; [done|]. split; [done|]. split; [|by repeat split]. by intros c [=].
Qed.

(** X6. GetUser answers with the stored user of the requested id,
    password hash left out, and with NotFound exactly when no stored user
    has the id; it never writes. *)
Theorem get_user_by_id (requestId : Z) (w : World) :
  snd (GetUser requestId w) = w ∧
  (fst (GetUser requestId w) = Fail NotFound "user not found" ↔
     ∀ u, u ∈ store.users (db w) → store.ID u ≠ requestId) ∧
  (∀ r, fst (GetUser requestId w) = Ok r →
     v1pb.Id r = requestId ∧
     ∃ u, u ∈ store.users (db w) ∧ r = convertUserFromStore u).
Proof.
  unfold GetUser. handler. rewrite GetUser_find.
  destruct (List.find _ _) as [u|] eqn:Hfind; simpl.
  - apply find_some in Hfind as Hu. destruct Hu as [Hin Hid].
    apply Z.eqb_eq in Hid. apply list_elem_of_In in Hin.
    split; [done|]. split; [split; [done|]|].
    + intros Hall. by destruct (Hall u Hin).
    + intros r [= <-]. split; [done|]. eauto.
  - split; [done|]. split; [|done].
    split; [intros _|done]. by apply find_hasID_None.
Qed.

End UserClaims.

Section UserDemo.
Local Existing Instance demo.world.

(** Ann renames herself; her role, and Steven, stay as they were. *)
Lemma update_user_only_own_contact_witness :
  fst (UpdateUser asAnn (annRequest ["nickname"; "role"]) twoUsers) =
    Ok {| v1pb.Id := 2; v1pb.State_ := v1pb.ACTIVE; v1pb.CreatedTime := 1;
          v1pb.UpdatedTime := 1; v1pb.Role_ := v1pb.USER;
          v1pb.Email := "ann@example.com"; v1pb.Nickname := "Ann" |} ∧
  store.users (db (snd (UpdateUser asAnn (annRequest ["nickname"; "role"]) twoUsers))) !! 0%nat =
    Some demo.steven ∧
  hasAdmin (db (snd (UpdateUser asAnn (annRequest ["nickname"; "role"]) twoUsers))).
Proof.
  destruct (update_user_only_own_contact asAnn (annRequest ["nickname"; "role"]) twoUsers)
    as (_ & _ & Hothers & _ & _ & Hadmin & _).
  split; [vm_compute; reflexivity|]. split.
  - apply Hothers; [reflexivity|]. vm_compute. discriminate.
  - apply Hadmin. exists demo.steven. split; [by left|reflexivity].
Defined.

Lemma update_user_unknown_paths_witness :
  UpdateUser asAnn (annRequest ["role"; "password"]) twoUsers =
    (Fail Internal "failed to update user: no fields to update", twoUsers).
Proof.
  apply (update_user_unknown_paths asAnn (annRequest ["role"; "password"]) twoUsers
           (member 2 "ann@example.com")
           {| inputId := 2; inputEmail := "ann@slash.example"; inputNickname := "Ann" |}
           ["role"; "password"]);
    try reflexivity; try discriminate.
  - intros [[=]|[[=]|[]%elem_of_nil]%elem_of_cons]%elem_of_cons.
  - intros [[=]|[[=]|[]%elem_of_nil]%elem_of_cons]%elem_of_cons.
Defined.

(** Steven removes Ann and cannot remove himself. *)
Lemma delete_user_spares_caller_witness :
  store.users (db (snd (DeleteUser demo.asSteven 2 twoUsers))) = [demo.steven] ∧
  fst (DeleteUser demo.asSteven 1 twoUsers) =
    Fail InvalidArgument "cannot delete yourself" ∧
  hasAdmin (db (snd (DeleteUser demo.asSteven 2 twoUsers))).
Proof.
  destruct (delete_user_spares_caller demo.asSteven 2 twoUsers)
    as (_ & _ & Hcaller & _).
  destruct (Hcaller demo.steven) as (Hself & _ & Hadmin); [reflexivity|].
  split; [vm_compute; reflexivity|]. split; [exact Hself|].
  apply Hadmin. reflexivity.
Defined.

Lemma get_user_by_id_witness :
  fst (GetUser 2 twoUsers) = Ok (convertUserFromStore (member 2 "ann@example.com")) ∧
  fst (GetUser 9 twoUsers) = Fail NotFound "user not found".
Proof.
  split; [vm_compute; reflexivity|].
  apply (get_user_by_id 9 twoUsers).
  intros u Hu. vm_compute in Hu.
  repeat (apply elem_of_cons in Hu as [->|Hu]); [discriminate..|by apply elem_of_nil in Hu].
Defined.

End UserDemo.

(** ** More on the access-token registry *)

Section RegistryFacts.
Context `{Externals} (s : APIV1Service).

(** The database after the caller's list has been replaced. *)
Lemma GetUserAccessTokens_upsert d userID l other :
  store.GetUserAccessTokens (store.UpsertUserSetting d userID l) other =
    if decide (userID = other) then l else store.GetUserAccessTokens d other.
Proof.
  unfold store.GetUserAccessTokens, store.UpsertUserSetting. simpl.
  rewrite lookup_insert. by destruct (decide (userID = other)).
Qed.

Lemma CreateUserAccessToken_ok ctx requestId description expiresAt w token w' :
  CreateUserAccessToken s ctx requestId description expiresAt w = (Ok token, w') →
  ∃ user t,
    callerOf ctx (db w) = Some user ∧ store.ID user = requestId ∧
    GenerateAccessToken (ctxNow ctx) (store.Email user) (store.ID user)
      expiresAt (Secret s) = Val (v1pb.AccessToken token) ∧
    parseAccessToken (Secret s) (ctxNow ctx) (v1pb.AccessToken token) = Val t ∧
    IssuedAt (Claims t) = Some (v1pb.IssuedAt token) ∧
    ExpiresAt (Claims t) = v1pb.ExpiresAt token ∧
    v1pb.Description token = description ∧
    w' = {| db := store.UpsertUserSetting (db w) requestId
                    (store.GetUserAccessTokens (db w) requestId ++ [storedOf token]);
            header := header w |}.
Proof.
  unfold CreateUserAccessToken, UpsertAccessTokenToStore. handler.
  rewrite getCurrentUser_run. simpl. fold (callerOf ctx (db w)).
  destruct (callerOf ctx (db w)) as [user|]; [|done].
  destruct (Z.eqb_spec (store.ID user) requestId) as [<-|]; simpl; [|done].
  destruct (GenerateAccessToken _ _ _ _ _) as [tok|] eqn:Hsign; [|done].
  destruct (parseAccessToken _ _ tok) as [t|] eqn:Hparse; [|done].
  destruct (IssuedAt (Claims t)) as [iat|] eqn:Hiat; [|done].
  intros [= <- <-]. exists user, t. simpl. repeat split; done.
Qed.

(** A record of the read, rebuilt from its stored record and the claims. *)
Lemma record_from_claims now (a b : v1pb.UserAccessToken) :
  storedOf a = storedOf b →
  timesFromClaims s now a → timesFromClaims s now b → a = b.
Proof.
  intros Hstored (ta & Hpa & Hia & Hea) (tb & Hpb & Hib & Heb).
  destruct a as [tok desc iat exp], b as [tok' desc' iat' exp'].
  injection Hstored as -> ->. simpl in *.
  rewrite Hpa in Hpb. injection Hpb as <-. congruence.
Qed.

End RegistryFacts.

Section RegistryMore.
Context `{Externals} (s : APIV1Service).

(** X7. Whenever the read of the registry answers, its records are in
    ascending order of issue time, the oldest first (for issue times within
    2^62 seconds of the epoch, where the subtraction of the comparison does
    not wrap). *)
Theorem list_orders_oldest_first (ctx : Ctx) (requestId : Z) (w : World)
    (out : list v1pb.UserAccessToken) :
  fst (ListUserAccessTokens s ctx requestId w) = Ok out →
  Forall inRange out →
  StronglySorted (λ a b, v1pb.IssuedAt a ≤ v1pb.IssuedAt b) out.
Proof. apply ListUserAccessTokens_ascending. Qed.

(** X8. A token that CreateUserAccessToken answers with has been validated
    at that moment and is stored as the last record of the caller's list,
    under the description of the request; a read of the registry by the
    same caller at the same time, when it answers, lists that very
    record. *)
Theorem created_token_is_listed (ctx : Ctx) (requestId : Z) (description : string)
    (expiresAt : option Z) (w w' : World) (token : v1pb.UserAccessToken) :
  CreateUserAccessToken s ctx requestId description expiresAt w = (Ok token, w') →
  store.GetUserAccessTokens (db w') requestId =
    store.GetUserAccessTokens (db w) requestId ++
      [{| storepb.AccessToken_ := v1pb.AccessToken token;
          storepb.Description := description |}] ∧
  survives s (ctxNow ctx) (storedOf token) = true ∧
  (∀ out, fst (ListUserAccessTokens s ctx requestId w') = Ok out → token ∈ out).
Proof.
  intros Hcreate.
  apply CreateUserAccessToken_ok in Hcreate
    as (user & t & Hcaller & Hid & Hgen & Hparse & Hiat & Hexp & Hdesc & ->).
  assert (survives s (ctxNow ctx) (storedOf token) = true) as Hsurvives.
  { unfold survives. simpl. by rewrite Hparse. }
  simpl. rewrite GetUserAccessTokens_upsert, decide_True by done.
  split; [by rewrite <- Hdesc|]. split; [done|].
  intros out Hlist.
  unfold ListUserAccessTokens in Hlist. handler.
  rewrite getCurrentUser_run in Hlist. simpl in Hlist.
  assert (callerOf ctx (store.UpsertUserSetting (db w) requestId
            (store.GetUserAccessTokens (db w) requestId ++ [storedOf token]))
          = Some user) as Hcaller'.
  { by rewrite <- Hcaller. }
  fold (callerOf ctx (store.UpsertUserSetting (db w) requestId
            (store.GetUserAccessTokens (db w) requestId ++ [storedOf token]))) in Hlist.
  rewrite Hcaller', Hid, Z.eqb_refl in Hlist. simpl in Hlist.
  rewrite GetUserAccessTokens_upsert, decide_True in Hlist by done.
  destruct (collectAccessTokens _ _ _ _) as [l| |] eqn:Hrun; simpl in Hlist;
    try discriminate.
  injection Hlist as <-.
  apply collectAccessTokens_ok in Hrun as [Hl Htimes]; [|constructor].
  simpl in Hl.
  assert (storedOf token ∈ storedOf <$> l) as Hin.
  { rewrite Hl, List.filter_app. apply elem_of_app. right. simpl.
    rewrite Hsurvives. by left. }
  apply list_elem_of_fmap in Hin as (a & Ha & Hain).
  rewrite (SortFunc_perm byIssuedAt l).
  assert (token = a) as ->; [|done].
  apply (record_from_claims s (ctxNow ctx)); [done| |].
  - exists t. by repeat split.
  - rewrite Forall_forall in Htimes. by apply Htimes.
Qed.

End RegistryMore.

Section RegistryRoundTrips.
Context `{Externals} (s : APIV1Service).

Lemma parseAccessToken_claims secret now tokenString t seg :
  parseAccessToken secret now tokenString = Val t →
  jwtDecode tokenString = Some seg →
  Claims t = segClaims seg ∧ Header t = segHeader seg.
Proof.
  unfold parseAccessToken, jwt.ParseWithClaims, jwt.ParseUnverified.
  intros Hrun Hdecode. rewrite Hdecode in Hrun.
  destruct (segHeader seg !! "alg") as [[| | |alg]|]; try discriminate.
  destruct (jwt.GetSigningMethod alg); [|discriminate].
  destruct (keyFunc secret _); [|discriminate].
  destruct (negb _); [discriminate|].
  destruct (negb _); [discriminate|].
  by injection Hrun as <-.
Qed.

Lemma CreateUserAccessToken_run ctx requestId description expiresAt w user :
  callerOf ctx (db w) = Some user → store.ID user = requestId →
  CreateUserAccessToken s ctx requestId description expiresAt w =
    match GenerateAccessToken (ctxNow ctx) (store.Email user) (store.ID user)
            expiresAt (Secret s) with
    | Error e => (Fail Internal ("failed to generate access token: " +:+ e), w)
    | Val accessToken =>
        match parseAccessToken (Secret s) (ctxNow ctx) accessToken with
        | Error e => (Fail Internal ("failed to parse access token: " +:+ e), w)
        | Val t =>
            let w' :=
              {| db := store.UpsertUserSetting (db w) requestId
                         (store.GetUserAccessTokens (db w) requestId ++
                          [{| storepb.AccessToken_ := accessToken;
                              storepb.Description := description |}]);
                 header := header w |} in
            match IssuedAt (Claims t) with
            | None => (Panic, w')
            | Some iat =>
                (Ok {| v1pb.AccessToken := accessToken;
                       v1pb.Description := description;
                       v1pb.IssuedAt := iat;
                       v1pb.ExpiresAt := ExpiresAt (Claims t) |}, w')
            end
        end
    end.
Proof.
  intros Hcaller <-.
  unfold CreateUserAccessToken, UpsertAccessTokenToStore. handler.
  rewrite getCurrentUser_run. simpl. fold (callerOf ctx (db w)).
  rewrite Hcaller, Z.eqb_refl. simpl.
  destruct (GenerateAccessToken _ _ _ _ _) as [tok|]; [|done].
  destruct (parseAccessToken _ _ tok) as [t|]; [|done].
  by destruct (IssuedAt (Claims t)).
Qed.

(** X9. Issue and validation round trip.  When the token signed for the
    request decodes to the header and the claims that were signed and its
    signature verifies, and the requested expiry, if any, is ahead,
    CreateUserAccessToken answers with that token, issued now and expiring
    as requested (never, without a request), and appends it to the caller's
    stored list. *)
Theorem create_access_token_round_trip (ctx : Ctx) (requestId : Z)
    (description : string) (expiresAt : option Z) (w : World)
    (user : store.User) (accessToken : string) (seg : Segments) :
  callerOf ctx (db w) = Some user → store.ID user = requestId →
  GenerateAccessToken (ctxNow ctx) (store.Email user) (store.ID user)
    expiresAt (Secret s) = Val accessToken →
  jwtDecode accessToken = Some seg →
  segHeader seg !! "alg" = Some (JStr "HS256") →
  segHeader seg !! "kid" = Some (JStr "v1") →
  segClaims seg = {| Name := store.Email user; Subject := store.ID user;
                     IssuedAt := Some (ctxNow ctx); ExpiresAt := expiresAt |} →
  jwtVerify "HS256" (segSigningString seg) (segSignature seg) (Secret s) = true →
  (∀ exp, expiresAt = Some exp → ctxNow ctx < exp) →
  CreateUserAccessToken s ctx requestId description expiresAt w =
    (Ok {| v1pb.AccessToken := accessToken; v1pb.Description := description;
           v1pb.IssuedAt := ctxNow ctx; v1pb.ExpiresAt := expiresAt |},
     {| db := store.UpsertUserSetting (db w) requestId
                (store.GetUserAccessTokens (db w) requestId ++
                 [{| storepb.AccessToken_ := accessToken;
                     storepb.Description := description |}]);
        header := header w |}).
Proof.
  intros Hcaller Hid Hgen Hdecode Halg Hkid Hclaims Hverify Hahead.
  rewrite (CreateUserAccessToken_run ctx requestId description expiresAt w user)
    by done.
  rewrite Hgen.
  assert (validNow (Secret s) (ctxNow ctx) accessToken) as Hvalid.
  { exists seg. repeat split; try done. rewrite Hclaims. simpl. exact Hahead. }
  apply parseAccessToken_validNow in Hvalid as [t Hparse]. rewrite Hparse.
  destruct (parseAccessToken_claims _ _ _ _ _ Hparse Hdecode) as [-> _].
  by rewrite Hclaims.
Qed.

(** X10. An expiry that is not ahead is refused: when the token signed
    for the request decodes with an expiry at or before now,
    CreateUserAccessToken answers Internal and stores nothing. *)
Theorem create_access_token_past_expiry (ctx : Ctx) (requestId : Z)
    (description : string) (expiresAt : option Z) (w : World)
    (user : store.User) (accessToken : string) (seg : Segments) (exp : Z) :
  callerOf ctx (db w) = Some user → store.ID user = requestId →
  GenerateAccessToken (ctxNow ctx) (store.Email user) (store.ID user)
    expiresAt (Secret s) = Val accessToken →
  jwtDecode accessToken = Some seg →
  ExpiresAt (segClaims seg) = Some exp → exp ≤ ctxNow ctx →
  ∃ msg, CreateUserAccessToken s ctx requestId description expiresAt w =
           (Fail Internal msg, w).
Proof.
  intros Hcaller Hid Hgen Hdecode Hexp Hpast.
  rewrite (CreateUserAccessToken_run ctx requestId description expiresAt w user)
    by done.
  rewrite Hgen.
  destruct (parseAccessToken _ _ accessToken) as [t|e] eqn:Hparse; [|eauto].
  assert (validNow (Secret s) (ctxNow ctx) accessToken) as (seg' & Hdecode' & _ & _ & _ & Hahead).
  { apply parseAccessToken_validNow. eauto. }
  rewrite Hdecode in Hdecode'. injection Hdecode' as <-.
  specialize (Hahead exp Hexp). lia.
Qed.

End RegistryRoundTrips.

Section RegistryDeletes.
Context `{Externals} (s : APIV1Service).

Lemma DeleteUserAccessToken_run ctx accessToken w user :
  callerOf ctx (db w) = Some user →
  DeleteUserAccessToken ctx accessToken w =
    (Ok tt,
     {| db := store.UpsertUserSetting (db w) (store.ID user)
                (List.filter (keeps accessToken)
                   (store.GetUserAccessTokens (db w) (store.ID user)));
        header := header w |}).
Proof.
  intros Hcaller. unfold DeleteUserAccessToken. handler.
  rewrite getCurrentUser_run. simpl. fold (callerOf ctx (db w)).
  rewrite Hcaller. by rewrite dropAccessToken_filter.
Qed.

Lemma callerOf_upsert ctx d userID l :
  callerOf ctx (store.UpsertUserSetting d userID l) = callerOf ctx d.
Proof. done. Qed.

Lemma filter_keeps_twice accessToken (l : list storepb.AccessToken) :
  List.filter (keeps accessToken) (List.filter (keeps accessToken) l) =
    List.filter (keeps accessToken) l.
Proof.
  induction l as [|r l IH]; [done|]. simpl.
  destruct (keeps accessToken r) eqn:Hr; [|done]. simpl. by rewrite Hr, IH.
Qed.

Lemma filter_keeps_fresh accessToken (l : list storepb.AccessToken) :
  (∀ r, r ∈ l → storepb.AccessToken_ r ≠ accessToken) →
  List.filter (keeps accessToken) l = l.
Proof.
  induction l as [|r l IH]; intros Hfresh; [done|]. simpl.
  unfold keeps at 1.
  destruct (String.eqb_spec (storepb.AccessToken_ r) accessToken) as [Heq|_].
  - exfalso. by apply (Hfresh r); [left|].
  - simpl. f_equal. apply IH. intros r' Hr'. apply Hfresh. by right.
Qed.

(** X11. After a delete the caller's list holds no record with the token
    string and still holds every other record; deleting again changes
    nothing.  A delete of the token just created gives the caller's list
    back as it was before the create, when the token string was not
    stored already. *)
Theorem delete_access_token_round_trip (ctx : Ctx) (accessToken : string)
    (w : World) (user : store.User) :
  callerOf ctx (db w) = Some user →
  let w1 := snd (DeleteUserAccessToken ctx accessToken w) in
  (∀ r, r ∈ store.GetUserAccessTokens (db w1) (store.ID user) →
        storepb.AccessToken_ r ≠ accessToken) ∧
  (∀ r, r ∈ store.GetUserAccessTokens (db w) (store.ID user) →
        storepb.AccessToken_ r ≠ accessToken →
        r ∈ store.GetUserAccessTokens (db w1) (store.ID user)) ∧
  DeleteUserAccessToken ctx accessToken w1 = (Ok tt, w1) ∧
  (∀ description expiresAt token w2,
     (∀ r, r ∈ store.GetUserAccessTokens (db w) (store.ID user) →
           storepb.AccessToken_ r ≠ v1pb.AccessToken token) →
     CreateUserAccessToken s ctx (store.ID user) description expiresAt w =
       (Ok token, w2) →
     store.GetUserAccessTokens
       (db (snd (DeleteUserAccessToken ctx (v1pb.AccessToken token) w2)))
       (store.ID user) =
     store.GetUserAccessTokens (db w) (store.ID user)).
Proof.
  intros Hcaller. cbv zeta.
  rewrite (DeleteUserAccessToken_run ctx accessToken w user Hcaller). simpl.
  rewrite GetUserAccessTokens_upsert, decide_True by done.
  split; [|split; [|split]].
  - intros r Hr%list_elem_of_In%filter_In. destruct Hr as [_ Hkeeps].
    unfold keeps in Hkeeps. by destruct (String.eqb_spec (storepb.AccessToken_ r) accessToken).
  - intros r Hr Hne. apply list_elem_of_In, filter_In. split; [by apply list_elem_of_In|].
    unfold keeps. by destruct (String.eqb_spec (storepb.AccessToken_ r) accessToken).
  - rewrite (DeleteUserAccessToken_run ctx accessToken _ user) by done. simpl.
    rewrite GetUserAccessTokens_upsert, decide_True by done.
    rewrite filter_keeps_twice. f_equal. f_equal.
    unfold store.UpsertUserSetting. simpl. f_equal. apply insert_insert_eq.
  - intros description expiresAt token w2 Hfresh Hcreate.
    apply CreateUserAccessToken_ok in Hcreate
      as (user' & t & Hcaller' & _ & _ & _ & _ & _ & _ & ->).
    rewrite (DeleteUserAccessToken_run ctx _ _ user) by done. simpl.
    rewrite !GetUserAccessTokens_upsert, !decide_True by done.
    rewrite List.filter_app, (filter_keeps_fresh _ _ Hfresh). simpl.
    unfold keeps. simpl. rewrite String.eqb_refl. simpl. by rewrite app_nil_r.
Qed.

(** X12. The writes of the registry are scoped to the caller: creating or
    deleting a token leaves the stored list of every other user, the user
    table and the workspace settings as they were, and a create or a read
    for another user's id is refused with PermissionDenied before anything
    is read or written. *)
Theorem registry_scoped_to_caller (ctx : Ctx) (requestId : Z)
    (description accessToken : string) (expiresAt : option Z) (w : World) :
  let afterCreate :=
    db (snd (CreateUserAccessToken s ctx requestId description expiresAt w)) in
  let afterDelete := db (snd (DeleteUserAccessToken ctx accessToken w)) in
  (∀ other, store.ID <$> callerOf ctx (db w) ≠ Some other →
     store.GetUserAccessTokens afterCreate other =
       store.GetUserAccessTokens (db w) other ∧
     store.GetUserAccessTokens afterDelete other =
       store.GetUserAccessTokens (db w) other) ∧
  store.users afterCreate = store.users (db w) ∧
  store.users afterDelete = store.users (db w) ∧
  store.workspaceSettings afterCreate = store.workspaceSettings (db w) ∧
  store.workspaceSettings afterDelete = store.workspaceSettings (db w) ∧
  (∀ user, callerOf ctx (db w) = Some user → store.ID user ≠ requestId →
     CreateUserAccessToken s ctx requestId description expiresAt w =
       (Fail PermissionDenied "Permission denied", w) ∧
     ListUserAccessTokens s ctx requestId w =
       (Fail PermissionDenied "Permission denied", w)).
Proof.
  cbv zeta.
  destruct (callerOf ctx (db w)) as [user|] eqn:Hcaller.
  - rewrite (DeleteUserAccessToken_run ctx accessToken w user Hcaller). simpl.
    assert (∀ user', Some user = Some user' → store.ID user' ≠ requestId →
              CreateUserAccessToken s ctx requestId description expiresAt w =
                (Fail PermissionDenied "Permission denied", w) ∧
              ListUserAccessTokens s ctx requestId w =
                (Fail PermissionDenied "Permission denied", w)) as Hrefused.
    { intros user' [= <-] Hne.
      unfold CreateUserAccessToken, ListUserAccessTokens. handler.
      rewrite getCurrentUser_run. simpl. fold (callerOf ctx (db w)).
      rewrite Hcaller. by destruct (Z.eqb_spec (store.ID user) requestId). }
    destruct (Z.eqb_spec (store.ID user) requestId) as [Heq|Hne].
    + rewrite (CreateUserAccessToken_run s ctx requestId description expiresAt w user)
        by done.
      assert (∀ other, Some (store.ID user) ≠ Some other → store.ID user ≠ other)
        as Hother by (intros other Hne' Heq'; apply Hne'; by rewrite Heq').
      destruct (GenerateAccessToken _ _ _ _ _) as [tok|]; simpl;
        [destruct (parseAccessToken _ _ tok) as [t|]; simpl;
         [destruct (IssuedAt (Claims t)); simpl|]|];
        (split; [|split_and!; try done; intros ? [= <-] ?; congruence]);
        intros other Hne%Hother;
        rewrite ?GetUserAccessTokens_upsert, ?decide_False by congruence; done.
    + destruct (Hrefused user eq_refl Hne) as [Hcreate Hlist].
      rewrite Hcreate. simpl.
      split; [|split_and!; try done; by intros ? [= <-] ?]. intros other Hother.
      rewrite GetUserAccessTokens_upsert, decide_False; [done|].
      intros Heq'. apply Hother. simpl. by rewrite Heq'.
  - assert (CreateUserAccessToken s ctx requestId description expiresAt w = (Panic, w))
      as ->.
    { unfold CreateUserAccessToken. handler. rewrite getCurrentUser_run. simpl.
      fold (callerOf ctx (db w)). by rewrite Hcaller. }
    assert (DeleteUserAccessToken ctx accessToken w = (Panic, w)) as ->.
    { unfold DeleteUserAccessToken. handler. rewrite getCurrentUser_run. simpl.
      fold (callerOf ctx (db w)). by rewrite Hcaller. }
    simpl. split_and!; done.
Qed.

End RegistryDeletes.

Section RegistryMoreDemo.
Local Existing Instance demo.world.

(** Two tokens stored newest first are read oldest first. *)
Lemma list_orders_oldest_first_witness :
  ∃ out,
    fst (ListUserAccessTokens demo.service demo.asSteven 1
           (demo.withTokens [ci; laptop])) = Ok out ∧
    StronglySorted (λ a b, v1pb.IssuedAt a ≤ v1pb.IssuedAt b) out.
Proof.
  eexists. split; [vm_compute; reflexivity|].
  apply (list_orders_oldest_first demo.service demo.asSteven 1
           (demo.withTokens [ci; laptop])); [vm_compute; reflexivity|].
  repeat constructor; vm_compute; congruence.
Defined.

(** Steven, holding a laptop token, creates a session token and reads it
    back. *)
Lemma created_token_is_listed_witness :
  let created :=
    CreateUserAccessToken demo.service demo.asSteven 1 "session" (Some 605800)
      (demo.withTokens [laptop]) in
  store.GetUserAccessTokens (db (snd created)) 1 =
    [laptop; demo.record "tok.session" "session"].
Proof.
  cbv zeta.
  destruct (CreateUserAccessToken demo.service demo.asSteven 1 "session" (Some 605800)
              (demo.withTokens [laptop])) as [[token| |] w'] eqn:Hrun;
    try (vm_compute in Hrun; discriminate).
  destruct (created_token_is_listed demo.service demo.asSteven 1 "session"
              (Some 605800) (demo.withTokens [laptop]) w' token Hrun)
    as (Hstored & _ & _).
  simpl. rewrite Hstored.
  vm_compute in Hrun. injection Hrun as <- <-. reflexivity.
Defined.

Lemma create_access_token_round_trip_witness :
  fst (CreateUserAccessToken demo.service demo.asSteven 1 "session" (Some 605800)
         (demo.withTokens [laptop])) =
    Ok {| v1pb.AccessToken := "tok.session"; v1pb.Description := "session";
          v1pb.IssuedAt := 1000; v1pb.ExpiresAt := Some 605800 |}.
Proof.
  rewrite (create_access_token_round_trip demo.service demo.asSteven 1 "session"
             (Some 605800) (demo.withTokens [laptop]) demo.steven "tok.session"
             (demo.segments "HS256" (Some (JStr "v1")) 1000 (Some 605800) "session"));
    try reflexivity.
  intros exp [= <-]. reflexivity.
Defined.

(** At 700000 the week of the session token is over. *)
Lemma create_access_token_past_expiry_witness :
  ∃ msg,
    CreateUserAccessToken demo.service {| ctxUserID := Some 1; ctxNow := 700000 |} 1
      "session" (Some 605800) (demo.withTokens [laptop]) =
      (Fail Internal msg, demo.withTokens [laptop]).
Proof.
  apply (create_access_token_past_expiry demo.service
           {| ctxUserID := Some 1; ctxNow := 700000 |} 1 "session" (Some 605800)
           (demo.withTokens [laptop]) demo.steven "tok.session"
           (demo.segments "HS256" (Some (JStr "v1")) 1000 (Some 605800) "session")
           605800); try reflexivity.
  vm_compute. discriminate.
Defined.

(** Steven deletes the token of his laptop and phone: the other stays. *)
Lemma delete_access_token_round_trip_witness :
  let w1 := snd (DeleteUserAccessToken demo.asSteven "tok.early"
                   (demo.withTokens [laptop; ci; phone])) in
  store.GetUserAccessTokens (db w1) 1 = [ci] ∧
  DeleteUserAccessToken demo.asSteven "tok.early" w1 = (Ok tt, w1).
Proof.
  cbv zeta.
  destruct (delete_access_token_round_trip demo.service demo.asSteven "tok.early"
              (demo.withTokens [laptop; ci; phone]) demo.steven)
    as (_ & _ & Hagain & _); [reflexivity|].
  split; [vm_compute; reflexivity|exact Hagain].
Defined.

End RegistryMoreDemo.

(** ** More on sessions *)

Section SessionFacts.
Context `{Externals} (s : APIV1Service).

Lemma doSignIn_run ctx user w :
  doSignIn s ctx user (ctxNow ctx + AccessTokenDuration) w =
    match sessionToken s ctx user with
    | Error e =>
        (Ok (Error ("rpc error: code = Internal desc = failed to generate access token: "
                    +:+ e)), w)
    | Val accessToken => (Ok (Val tt), withSession ctx user accessToken w)
    end.
Proof.
  unfold doSignIn, sessionToken, UpsertAccessTokenToStore, withSession, sessionCookie.
  by destruct (GenerateAccessToken _ _ _ _ _); handler.
Qed.

(** SignIn by its cases. *)
Lemma SignIn_run ctx email password w :
  SignIn s ctx email password w =
    match store.GetUser (db w) (byEmail email) with
    | None => (Fail InvalidArgument "unmatched email and password", w)
    | Some user =>
        if negb (CompareHashAndPassword (store.PasswordHash user) password) then
          (Fail InvalidArgument "unmatched email and password", w)
        else if storepb.DisallowPasswordAuth (store.GetWorkspaceSecuritySetting (db w))
                && bool_decide (store.Role_ user = store.RoleUser) then
          (Fail PermissionDenied "password authentication is not allowed", w)
        else
          match store.RowStatus user with
          | storepb.ARCHIVED => (Fail PermissionDenied "user has been archived", w)
          | storepb.NORMAL =>
              match sessionToken s ctx user with
              | Error e =>
                  (Fail Internal
                     ("failed to sign in: rpc error: code = Internal desc = failed to generate access token: "
                      +:+ e), w)
              | Val accessToken =>
                  (Ok (convertUserFromStore user), withSession ctx user accessToken w)
              end
          end
    end.
Proof.
  unfold SignIn. handler. fold (byEmail email).
  destruct (store.GetUser (db w) (byEmail email)) as [user|]; [|done].
  destruct (negb _); [done|].
  destruct (_ && _); [done|].
  destruct (store.RowStatus user); [|done].
  rewrite doSignIn_run. by destruct (sessionToken s ctx user).
Qed.

Lemma mayUsePassword_spec d user :
  mayUsePassword d user ↔
  storepb.DisallowPasswordAuth (store.GetWorkspaceSecuritySetting d)
    && bool_decide (store.Role_ user = store.RoleUser) = false.
Proof.
  unfold mayUsePassword.
  destruct (storepb.DisallowPasswordAuth _); simpl; [|by intuition].
  destruct (store.Role_ user); simpl; split; intros; try done; try (by right).
  by destruct H0.
Qed.

(** The user of a vouched-for request, and the rest of SignInWithSSO. *)
Lemma SignInWithSSO_run ctx idpId code redirectUri userInfo w :
  vouches s idpId code redirectUri userInfo w →
  SignInWithSSO s ctx idpId code redirectUri w =
    let '(found, w0) :=
      match store.GetUser (db w) (byEmail (Identifier userInfo)) with
      | Some user => (Ok user, w)
      | None => provisionUser s ctx (Identifier userInfo) userInfo w
      end in
    match found with
    | Ok user =>
        match store.RowStatus user with
        | storepb.ARCHIVED => (Fail PermissionDenied "user has been archived", w0)
        | storepb.NORMAL =>
            match sessionToken s ctx user with
            | Error e =>
                (Fail Internal
                   ("failed to sign in, err: rpc error: code = Internal desc = failed to generate access token: "
                    +:+ e), w0)
            | Val accessToken =>
                (Ok (convertUserFromStore user), withSession ctx user accessToken w0)
            end
        end
    | Fail c msg => (Fail c msg, w0)
    | Panic => (Panic, w0)
    end.
Proof.
  intros (Hsso & idps & idp & Hsetting & Hfind & Hinfo & Hvalid).
  unfold SignInWithSSO. rewrite Hsso. handler.
  rewrite Hsetting, Hfind, Hinfo, Hvalid. simpl.
  fold (byEmail (Identifier userInfo)).
  destruct (store.GetUser (db w) (byEmail (Identifier userInfo))) as [user|].
  - destruct (store.RowStatus user); [|done].
    rewrite doSignIn_run. by destruct (sessionToken s ctx user).
  - destruct (provisionUser s ctx (Identifier userInfo) userInfo w)
      as [[user| |] w0]; try done.
    destruct (store.RowStatus user); [|done].
    rewrite doSignIn_run. by destruct (sessionToken s ctx user).
Qed.

End SessionFacts.

Section SessionMore.
Context `{Externals} (s : APIV1Service).


(** X14. A sign-in that answers has opened a session: the answer is the
    user of the email, without the password hash; the token signed for
    that user, issued now for the duration of a session, is the last record
    of the user's stored list, under the description "user login", and the
    very same token goes out in the one Set-Cookie header added, which
    expires when the token does.  The user table, the lists of other users
    and the workspace settings are as before. *)
Theorem sign_in_opens_session (ctx : Ctx) (email password : string)
    (w w' : World) (r : v1pb.User) :
  SignIn s ctx email password w = (Ok r, w') →
  ∃ user accessToken,
    store.GetUser (db w) (byEmail email) = Some user ∧
    r = convertUserFromStore user ∧
    GenerateAccessToken (ctxNow ctx) (store.Email user) (store.ID user)
      (Some (ctxNow ctx + AccessTokenDuration)) (Secret s) = Val accessToken ∧
    store.GetUserAccessTokens (db w') (store.ID user) =
      store.GetUserAccessTokens (db w) (store.ID user) ++
        [{| storepb.AccessToken_ := accessToken;
            storepb.Description := "user login" |}] ∧
    header w' =
      header w ++
        [("Set-Cookie",
          AccessTokenCookieName +:+ "=" +:+ accessToken +:+ "; Path=/; Expires=" +:+
          FormatRFC1123 (ctxNow ctx + AccessTokenDuration) +:+
          "; HttpOnly; SameSite=Strict")] ∧
    store.users (db w') = store.users (db w) ∧
    store.workspaceSettings (db w') = store.workspaceSettings (db w) ∧
    (∀ other, other ≠ store.ID user →
       store.GetUserAccessTokens (db w') other =
         store.GetUserAccessTokens (db w) other).
Proof.
  rewrite SignIn_run. intros Hrun.
  destruct (store.GetUser (db w) (byEmail email)) as [user|]; [|discriminate].
  destruct (negb _); [discriminate|].
  destruct (_ && _); [discriminate|].
  destruct (store.RowStatus user); [|discriminate].
  destruct (sessionToken s ctx user) as [accessToken|e] eqn:Htoken; [|discriminate].
  injection Hrun as <- <-.
  exists user, accessToken. split_and!; try done.
  - simpl. by rewrite GetUserAccessTokens_upsert, decide_True.
  - intros other Hother. simpl.
    by rewrite GetUserAccessTokens_upsert, decide_False.
Qed.

(** X15. An archived user gets no session.  A password sign-in for the
    email of an archived user never answers and changes nothing; single
    sign-on for an email the provider vouches for, when it belongs to an
    archived user, is refused with PermissionDenied "user has been
    archived" and changes nothing. *)
Theorem archived_user_locked_out (ctx : Ctx) (w : World) (user : store.User) :
  store.RowStatus user = storepb.ARCHIVED →
  (∀ password,
     store.GetUser (db w) (byEmail (store.Email user)) = Some user →
     isOk (fst (SignIn s ctx (store.Email user) password w)) = false ∧
     snd (SignIn s ctx (store.Email user) password w) = w ∧
     (CompareHashAndPassword (store.PasswordHash user) password = true →
      mayUsePassword (db w) user →
      fst (SignIn s ctx (store.Email user) password w) =
        Fail PermissionDenied "user has been archived")) ∧
  (∀ idpId code redirectUri userInfo,
     vouches s idpId code redirectUri userInfo w →
     store.GetUser (db w) (byEmail (Identifier userInfo)) = Some user →
     SignInWithSSO s ctx idpId code redirectUri w =
       (Fail PermissionDenied "user has been archived", w)).
Proof.
  intros Harchived. split.
  - intros password Hfound. rewrite SignIn_run, Hfound, Harchived.
    destruct (CompareHashAndPassword _ _); simpl; [|done].
    destruct (_ && _) eqn:Hauth; simpl.
    + split_and!; try done. intros _ Hmay%mayUsePassword_spec. congruence.
    + done.
  - intros idpId code redirectUri userInfo Hvouches Hfound.
    rewrite (SignInWithSSO_run s ctx idpId code redirectUri userInfo w Hvouches).
    by rewrite Hfound, Harchived.
Qed.

(** X16. Single sign-on signs in the user the vouched-for email belongs
    to, whatever the workspace says about password authentication and
    without creating a user: the answer is that user and the session is
    opened as by a password sign-in. *)
Theorem sso_signs_in_existing_user (ctx : Ctx) (idpId code redirectUri : string)
    (userInfo : IdentityProviderUserInfo) (w : World) (user : store.User)
    (accessToken : string) :
  vouches s idpId code redirectUri userInfo w →
  store.GetUser (db w) (byEmail (Identifier userInfo)) = Some user →
  store.RowStatus user = storepb.NORMAL →
  sessionToken s ctx user = Val accessToken →
  SignInWithSSO s ctx idpId code redirectUri w =
    (Ok (convertUserFromStore user), withSession ctx user accessToken w) ∧
  store.users (db (withSession ctx user accessToken w)) = store.users (db w) ∧
  (∀ password,
     CompareHashAndPassword (store.PasswordHash user) password = true →
     mayUsePassword (db w) user →
     SignIn s ctx (Identifier userInfo) password w =
       SignInWithSSO s ctx idpId code redirectUri w).
Proof.
  intros Hvouches Hfound Hnormal Htoken.
  rewrite (SignInWithSSO_run s ctx idpId code redirectUri userInfo w Hvouches).
  rewrite Hfound, Hnormal, Htoken. split_and!; try done.
  intros password Hpw Hmay%mayUsePassword_spec.
  by rewrite SignIn_run, Hfound, Hpw, Hmay, Hnormal, Htoken.
Qed.

End SessionMore.

Section SignUpFacts.
Context `{Externals} (s : APIV1Service).

Lemma seatsFull_spec w :
  negb (IsFeatureEnabled s FeatureTypeUnlimitedAccounts) && (Seats s <=? seatsTaken w)
    = false ↔ ¬ seatsFull s w.
Proof.
  unfold seatsFull.
  destruct (IsFeatureEnabled s FeatureTypeUnlimitedAccounts); simpl.
  - split; [by intros _ [? _]|done].
  - destruct (Z.leb_spec (Seats s) (seatsTaken w)); split; try done.
    + intros Hnot. by destruct Hnot.
    + intros _ [_ ?]. lia.
Qed.

Lemma store_CreateUser_run now d email nickname passwordHash role :
  store.CreateUser now d
    {| store.ID := 0; store.CreatedTs := 0; store.UpdatedTs := 0;
       store.RowStatus := storepb.NORMAL; store.Email := email;
       store.Nickname := nickname; store.PasswordHash := passwordHash;
       store.Role_ := role |} =
    if bool_decide (email ∈ store.Email <$> store.users d) then
      (Error "duplicate key value violates unique constraint", d)
    else
      (Val (insertedUser now d email nickname passwordHash role),
       {| store.users :=
            store.users d ++ [insertedUser now d email nickname passwordHash role];
          store.userSeq := store.userSeq d + 1;
          store.accessTokens := store.accessTokens d;
          store.workspaceSettings := store.workspaceSettings d |}).
Proof. done. Qed.

(** SignUp by its cases. *)
Lemma SignUp_run ctx email nickname password w :
  SignUp s ctx email nickname password w =
    if storepb.DisallowUserRegistration (store.GetWorkspaceSecuritySetting (db w)) then
      (Fail PermissionDenied "sign up is not allowed", w)
    else if negb (IsFeatureEnabled s FeatureTypeUnlimitedAccounts)
            && (Seats s <=? seatsTaken w) then
      (capacityError s, w)
    else
      match GenerateFromPassword password with
      | None => (Fail Internal "failed to generate password hash: bcrypt", w)
      | Some passwordHash =>
          if bool_decide (email ∈ store.Email <$> store.users (db w)) then
            (Fail Internal
               "failed to create user: duplicate key value violates unique constraint",
             w)
          else
            let user :=
              insertedUser (ctxNow ctx) (db w) email nickname passwordHash
                (signUpRole (store.users (db w))) in
            match sessionToken s ctx user with
            | Error e =>
                (Fail Internal
                   ("failed to sign in: rpc error: code = Internal desc = failed to generate access token: "
                    +:+ e), withUser user w)
            | Val accessToken =>
                (Ok (convertUserFromStore user),
                 withSession ctx user accessToken (withUser user w))
            end
      end.
Proof.
  unfold SignUp, signUpUser. handler.
  destruct (storepb.DisallowUserRegistration _); [done|].
  rewrite checkSeatAvailability_run.
  destruct (_ && _); simpl; [done|].
  destruct (GenerateFromPassword password) as [passwordHash|]; [|done].
  rewrite ListUsers_findAll, store_CreateUser_run.
  assert ((if (length (store.users (db w)) =? 0)%nat
           then store.RoleAdmin else store.RoleUser) =
          signUpRole (store.users (db w))) as ->
    by (by destruct (store.users (db w))).
  case_bool_decide; [by destruct w|]. simpl.
  rewrite doSignIn_run.
  by destruct (sessionToken s ctx _).
Qed.

Lemma CreateUser_full ctx email nickname password w :
  seatsFull s w → snd (CreateUser s ctx email nickname password w) = w.
Proof.
  intros Hfull. unfold CreateUser.
  destruct (GenerateFromPassword password); [|done].
  unfold bind. by rewrite (checkSeatAvailability_full s w Hfull).
Qed.

(** Appending at most one user, and none when the seats are taken, stays
    within the seats. *)
Lemma appendsAtMost_seats role w w' :
  IsFeatureEnabled s FeatureTypeUnlimitedAccounts = false →
  seatsTaken w ≤ Seats s →
  appendsAtMost role (store.users (db w)) (store.users (db w')) →
  (seatsFull s w → store.users (db w') = store.users (db w)) →
  seatsTaken w' ≤ Seats s.
Proof.
  intros Hlimited Hle Happ Hfull. unfold seatsTaken in *.
  destruct Happ as [Hsame|(user & Hone & _)]; [by rewrite Hsame|].
  destruct (Z.eq_dec (Z.of_nat (length (store.users (db w)))) (Seats s)) as [Heq|Hne].
  - assert (seatsFull s w) as Hf by (split; [done|unfold seatsTaken; lia]).
    apply Hfull in Hf. by rewrite Hf.
  - rewrite Hone, length_app. simpl. lia.
Qed.

Lemma GetUser_byEmail_new (l : list store.User) (user : store.User) d d' :
  store.users d = l → store.users d' = l ++ [user] →
  store.Email user ∉ store.Email <$> l →
  store.GetUser d' (byEmail (store.Email user)) = Some user.
Proof.
  intros Hd Hd' Hnew. unfold store.GetUser, store.ListUsers. rewrite Hd'.
  clear Hd Hd'. induction l as [|u l IH]; simpl.
  - rewrite filter_cons_True; [done|].
    unfold store.matches. simpl. by rewrite String.eqb_refl.
  - rewrite filter_cons_False.
    + apply IH. intros Hin. apply Hnew. simpl. by right.
    + unfold store.matches. simpl.
      destruct (String.eqb_spec (store.Email u) (store.Email user)) as [Heq|_];
        [|by intros ?].
      exfalso. apply Hnew. simpl. rewrite Heq. by left.
Qed.

End SignUpFacts.

Section SignUpMore.
Context `{Externals} (s : APIV1Service).

(** X17. SignUp is not atomic.  When the session token cannot be signed,
    SignUp fails with Internal, yet the user it has just inserted stays in
    the database, and no session is recorded; the email being taken from
    then on, the same request never answers again. *)
Theorem sign_up_not_atomic (ctx : Ctx) (email nickname password : string)
    (w : World) (passwordHash e : string) :
  storepb.DisallowUserRegistration (store.GetWorkspaceSecuritySetting (db w)) = false →
  ¬ seatsFull s w →
  GenerateFromPassword password = Some passwordHash →
  email ∉ store.Email <$> store.users (db w) →
  let user := insertedUser (ctxNow ctx) (db w) email nickname passwordHash
                (signUpRole (store.users (db w))) in
  sessionToken s ctx user = Error e →
  SignUp s ctx email nickname password w =
    (Fail Internal
       ("failed to sign in: rpc error: code = Internal desc = failed to generate access token: "
        +:+ e), withUser user w) ∧
  store.users (db (withUser user w)) = store.users (db w) ++ [user] ∧
  store.accessTokens (db (withUser user w)) = store.accessTokens (db w) ∧
  header (withUser user w) = header w ∧
  (∀ ctx' nickname' password',
     isOk (fst (SignUp s ctx' email nickname' password' (withUser user w))) = false).
Proof.
  intros Hallowed Hseat%seatsFull_spec Hhash Hnew user Htoken.
  split_and!; try done.
  - rewrite SignUp_run, Hallowed, Hseat, Hhash.
    rewrite bool_decide_false by done. cbv zeta. fold user. by rewrite Htoken.
  - intros ctx' nickname' password'. rewrite SignUp_run.
    rewrite (bool_decide_true (email ∈ _)).
    + by repeat case_match.
    + simpl. rewrite fmap_app. apply elem_of_app. right. simpl. by left.
Qed.

(** X18. With accounts limited, no handler takes the user table beyond
    the seats of the license: when the users are within the seats before
    SignUp, CreateUser, SignInWithSSO, UpdateUser or DeleteUser, they are
    within the seats after it, whatever the request and its outcome. *)
Theorem seats_never_exceeded (ctx : Ctx) (w : World) :
  IsFeatureEnabled s FeatureTypeUnlimitedAccounts = false →
  seatsTaken w ≤ Seats s →
  (∀ email nickname password,
     seatsTaken (snd (SignUp s ctx email nickname password w)) ≤ Seats s) ∧
  (∀ email nickname password,
     seatsTaken (snd (CreateUser s ctx email nickname password w)) ≤ Seats s) ∧
  (∀ idpId code redirectUri,
     seatsTaken (snd (SignInWithSSO s ctx idpId code redirectUri w)) ≤ Seats s) ∧
  (∀ request, seatsTaken (snd (UpdateUser ctx request w)) ≤ Seats s) ∧
  (∀ requestId, seatsTaken (snd (DeleteUser ctx requestId w)) ≤ Seats s).
Proof.
  intros Hlimited Hle. split_and!.
  - intros email nickname password.
    apply (appendsAtMost_seats s _ w _ Hlimited Hle (SignUp_users s ctx email nickname password w)).
    intros Hfull. rewrite (SignUp_full s ctx email nickname password w Hfull).
    by destruct (storepb.DisallowUserRegistration _).
  - intros email nickname password.
    apply (appendsAtMost_seats s _ w _ Hlimited Hle
             (CreateUser_users s ctx email nickname password w)).
    intros Hfull. by rewrite (CreateUser_full s ctx email nickname password w Hfull).
  - intros idpId code redirectUri.
    apply (appendsAtMost_seats s _ w _ Hlimited Hle
             (SignInWithSSO_users s ctx idpId code redirectUri w)).
    apply SignInWithSSO_full.
  - intros request. unfold seatsTaken in *.
    destruct (UpdateUser_cases ctx request w)
      as [(o & -> & _)|(caller & input & paths & _ & _ & _ & _ & _ & ->)]; [done|].
    simpl. by rewrite length_fmap.
  - intros requestId. unfold seatsTaken in *. unfold DeleteUser. handler.
    rewrite getCurrentUser_run. simpl.
    destruct (match ctxUserID ctx with Some _ => _ | None => _ end) as [caller|];
      [|done].
    destruct (store.ID caller =? requestId); simpl; [done|].
    pose proof (List.filter_length_le (λ u, negb (postgres.hasID requestId u))
                  (store.users (db w))). lia.
Qed.

(** X19. Who has signed up can sign in.  After a SignUp that answered, a
    password sign-in with the same email and password answers with the
    same user, provided the hash that was stored matches the password,
    password authentication has not been closed to the user, and the
    session token can be signed. *)
Theorem sign_up_then_sign_in (ctx ctx' : Ctx) (email nickname password : string)
    (w w' : World) (r : v1pb.User) (accessToken : string) :
  SignUp s ctx email nickname password w = (Ok r, w') →
  (∀ passwordHash, GenerateFromPassword password = Some passwordHash →
                   CompareHashAndPassword passwordHash password = true) →
  (v1pb.Role_ r = v1pb.ADMIN ∨
   storepb.DisallowPasswordAuth (store.GetWorkspaceSecuritySetting (db w)) = false) →
  GenerateAccessToken (ctxNow ctx') email (v1pb.Id r)
    (Some (ctxNow ctx' + AccessTokenDuration)) (Secret s) = Val accessToken →
  fst (SignIn s ctx' email password w') = Ok r.
Proof.
  rewrite SignUp_run. intros Hrun Hbcrypt Hmay Htoken.
  destruct (storepb.DisallowUserRegistration _); [discriminate|].
  destruct (_ && _); [discriminate|].
  destruct (GenerateFromPassword password) as [passwordHash|] eqn:Hhash;
    [|discriminate].
  case_bool_decide as Hnew; [discriminate|]. cbv zeta in Hrun.
  set (user := insertedUser (ctxNow ctx) (db w) email nickname passwordHash
                 (signUpRole (store.users (db w)))) in *.
  destruct (sessionToken s ctx user) as [tok|]; [|discriminate].
  injection Hrun as <- <-.
  rewrite SignIn_run.
  rewrite (GetUser_byEmail_new (store.users (db w)) user
             (db w) (db (withSession ctx user tok (withUser user w))));
    [|done|done|done].
  simpl. rewrite (Hbcrypt passwordHash eq_refl). simpl.
  change (store.GetWorkspaceSecuritySetting (store.UpsertUserSetting _ _ _))
    with (store.GetWorkspaceSecuritySetting (db w)).
  assert (storepb.DisallowPasswordAuth (store.GetWorkspaceSecuritySetting (db w))
            && bool_decide (signUpRole (store.users (db w)) = store.RoleUser) = false)
    as ->.
  { destruct Hmay as [Hadmin| ->]; [|done].
    simpl in Hadmin. destruct (signUpRole _); [|done].
    by rewrite andb_false_r. }
  unfold sessionToken. simpl. simpl in Htoken. by rewrite Htoken.
Qed.

End SignUpMore.

Section SessionMoreDemo.
Local Existing Instance demo.world.

(** Steven signs in with his password: the session token is stored after
    the token of his laptop and goes out in the cookie. *)
Lemma sign_in_opens_session_witness :
  let w' := snd (SignIn demo.service demo.anonymous "steven@example.com" "hunter2"
                   (demo.withTokens [laptop])) in
  store.GetUserAccessTokens (db w') 1 =
    [laptop; demo.record "tok.session" "user login"] ∧
  header w' =
    [("Set-Cookie",
      "slash.access-token=tok.session; Path=/; Expires=605800; HttpOnly; SameSite=Strict")].
Proof.
  cbv zeta.
  destruct (sign_in_opens_session demo.service demo.anonymous "steven@example.com"
              "hunter2" (demo.withTokens [laptop])
              (snd (SignIn demo.service demo.anonymous "steven@example.com" "hunter2"
                      (demo.withTokens [laptop])))
              (convertUserFromStore demo.steven))
    as (user & accessToken & Hfound & _ & Htoken & Hstored & Hheader & _);
    [vm_compute; reflexivity|].
  vm_compute in Hfound. injection Hfound as <-.
  vm_compute in Htoken. injection Htoken as <-.
  split; [exact Hstored|exact Hheader].
Defined.

(** Ann, archived, knows her password and is turned away. *)
Lemma archived_user_locked_out_witness :
  SignIn demo.service demo.anonymous "ann@example.com" "correct horse"
    (withUsers [demo.steven; archivedAnn] false) =
    (Fail PermissionDenied "user has been archived",
     withUsers [demo.steven; archivedAnn] false).
Proof.
  destruct (archived_user_locked_out demo.service demo.anonymous
              (withUsers [demo.steven; archivedAnn] false) archivedAnn eq_refl)
    as [Hpassword _].
  destruct (Hpassword "correct horse" eq_refl) as (_ & Hsame & Hrefused).
  apply injective_projections; simpl.
  - apply Hrefused; [reflexivity|by left].
  - exact Hsame.
Defined.

Lemma vouches_john :
  vouches demo.service "github" "test-code" callback johnInfo withJohn.
Proof.
  split; [reflexivity|]. exists [office; github], github.
  split_and!; reflexivity.
Qed.

(** John, a user already, comes in through the provider. *)
Lemma sso_signs_in_existing_user_witness :
  fst (SignInWithSSO demo.service demo.anonymous "github" "test-code" callback withJohn) =
    Ok (convertUserFromStore (member 2 "john.doe@example.com")) ∧
  store.users (db (snd (SignInWithSSO demo.service demo.anonymous "github" "test-code"
                          callback withJohn))) =
    [demo.steven; member 2 "john.doe@example.com"].
Proof.
  destruct (sso_signs_in_existing_user demo.service demo.anonymous "github" "test-code"
              callback johnInfo withJohn (member 2 "john.doe@example.com")
              "tok.session" vouches_john eq_refl eq_refl eq_refl)
    as (Hrun & Husers & _).
  rewrite Hrun. split; [reflexivity|exact Husers].
Defined.

(** Five users on five seats: a sign-up leaves five. *)
Lemma seats_never_exceeded_witness :
  seatsTaken (snd (SignUp demo.service demo.anonymous "eve@example.com" "Eve"
                     "correct horse" (withUsers fiveUsers false))) ≤ 5.
Proof.
  destruct (seats_never_exceeded demo.service demo.anonymous
              (withUsers fiveUsers false)) as (Hsignup & _).
  - reflexivity.
  - unfold seatsTaken. simpl. lia.
  - apply Hsignup.
Defined.

(** Ann signs up, then signs in. *)
Lemma sign_up_then_sign_in_witness :
  fst (SignIn demo.service demo.anonymous "ann@example.com" "correct horse"
         (snd (SignUp demo.service demo.anonymous "ann@example.com" "Ann"
                 "correct horse" (withUsers [demo.steven] false)))) =
    Ok (surfaceUser 2 v1pb.USER "ann@example.com" "Ann").
Proof.
  apply (sign_up_then_sign_in demo.service demo.anonymous demo.anonymous
           "ann@example.com" "Ann" "correct horse" (withUsers [demo.steven] false)
           (snd (SignUp demo.service demo.anonymous "ann@example.com" "Ann"
                   "correct horse" (withUsers [demo.steven] false)))
           (surfaceUser 2 v1pb.USER "ann@example.com" "Ann") "tok.session").
  - vm_compute. reflexivity.
  - intros passwordHash [= <-]. vm_compute. reflexivity.
  - right. reflexivity.
  - reflexivity.
Defined.

End SessionMoreDemo.

Section BrokenSignerDemo.
Local Existing Instance brokenSigner.

(** With a signer that refuses the key, Ann's sign-up fails and Ann is a
    user all the same. *)
Lemma sign_up_not_atomic_witness :
  let outcome := SignUp demo.service demo.anonymous "ann@example.com" "Ann"
                   "correct horse" (withUsers [demo.steven] false) in
  isOk (fst outcome) = false ∧
  store.Email <$> store.users (db (snd outcome)) =
    ["steven@example.com"; "ann@example.com"].
Proof.
  cbv zeta.
  destruct (sign_up_not_atomic demo.service demo.anonymous "ann@example.com" "Ann"
              "correct horse" (withUsers [demo.steven] false)
              "bcrypt:correct horse" "key is of invalid type")
    as (Hrun & Husers & _).
  - reflexivity.
  - intros [_ Hle]. unfold seatsTaken in Hle. simpl in Hle. lia.
  - reflexivity.
  - simpl. intros [=]%list_elem_of_singleton.
  - reflexivity.
  - rewrite Hrun. split; [reflexivity|].
    cbn [snd]. rewrite Husers. reflexivity.
Defined.

End BrokenSignerDemo.

(** ** Updating the workspace setting *)

Section SettingFacts.
Import workspace_setting.

Lemma head_omap_upsert_same {A} (rd : storepb.WorkspaceSetting → option A) v x l :
  rd v = Some x → (∀ r, sameKey r v = false → rd r = None) →
  head (omap rd (upsertRow l v)) = Some x.
Proof.
  intros Hv Hother. induction l as [|r l IH]; simpl.
  - by rewrite Hv.
  - destruct (sameKey r v) eqn:Hkey; simpl.
    + by rewrite Hv.
    + by rewrite (Hother r Hkey).
Qed.

Lemma head_omap_upsert_other {A} (rd : storepb.WorkspaceSetting → option A) v l :
  rd v = None → (∀ r, sameKey r v = true → rd r = None) →
  head (omap rd (upsertRow l v)) = head (omap rd l).
Proof.
  intros Hv Hsame. induction l as [|r l IH]; simpl.
  - by rewrite Hv.
  - destruct (sameKey r v) eqn:Hkey; simpl.
    + by rewrite Hv, (Hsame r Hkey).
    + by destruct (rd r).
Qed.

Lemma named_nil {A} path (requested before : A) :
  named [] path requested before = before.
Proof. unfold named. rewrite bool_decide_false; [done|]. apply not_elem_of_nil. Qed.

Lemma named_cons {A} p paths path (requested before : A) :
  named (p :: paths) path requested before =
    if String.eqb p path then requested else named paths path requested before.
Proof.
  unfold named.
  destruct (String.eqb_spec p path) as [->|Hne].
  - rewrite bool_decide_true; [done|]. by left.
  - repeat case_bool_decide; try done.
    + match goal with H : _ ∈ _ :: _ |- _ => apply elem_of_cons in H as [?|?] end;
        [congruence|contradiction].
    + match goal with H : _ ∉ _ :: _ |- _ => exfalso; apply H; by right end.
Qed.

Lemma named_named {A} p paths path (requested before : A) :
  named paths path requested (named [p] path requested before) =
    named (p :: paths) path requested before.
Proof.
  rewrite !named_cons, named_nil.
  destruct (String.eqb p path); [|done].
  unfold named. by case_bool_decide.
Qed.

Lemma written_nil setting d : written setting [] d d.
Proof.
  unfold written. rewrite !named_nil. split_and!; try done.
Qed.

Lemma written_cons setting p paths d d1 d2 :
  written setting [p] d d1 → written setting paths d1 d2 →
  written setting (p :: paths) d d2.
Proof.
  intros (H1 & H2 & H3 & H4 & H5 & H6 & H7) (K1 & K2 & K3 & K4 & K5 & K6 & K7).
  unfold written. split_and!.
  - by rewrite K1, H1, named_named.
  - by rewrite K2, H2, named_named.
  - by rewrite K3, H3, named_named.
  - intros l Hl. by rewrite (K4 l Hl), (H4 l Hl), named_named.
  - intros Hnot. rewrite K5, H5; [done| |].
    + intros [Heq|[]%elem_of_nil]%elem_of_cons. apply Hnot. rewrite Heq. by left.
    + intros Hin. apply Hnot. by right.
  - by rewrite K6, H6, named_named.
  - by rewrite K7, H7, named_named.
Qed.

End SettingFacts.

Section UpdateFacts.
Import workspace_setting.

(** What the four reads find after an upsert. *)
Lemma reads_upsert d v :
  GetWorkspaceGeneralSetting (UpsertWorkspaceSetting d v) =
    default (GetWorkspaceGeneralSetting d) (generalOf v) ∧
  GetShortcutRelatedSetting (UpsertWorkspaceSetting d v) =
    match shortcutRelatedOf v with
    | Some x => Some x
    | None => GetShortcutRelatedSetting d
    end ∧
  store.GetIdentityProviderSetting (UpsertWorkspaceSetting d v) =
    match store.identityProvidersOf v with
    | Some l => Some l
    | None => store.GetIdentityProviderSetting d
    end ∧
  store.GetWorkspaceSecuritySetting (UpsertWorkspaceSetting d v) =
    default (store.GetWorkspaceSecuritySetting d) (store.securityOf v).
Proof.
  unfold GetWorkspaceGeneralSetting, GetShortcutRelatedSetting,
    store.GetIdentityProviderSetting, store.GetWorkspaceSecuritySetting,
    UpsertWorkspaceSetting.
  cbn [store.workspaceSettings].
  destruct v; cbn [generalOf shortcutRelatedOf store.identityProvidersOf store.securityOf];
    repeat match goal with
    | |- context [head (omap ?rd (upsertRow ?l ?v))] =>
        first
          [ rewrite (head_omap_upsert_other rd v l)
              by (first [done | by intros []])
          | erewrite (head_omap_upsert_same rd v _ l)
              by (first [done | by intros []]) ]
    end; done.
Qed.

Lemma written_upsert setting path d v :
  (let '(g, x, l, s) :=
     (workspace_setting.GetWorkspaceGeneralSetting (UpsertWorkspaceSetting d v),
      workspace_setting.GetShortcutRelatedSetting (UpsertWorkspaceSetting d v),
      store.GetIdentityProviderSetting (UpsertWorkspaceSetting d v),
      store.GetWorkspaceSecuritySetting (UpsertWorkspaceSetting d v)) in
   storepb.Branding g =
     named [path] "branding" (v1in.Branding setting)
       (storepb.Branding (GetWorkspaceGeneralSetting d)) ∧
   storepb.CustomStyle g =
     named [path] "custom_style" (v1in.CustomStyle setting)
       (storepb.CustomStyle (GetWorkspaceGeneralSetting d)) ∧
   x = named [path] "default_visibility" (Some (v1in.DefaultVisibility setting))
         (GetShortcutRelatedSetting d) ∧
   (∀ identityProviders,
      convertIdentityProvidersToStore (v1in.IdentityProviders setting) [] =
        Ok identityProviders →
      l = named [path] "identity_providers" (Some identityProviders)
            (store.GetIdentityProviderSetting d)) ∧
   (path ≠ "identity_providers" → l = store.GetIdentityProviderSetting d) ∧
   storepb.DisallowUserRegistration s =
     named [path] "disallow_user_registration" (v1in.DisallowUserRegistration setting)
       (storepb.DisallowUserRegistration (store.GetWorkspaceSecuritySetting d)) ∧
   storepb.DisallowPasswordAuth s =
     named [path] "disallow_password_auth" (v1in.DisallowPasswordAuth setting)
       (storepb.DisallowPasswordAuth (store.GetWorkspaceSecuritySetting d))) →
  written setting [path] d (UpsertWorkspaceSetting d v).
Proof.
  cbv zeta. intros (H1 & H2 & H3 & H4 & H5 & H6 & H7).
  unfold written. split_and!; try done.
  intros Hnot. apply H5. intros ->. apply Hnot. by left.
Qed.

Lemma applyPath_run setting path w :
  let o := fst (applyPath (Some setting) path w) in
  let w' := snd (applyPath (Some setting) path w) in
  sameButSettings (db w) (db w') ∧ header w' = header w ∧
  (isOk o = true → written setting [path] (db w) (db w') ∧ path ∈ knownPaths) ∧
  (isOk o = false → w' = w) ∧
  (path ∉ knownPaths → o = Fail InvalidArgument ("invalid path: " +:+ path)) ∧
  (path ∈ knownPaths →
   (path = "identity_providers" →
    isOk (convertIdentityProvidersToStore (v1in.IdentityProviders setting) []) = true) →
   isOk o = true).
Proof.
  cbv zeta. unfold applyPath.
  repeat
    match goal with
    | |- context [String.eqb path ?name] =>
        destruct (String.eqb_spec path name) as [->|?]
    end;
    try (destruct (convertIdentityProvidersToStore (v1in.IdentityProviders setting) [])
           as [identityProviders| |] eqn:Hconvert);
    unfold upsert; handler;
    (split; [done|]); (split; [done|]);
    (split; [try done|split; [try (by destruct w)|split; [|try done]]]).
  all: try (intros Hnot; exfalso; apply Hnot; unfold knownPaths;
            by repeat (first [left | right])).
  all: try (intros _; split; [|unfold knownPaths; by repeat (first [left | right])];
            apply written_upsert;
            match goal with
            | |- context [UpsertWorkspaceSetting ?d ?v] =>
                destruct (reads_upsert d v) as (-> & -> & -> & ->)
            end;
            simpl; rewrite ?named_cons, ?named_nil; simpl;
            split_and!; try done;
            intros l Hl; rewrite ?named_cons, ?named_nil; simpl; congruence).
  all: try (intros _ Hok; by specialize (Hok eq_refl)).
  all: try (intros _; reflexivity).
  all: intros Hin; exfalso; unfold knownPaths in Hin;
    repeat (apply elem_of_cons in Hin as [->|Hin]; [done|]);
    by apply elem_of_nil in Hin.
Qed.

End UpdateFacts.

Section UpdateLoop.

Lemma sameButSettings_trans d1 d2 d3 :
  sameButSettings d1 d2 → sameButSettings d2 d3 → sameButSettings d1 d3.
Proof. intros (? & ? & ?) (? & ? & ?). split_and!; congruence. Qed.

Lemma applyPaths_run setting paths w :
  let o := fst (applyPaths (Some setting) paths w) in
  let w' := snd (applyPaths (Some setting) paths w) in
  sameButSettings (db w) (db w') ∧ header w' = header w ∧
  (isOk o = true →
   written setting paths (db w) (db w') ∧ Forall (λ path, path ∈ knownPaths) paths).
Proof.
  cbv zeta. revert w. induction paths as [|path paths IH]; intros w; simpl.
  - split; [done|]. split; [done|]. intros _. split; [apply written_nil|constructor].
  - unfold bind.
    pose proof (applyPath_run setting path w) as (Hsame & Hheader & Hok & _).
    destruct (applyPath (Some setting) path w) as [[[]| |] w1]; simpl in *; try done.
    destruct (IH w1) as (Hsame' & Hheader' & Hok').
    split; [by eapply sameButSettings_trans|]. split; [congruence|].
    intros Hrest. destruct (Hok eq_refl) as [Hw Hknown].
    destruct (Hok' Hrest) as [Hw' Hknown'].
    split; [by eapply written_cons|by constructor].
Qed.

Lemma applyPaths_total setting paths w :
  Forall (λ path, path ∈ knownPaths) paths →
  ("identity_providers" ∈ paths →
   isOk (convertIdentityProvidersToStore (v1in.IdentityProviders setting) []) = true) →
  isOk (fst (applyPaths (Some setting) paths w)) = true.
Proof.
  revert w. induction paths as [|path paths IH]; intros w Hknown Hconvert; [done|].
  simpl. unfold bind.
  pose proof (applyPath_run setting path w) as (_ & _ & _ & _ & _ & Hok).
  apply Forall_cons in Hknown as [Hpath Hknown].
  specialize (Hok Hpath).
  destruct (applyPath (Some setting) path w) as [[[]| |] w1]; simpl in *.
  - apply IH; [done|]. intros Hin. apply Hconvert. by right.
  - apply Hok. intros ->. apply Hconvert. by left.
  - apply Hok. intros ->. apply Hconvert. by left.
Qed.

Lemma applyPaths_stop setting good bad rest w :
  Forall (λ path, path ∈ knownPaths) good →
  ("identity_providers" ∈ good →
   isOk (convertIdentityProvidersToStore (v1in.IdentityProviders setting) []) = true) →
  bad ∉ knownPaths →
  applyPaths (Some setting) (good ++ bad :: rest) w =
    (Fail InvalidArgument ("invalid path: " +:+ bad),
     snd (applyPaths (Some setting) good w)).
Proof.
  intros Hknown Hconvert Hbad. revert w Hknown Hconvert.
  induction good as [|path good IH]; intros w Hknown Hconvert; simpl; unfold bind.
  - pose proof (applyPath_run setting bad w) as (_ & _ & _ & Hsame & Hfail & _).
    destruct (applyPath (Some setting) bad w) as [o w1]; simpl in *.
    rewrite (Hfail Hbad) in *. by rewrite Hsame.
  - pose proof (applyPaths_total setting [path] w) as Hok.
    simpl in Hok. unfold bind in Hok.
    apply Forall_cons in Hknown as [Hpath Hknown].
    destruct (applyPath (Some setting) path w) as [[[]| |] w1]; simpl in *.
    + apply IH; [done|]. intros Hin. apply Hconvert. by right.
    + discriminate Hok; [by constructor|].
      intros [<-|[]%elem_of_nil]%elem_of_cons. apply Hconvert. by left.
    + discriminate Hok; [by constructor|].
      intros [<-|[]%elem_of_nil]%elem_of_cons. apply Hconvert. by left.
Qed.

Lemma applyPaths_None path paths w :
  isOk (fst (applyPaths None (path :: paths) w)) = false ∧
  snd (applyPaths None (path :: paths) w) = w.
Proof.
  simpl. unfold bind, applyPath.
  repeat
    match goal with
    | |- context [String.eqb path ?name] => destruct (String.eqb path name)
    end; handler; done.
Qed.

Lemma UpdateWorkspaceSetting_run ctx request w :
  UpdateWorkspaceSetting ctx request w =
    match v1in.UpdateMask request with
    | None | Some [] => (Fail InvalidArgument "update mask is empty", w)
    | Some paths =>
        match applyPaths (v1in.Setting request) paths w with
        | (Ok _, w1) =>
            (match collectSettings (callerOf ctx (db w1))
                     (store.workspaceSettings (db w1)) emptyWorkspaceSetting with
             | Fail c msg =>
                 Fail Internal
                   ("failed to get workspace setting: rpc error: code = " +:+
                    codeName c +:+ " desc = " +:+ msg)
             | r => r
             end, w1)
        | (Fail c msg, w1) => (Fail c msg, w1)
        | (Panic, w1) => (Panic, w1)
        end
    end.
Proof.
  unfold UpdateWorkspaceSetting.
  destruct (v1in.UpdateMask request) as [[|path paths]|]; try done.
  unfold bind.
  destruct (applyPaths _ _ w) as [[[]| |] w1]; try done.
  rewrite GetWorkspaceSetting_run. by destruct (collectSettings _ _ _).
Qed.

End UpdateLoop.

Section ConvertFacts.

Lemma convertIdentityProviderToStore_run i :
  convertIdentityProviderToStore i =
    match v1in.Config i with
    | None =>
        Ok {| storepb.Id := v1in.IdpId i; storepb.Title := v1in.Title i;
              storepb.Type_ := v1in.Type_ i; storepb.Config := None |}
    | Some c =>
        match v1in.FieldMapping_ c with
        | None => Panic
        | Some m =>
            Ok {| storepb.Id := v1in.IdpId i; storepb.Title := v1in.Title i;
                  storepb.Type_ := v1in.Type_ i;
                  storepb.Config := Some
                    {| storepb.ClientId := v1in.ClientId c;
                       storepb.ClientSecret := v1in.ClientSecret c;
                       storepb.AuthUrl := v1in.AuthUrl c;
                       storepb.TokenUrl := v1in.TokenUrl c;
                       storepb.UserInfoUrl := v1in.UserInfoUrl c;
                       storepb.Scopes := v1in.Scopes c;
                       storepb.FieldMapping_ := Some
                         {| storepb.fmIdentifier := v1pb.fmIdentifier m;
                            storepb.fmDisplayName := v1pb.fmDisplayName m |} |} |}
        end
    end.
Proof.
  unfold convertIdentityProviderToStore, convertIdentityProviderConfigToStore.
  destruct (v1in.Config i) as [c|]; [|done].
  by destruct (v1in.FieldMapping_ c).
Qed.

Lemma FromStore_ToStore i p :
  convertIdentityProviderFromStore i = Ok p →
  convertIdentityProviderToStore (sentBack p) = Ok i ∧
  convertIdentityProviderToStore (sentBack (clearClientSecret p)) =
    Ok (blankProvider i).
Proof.
  unfold convertIdentityProviderFromStore, convertIdentityProviderConfigFromStore.
  destruct i as [id title type [c|]]; simpl.
  - destruct c as [? ? ? ? ? ? [m|]]; simpl; [|done].
    intros [= <-]. by destruct m.
  - by intros [= <-].
Qed.

Lemma ToStore_FromStore x y :
  convertIdentityProviderToStore x = Ok y →
  ∃ p, convertIdentityProviderFromStore y = Ok p ∧ sentBack p = x.
Proof.
  rewrite convertIdentityProviderToStore_run.
  destruct x as [id title type [c|]]; simpl.
  - destruct c as [? ? ? ? ? ? [m|]]; simpl; [|done].
    intros [= <-]. eexists. split; [reflexivity|]. by destruct m.
  - intros [= <-]. eexists. split; [reflexivity|done].
Qed.

Lemma convertIdentityProvidersToStore_Forall2 l ys acc :
  Forall2 (λ x y, convertIdentityProviderToStore x = Ok y) l ys →
  convertIdentityProvidersToStore l acc = Ok (acc ++ ys).
Proof.
  intros Hall. revert acc. induction Hall as [|x y l ys Hxy _ IH]; intros acc; simpl.
  - by rewrite app_nil_r.
  - by rewrite Hxy, IH, <- app_assoc.
Qed.

Lemma convertIdentityProvidersToStore_total l acc :
  mappedIn l → isOk (convertIdentityProvidersToStore l acc) = true.
Proof.
  revert acc. induction l as [|i l IH]; intros acc Hmapped; [done|]. simpl.
  rewrite convertIdentityProviderToStore_run.
  destruct (v1in.Config i) as [c|] eqn:Hc.
  - destruct (Hmapped i c) as [m ->]; [by left|done|].
    apply IH. intros i' c' Hi'. apply Hmapped. by right.
  - apply IH. intros i' c' Hi'. apply Hmapped. by right.
Qed.

Lemma export_Forall2 caller l acc out :
  exportIdentityProviders caller l acc = Ok out →
  ∃ ps, out = acc ++ ps ∧
    Forall2 (λ i p, ∃ p', convertIdentityProviderFromStore i = Ok p' ∧
                          p = if notAdmin caller then clearClientSecret p' else p')
            l ps.
Proof.
  revert acc. induction l as [|i l IH]; intros acc; simpl.
  - intros [= <-]. exists []. by rewrite app_nil_r.
  - destruct (convertIdentityProviderFromStore i) as [p'| |] eqn:Hp; [|done..].
    intros (ps & -> & Hall)%IH.
    eexists (_ :: ps). rewrite <- app_assoc. split; [done|].
    constructor; [|done]. by exists p'.
Qed.

(** The providers of an answer come from the last identity-provider row. *)
Lemma collect_providers caller l ws res :
  collectSettings caller l ws = Ok res →
  match lastProviders l with
  | Some idps =>
      exportIdentityProviders caller idps [] = Ok (v1pb.IdentityProviders res)
  | None => v1pb.IdentityProviders res = v1pb.IdentityProviders ws
  end.
Proof.
  unfold lastProviders.
  revert ws. induction l as [|v l IH]; intros ws; simpl.
  - by intros [= <-].
  - destruct v; simpl; try (intros Hrun; by apply (IH _ Hrun)).
    destruct (exportIdentityProviders caller idps []) as [out| |] eqn:Hout;
      [|done..].
    intros Hrun. apply IH in Hrun. rewrite last_cons.
    destruct (last _); [done|]. simpl in Hrun. by rewrite Hrun.
Qed.

End ConvertFacts.

Section UpdateClaims.
Context `{Externals} (s : APIV1Service).

(** X20. An update of the workspace setting that answers has written the
    settings the mask names, and only those: each of the six settings
    reads as the request has it when its path is in the mask and as it read
    before otherwise.  Every path of the mask is one of the six, the answer
    is what a read of the setting by the same caller returns afterwards,
    and users, access tokens and response metadata are untouched. *)
Theorem update_workspace_setting_writes_named (ctx : Ctx)
    (request : v1in.UpdateWorkspaceSettingRequest) (w w' : World)
    (r : v1pb.WorkspaceSetting) :
  UpdateWorkspaceSetting ctx request w = (Ok r, w') →
  ∃ setting paths,
    v1in.Setting request = Some setting ∧
    v1in.UpdateMask request = Some paths ∧ paths ≠ [] ∧
    Forall (λ path, path ∈ knownPaths) paths ∧
    written setting paths (db w) (db w') ∧
    GetWorkspaceSetting ctx w' = (Ok r, w') ∧
    sameButSettings (db w) (db w') ∧ header w' = header w.
Proof.
  rewrite UpdateWorkspaceSetting_run. intros Hrun.
  destruct (v1in.UpdateMask request) as [[|path paths]|]; try discriminate.
  destruct (v1in.Setting request) as [setting|].
  2: { destruct (applyPaths_None path paths w) as [Hfail _].
       destruct (applyPaths None (path :: paths) w) as [[[]| |] w1]; done. }
  pose proof (applyPaths_run setting (path :: paths) w) as (Hsame & Hheader & Hok).
  destruct (applyPaths (Some setting) (path :: paths) w) as [[[]| |] w1];
    try discriminate.
  destruct (Hok eq_refl) as [Hwritten Hknown]. simpl in *.
  assert (w1 = w') as -> by congruence.
  exists setting, (path :: paths). split_and!; try done.
  rewrite GetWorkspaceSetting_run.
  destruct (collectSettings _ _ _); by simplify_eq.
Qed.

(** X21. The update is not atomic.  When a path of the mask is not one of
    the six, the call fails with InvalidArgument "invalid path", but the
    paths before it have been written all the same. *)
Theorem update_workspace_setting_not_atomic (ctx : Ctx)
    (request : v1in.UpdateWorkspaceSettingRequest) (w : World)
    (setting : v1in.WorkspaceSetting) (good rest : list string) (bad : string) :
  v1in.Setting request = Some setting →
  v1in.UpdateMask request = Some (good ++ bad :: rest) →
  Forall (λ path, path ∈ knownPaths) good →
  ("identity_providers" ∈ good → mappedIn (v1in.IdentityProviders setting)) →
  bad ∉ knownPaths →
  fst (UpdateWorkspaceSetting ctx request w) =
    Fail InvalidArgument ("invalid path: " +:+ bad) ∧
  written setting good (db w) (db (snd (UpdateWorkspaceSetting ctx request w))).
Proof.
  intros Hsetting Hmask Hknown Hmapped Hbad.
  assert ("identity_providers" ∈ good →
          isOk (convertIdentityProvidersToStore (v1in.IdentityProviders setting) [])
            = true) as Hconvert.
  { intros Hin. by apply convertIdentityProvidersToStore_total, Hmapped. }
  rewrite UpdateWorkspaceSetting_run, Hmask, Hsetting.
  assert (good ++ bad :: rest ≠ []) as Hne by (by destruct good).
  destruct (good ++ bad :: rest) as [|path paths] eqn:Hpaths; [done|].
  rewrite <- Hpaths, (applyPaths_stop setting good bad rest w) by done.
  simpl. split; [done|].
  pose proof (applyPaths_run setting good w) as (_ & _ & Hok).
  apply Hok. by apply applyPaths_total.
Qed.

(** X22. Whatever the request and its outcome, the update of the workspace
    setting leaves users, access tokens and response metadata alone, and
    what it stores does not depend on who calls: the database after the
    call is the same in every context.  A request without a mask, or with
    an empty one, is refused with InvalidArgument and changes nothing; so
    does nothing a request with a mask and without a setting. *)
Theorem update_workspace_setting_frame (ctx : Ctx)
    (request : v1in.UpdateWorkspaceSettingRequest) (w : World) :
  sameButSettings (db w) (db (snd (UpdateWorkspaceSetting ctx request w))) ∧
  header (snd (UpdateWorkspaceSetting ctx request w)) = header w ∧
  (∀ ctx', db (snd (UpdateWorkspaceSetting ctx' request w)) =
           db (snd (UpdateWorkspaceSetting ctx request w))) ∧
  (v1in.UpdateMask request = None ∨ v1in.UpdateMask request = Some [] →
   UpdateWorkspaceSetting ctx request w =
     (Fail InvalidArgument "update mask is empty", w)) ∧
  (v1in.Setting request = None →
   isOk (fst (UpdateWorkspaceSetting ctx request w)) = false ∧
   snd (UpdateWorkspaceSetting ctx request w) = w).
Proof.
  assert (∀ ctx', db (snd (UpdateWorkspaceSetting ctx' request w)) =
            match v1in.UpdateMask request with
            | None | Some [] => db w
            | Some paths => db (snd (applyPaths (v1in.Setting request) paths w))
            end) as Hdb.
  { intros ctx'. rewrite UpdateWorkspaceSetting_run.
    destruct (v1in.UpdateMask request) as [[|path paths]|]; try done.
    by destruct (applyPaths _ _ w) as [[[]| |] w1]. }
  assert (header (snd (UpdateWorkspaceSetting ctx request w)) =
            match v1in.UpdateMask request with
            | None | Some [] => header w
            | Some paths => header (snd (applyPaths (v1in.Setting request) paths w))
            end) as Hheader.
  { rewrite UpdateWorkspaceSetting_run.
    destruct (v1in.UpdateMask request) as [[|path paths]|]; try done.
    by destruct (applyPaths _ _ w) as [[[]| |] w1]. }
  split_and!.
  - rewrite Hdb. destruct (v1in.UpdateMask request) as [[|path paths]|]; try done.
    destruct (v1in.Setting request) as [setting|].
    + apply applyPaths_run.
    + by destruct (applyPaths_None path paths w) as [_ ->].
  - rewrite Hheader. destruct (v1in.UpdateMask request) as [[|path paths]|]; try done.
    destruct (v1in.Setting request) as [setting|].
    + apply applyPaths_run.
    + by destruct (applyPaths_None path paths w) as [_ ->].
  - intros ctx'. by rewrite !Hdb.
  - rewrite UpdateWorkspaceSetting_run. by intros [-> | ->].
  - intros Hnone. rewrite UpdateWorkspaceSetting_run, Hnone.
    destruct (v1in.UpdateMask request) as [[|path paths]|]; try done.
    destruct (applyPaths_None path paths w) as [Hfail Hsame].
    by destruct (applyPaths None (path :: paths) w) as [[[]| |] w1].
Qed.

(** X23. Closing and opening registration takes effect at once.  After
    an update that answered and whose mask names
    "disallow_user_registration", SignUp is refused with PermissionDenied
    "sign up is not allowed" when the request disallowed registration, and
    goes on to the creation of the user when it allowed it. *)
Theorem registration_switch_takes_effect (ctx : Ctx)
    (request : v1in.UpdateWorkspaceSettingRequest) (w w' : World)
    (r : v1pb.WorkspaceSetting) (setting : v1in.WorkspaceSetting)
    (paths : list string) :
  UpdateWorkspaceSetting ctx request w = (Ok r, w') →
  v1in.Setting request = Some setting →
  v1in.UpdateMask request = Some paths →
  "disallow_user_registration" ∈ paths →
  ∀ ctx' email nickname password,
    SignUp s ctx' email nickname password w' =
      if v1in.DisallowUserRegistration setting
      then (Fail PermissionDenied "sign up is not allowed", w')
      else signUpUser s ctx' email nickname password w'.
Proof.
  intros Hrun Hsetting Hmask Hnamed ctx' email nickname password.
  rewrite UpdateWorkspaceSetting_run, Hmask, Hsetting in Hrun.
  destruct paths as [|path paths]; [discriminate|].
  pose proof (applyPaths_run setting (path :: paths) w) as (_ & _ & Hok).
  destruct (applyPaths (Some setting) (path :: paths) w) as [[[]| |] w1];
    try discriminate.
  destruct (Hok eq_refl) as [(_ & _ & _ & _ & _ & Hreg & _) _]. simpl in Hreg.
  assert (w1 = w') as -> by congruence.
  unfold named in Hreg. rewrite bool_decide_true in Hreg by done.
  unfold SignUp. handler. rewrite Hreg.
  by destruct (v1in.DisallowUserRegistration setting).
Qed.

(** X24. Closing password authentication locks out the users and spares
    the administrators.  After an update that answered, whose mask names
    "disallow_password_auth" and whose request disallows it, a password
    sign-in with the right password is refused with PermissionDenied for a
    user of role User, and opens a session as before for an Admin. *)
Theorem password_switch_spares_admins (ctx : Ctx)
    (request : v1in.UpdateWorkspaceSettingRequest) (w w' : World)
    (r : v1pb.WorkspaceSetting) (setting : v1in.WorkspaceSetting)
    (paths : list string) :
  UpdateWorkspaceSetting ctx request w = (Ok r, w') →
  v1in.Setting request = Some setting →
  v1in.UpdateMask request = Some paths →
  "disallow_password_auth" ∈ paths →
  v1in.DisallowPasswordAuth setting = true →
  ∀ ctx' email password user,
    store.GetUser (db w) (byEmail email) = Some user →
    CompareHashAndPassword (store.PasswordHash user) password = true →
    match store.Role_ user with
    | store.RoleUser =>
        SignIn s ctx' email password w' =
          (Fail PermissionDenied "password authentication is not allowed", w')
    | store.RoleAdmin =>
        ∀ accessToken,
          store.RowStatus user = storepb.NORMAL →
          sessionToken s ctx' user = Val accessToken →
          SignIn s ctx' email password w' =
            (Ok (convertUserFromStore user), withSession ctx' user accessToken w')
    end.
Proof.
  intros Hrun Hsetting Hmask Hnamed Hclosed ctx' email password user Hfound Hpw.
  rewrite UpdateWorkspaceSetting_run, Hmask, Hsetting in Hrun.
  destruct paths as [|path paths]; [discriminate|].
  pose proof (applyPaths_run setting (path :: paths) w) as ((Husers & _) & _ & Hok).
  destruct (applyPaths (Some setting) (path :: paths) w) as [[[]| |] w1];
    try discriminate.
  destruct (Hok eq_refl) as [(_ & _ & _ & _ & _ & _ & Hauth) _].
  simpl in Hauth, Husers.
  assert (w1 = w') as -> by congruence.
  unfold named in Hauth. rewrite bool_decide_true, Hclosed in Hauth by done.
  assert (store.GetUser (db w') (byEmail email) = Some user) as Hfound'.
  { unfold store.GetUser, store.ListUsers in *. by rewrite Husers. }
  rewrite SignIn_run, Hfound', Hpw, Hauth. simpl.
  destruct (store.Role_ user); simpl; [|done].
  by intros accessToken -> ->.
Qed.

(** X25. The two conversions of an identity provider are inverse to each
    other: what was stored from a request reads back as that request, and
    what is read from the store is stored again as it was.  The conversion
    to the store never fails with an error; it panics exactly on an OAuth2
    configuration without field mapping. *)
Theorem identity_provider_round_trip :
  (∀ x stored,
     convertIdentityProviderToStore x = Ok stored →
     ∃ p, convertIdentityProviderFromStore stored = Ok p ∧ sentBack p = x) ∧
  (∀ stored p,
     convertIdentityProviderFromStore stored = Ok p →
     convertIdentityProviderToStore (sentBack p) = Ok stored) ∧
  (∀ x, convertIdentityProviderToStore x = Panic ↔
        ∃ c, v1in.Config x = Some c ∧ v1in.FieldMapping_ c = None) ∧
  (∀ x c msg, convertIdentityProviderToStore x ≠ Fail c msg).
Proof.
  split_and!.
  - apply ToStore_FromStore.
  - intros stored p Hp. by apply FromStore_ToStore.
  - intros x. rewrite convertIdentityProviderToStore_run.
    destruct (v1in.Config x) as [c|].
    + destruct (v1in.FieldMapping_ c) as [m|] eqn:Hm.
      * split; [done|]. intros (c' & [= <-] & ?). congruence.
      * split; [|done]. intros _. by exists c.
    + split; [done|]. by intros (c' & ? & _).
  - intros x c msg. rewrite convertIdentityProviderToStore_run.
    destruct (v1in.Config x) as [c'|]; [|done].
    by destruct (v1in.FieldMapping_ c').
Qed.

(** X26. Saving what was read.  When the identity providers of a read of
    the workspace setting are sent back under the path
    "identity_providers", an Admin stores the provider list as it was,
    while a caller who was shown the secrets blanked stores the list with
    every client secret empty: the stored secrets are gone. *)
Theorem saving_what_was_read (ctx : Ctx) (w : World) (ws : v1pb.WorkspaceSetting)
    (identityProviders : list storepb.IdentityProvider) :
  fst (GetWorkspaceSetting ctx w) = Ok ws →
  lastProviders (store.workspaceSettings (db w)) = Some identityProviders →
  let request :=
    {| v1in.Setting := Some (settingSentBack ws);
       v1in.UpdateMask := Some ["identity_providers"] |} in
  store.GetIdentityProviderSetting (db (snd (UpdateWorkspaceSetting ctx request w))) =
    Some (if notAdmin (callerOf ctx (db w))
          then blankProvider <$> identityProviders
          else identityProviders).
Proof.
  rewrite GetWorkspaceSetting_run. simpl. intros Hread Hlast. cbv zeta.
  apply collect_providers in Hread. rewrite Hlast in Hread.
  apply export_Forall2 in Hread as (ps & Hps & Hall). simpl in Hps.
  assert (convertIdentityProvidersToStore (sentBack <$> ps) [] =
            Ok (if notAdmin (callerOf ctx (db w))
                then blankProvider <$> identityProviders
                else identityProviders)) as Hconvert.
  { rewrite (convertIdentityProvidersToStore_Forall2 (sentBack <$> ps)
               (if notAdmin (callerOf ctx (db w))
                then blankProvider <$> identityProviders
                else identityProviders) []); [done|].
    clear Hps Hlast. induction Hall as [|i p l ps' (p' & Hp' & ->) _ IH].
    - destruct (notAdmin _); constructor.
    - destruct (FromStore_ToStore i p' Hp') as [Hsame Hblank].
      destruct (notAdmin _); simpl; by constructor. }
  rewrite UpdateWorkspaceSetting_run. simpl.
  unfold bind, applyPath. simpl. rewrite Hps, Hconvert.
  unfold upsert. handler.
  match goal with
  | |- context [workspace_setting.UpsertWorkspaceSetting ?d ?v] =>
      destruct (reads_upsert d v) as (_ & _ & Hidp & _)
  end.
  simpl in Hidp.
  by repeat case_match.
Qed.

End UpdateClaims.

Section UpdateDemo.
Local Existing Instance demo.world.

(** Steven renames the workspace and closes registration. *)
Lemma update_workspace_setting_writes_named_witness :
  let w' := snd (UpdateWorkspaceSetting demo.asSteven
                   (lockDown ["branding"; "disallow_user_registration"]) twoUsers) in
  storepb.Branding (workspace_setting.GetWorkspaceGeneralSetting (db w')) = "Slash" ∧
  store.GetWorkspaceSecuritySetting (db w') =
    {| storepb.DisallowUserRegistration := true;
       storepb.DisallowPasswordAuth := false |}.
Proof.
  cbv zeta.
  destruct (UpdateWorkspaceSetting demo.asSteven
              (lockDown ["branding"; "disallow_user_registration"]) twoUsers)
    as [[r| |] w'] eqn:Hrun; try (vm_compute in Hrun; discriminate).
  destruct (update_workspace_setting_writes_named demo.asSteven
              (lockDown ["branding"; "disallow_user_registration"]) twoUsers w' r Hrun)
    as (setting & paths & [= <-] & [= <-] & _ & _ & Hwritten & _).
  destruct Hwritten as (Hbranding & _ & _ & _ & _ & Hregistration & Hpassword).
  split; [exact Hbranding|].
  simpl. destruct (store.GetWorkspaceSecuritySetting (db w')).
  simpl in Hregistration, Hpassword. by rewrite Hregistration, Hpassword.
Defined.

(** The second path is unknown: the call fails, and the workspace has its
    new name. *)
Lemma update_workspace_setting_not_atomic_witness :
  fst (UpdateWorkspaceSetting demo.asSteven (lockDown ["branding"; "theme"]) twoUsers) =
    Fail InvalidArgument "invalid path: theme" ∧
  storepb.Branding
    (workspace_setting.GetWorkspaceGeneralSetting
       (db (snd (UpdateWorkspaceSetting demo.asSteven (lockDown ["branding"; "theme"])
                   twoUsers)))) = "Slash".
Proof.
  destruct (update_workspace_setting_not_atomic demo.asSteven
              (lockDown ["branding"; "theme"]) twoUsers lockedDown ["branding"] []
              "theme") as [Hfail (Hbranding & _)].
  - reflexivity.
  - reflexivity.
  - repeat constructor.
  - intros [[=]|[]%elem_of_nil]%elem_of_cons.
  - unfold knownPaths. intros Hin.
    repeat (apply elem_of_cons in Hin as [[=]|Hin]).
    by apply elem_of_nil in Hin.
  - split; [exact Hfail|exact Hbranding].
Defined.

(** Once Steven has closed registration, Eve cannot sign up. *)
Lemma registration_switch_takes_effect_witness :
  let w' := snd (UpdateWorkspaceSetting demo.asSteven
                   (lockDown ["disallow_user_registration"]) twoUsers) in
  SignUp demo.service demo.anonymous "eve@example.com" "Eve" "correct horse" w' =
    (Fail PermissionDenied "sign up is not allowed", w').
Proof.
  cbv zeta.
  destruct (UpdateWorkspaceSetting demo.asSteven
              (lockDown ["disallow_user_registration"]) twoUsers)
    as [[r| |] w'] eqn:Hrun; try (vm_compute in Hrun; discriminate).
  apply (registration_switch_takes_effect demo.service demo.asSteven
           (lockDown ["disallow_user_registration"]) twoUsers w' r lockedDown
           ["disallow_user_registration"] Hrun eq_refl eq_refl).
  by left.
Defined.

(** Once Steven has closed password authentication, Ann cannot sign in
    with her password. *)
Lemma password_switch_spares_admins_witness :
  let w' := snd (UpdateWorkspaceSetting demo.asSteven
                   (lockDown ["disallow_password_auth"]) twoUsers) in
  SignIn demo.service demo.anonymous "ann@example.com" "correct horse" w' =
    (Fail PermissionDenied "password authentication is not allowed", w').
Proof.
  cbv zeta.
  destruct (UpdateWorkspaceSetting demo.asSteven
              (lockDown ["disallow_password_auth"]) twoUsers)
    as [[r| |] w'] eqn:Hrun; try (vm_compute in Hrun; discriminate).
  apply (password_switch_spares_admins demo.service demo.asSteven
           (lockDown ["disallow_password_auth"]) twoUsers w' r lockedDown
           ["disallow_password_auth"] Hrun eq_refl eq_refl (ltac:(by left)) eq_refl
           demo.anonymous "ann@example.com" "correct horse"
           (member 2 "ann@example.com") eq_refl eq_refl).
Defined.

(** Ann, who is no administrator, saves the providers she was shown: the
    stored client secret is gone. *)
Lemma saving_what_was_read_witness :
  ∃ ws,
    fst (GetWorkspaceSetting asAnn (withProvider github)) = Ok ws ∧
    store.GetIdentityProviderSetting
      (db (snd (UpdateWorkspaceSetting asAnn
                  {| v1in.Setting := Some (settingSentBack ws);
                     v1in.UpdateMask := Some ["identity_providers"] |}
                  (withProvider github)))) =
      Some [blankProvider github].
Proof.
  eexists. split; [vm_compute; reflexivity|].
  apply (saving_what_was_read asAnn (withProvider github) _ [github]);
    vm_compute; reflexivity.
Defined.

End UpdateDemo.

(** ** Reading users *)

Section UserReads.
Context `{Externals} (s : APIV1Service).

Lemma convertUserFromStore_withoutHash u :
  convertUserFromStore (withoutHash u) = convertUserFromStore u.
Proof. done. Qed.

Lemma find_withoutHash id (l1 l2 : list store.User) :
  withoutHash <$> l1 = withoutHash <$> l2 →
  convertUserFromStore <$> List.find (postgres.hasID id) l1 =
    convertUserFromStore <$> List.find (postgres.hasID id) l2.
Proof.
  revert l2. induction l1 as [|u1 l1 IH]; intros [|u2 l2] Hsame; try done.
  assert (withoutHash u1 = withoutHash u2 ∧
          withoutHash <$> l1 = withoutHash <$> l2) as [Hu Hl].
  { rewrite !fmap_cons in Hsame. split; congruence. }
  simpl.
  assert (store.ID u1 = store.ID u2) as Hid by exact (f_equal store.ID Hu).
  unfold postgres.hasID at 1 3. rewrite Hid.
  destruct (store.ID u2 =? id); [|by apply IH].
  simpl. by rewrite <- (convertUserFromStore_withoutHash u1), Hu.
Qed.

(** X27. The password hash never leaves through the user reads.  ListUsers,
    GetUser and GetAuthStatus answer the same on any two databases that
    hold the same users up to their password hashes, and none of the three
    writes. *)
Theorem user_reads_hide_password_hash (ctx : Ctx) (requestId : Z) (w1 w2 : World) :
  sameButHashes (db w1) (db w2) →
  fst (ListUsers w1) = fst (ListUsers w2) ∧
  fst (GetUser requestId w1) = fst (GetUser requestId w2) ∧
  fst (GetAuthStatus ctx w1) = fst (GetAuthStatus ctx w2) ∧
  snd (ListUsers w1) = w1 ∧ snd (GetUser requestId w1) = w1 ∧
  snd (GetAuthStatus ctx w1) = w1.
Proof.
  intros Hsame. unfold sameButHashes in Hsame.
  assert (∀ id, convertUserFromStore <$> store.GetUser (db w1) (byID id) =
                convertUserFromStore <$> store.GetUser (db w2) (byID id)) as Hfind.
  { intros id. rewrite !GetUser_find. by apply find_withoutHash. }
  split_and!.
  - unfold ListUsers. handler. rewrite !ListUsers_findAll. f_equal.
    rewrite <- (list_fmap_ext (convertUserFromStore ∘ withoutHash) convertUserFromStore
                  (store.users (db w1)) (λ _ _ _, eq_refl)).
    rewrite <- (list_fmap_ext (convertUserFromStore ∘ withoutHash) convertUserFromStore
                  (store.users (db w2)) (λ _ _ _, eq_refl)).
    by rewrite !list_fmap_compose, Hsame.
  - unfold GetUser. handler. specialize (Hfind requestId).
    destruct (store.GetUser (db w1) _) as [u1|], (store.GetUser (db w2) _) as [u2|];
      try discriminate Hfind; [|done].
    cbn in *. congruence.
  - unfold GetAuthStatus. handler. rewrite !getCurrentUser_run. simpl.
    destruct (ctxUserID ctx) as [id|]; [|done]. specialize (Hfind id).
    fold (byID id).
    destruct (store.GetUser (db w1) _) as [u1|], (store.GetUser (db w2) _) as [u2|];
      try discriminate Hfind; [|done].
    cbn in *. congruence.
  - done.
  - unfold GetUser. handler. by destruct (store.GetUser _ _).
  - unfold GetAuthStatus. handler. rewrite getCurrentUser_run. simpl.
    by destruct (match ctxUserID ctx with Some _ => _ | None => _ end).
Qed.

(** X28. The auth status follows the user.  GetAuthStatus answers as
    GetUser does on the user id of the session, with Unauthenticated in the
    place of NotFound and for a request without session; it never writes.
    Once the user of a session has been deleted, the session is dead:
    GetAuthStatus answers Unauthenticated and the registry read, which
    reads through the missing user, panics, while the access tokens of the
    deleted user are still stored. *)
Theorem auth_status_follows_the_user (ctx : Ctx) (w : World) :
  snd (GetAuthStatus ctx w) = w ∧
  (ctxUserID ctx = None →
   fst (GetAuthStatus ctx w) = Fail Unauthenticated "user not found") ∧
  (∀ id, ctxUserID ctx = Some id →
     fst (GetAuthStatus ctx w) =
       match fst (GetUser id w) with
       | Ok user => Ok user
       | _ => Fail Unauthenticated "user not found"
       end) ∧
  (∀ id admin, ctxUserID ctx = Some id →
     isOk (fst (DeleteUser admin id w)) = true →
     let w' := snd (DeleteUser admin id w) in
     fst (GetAuthStatus ctx w') = Fail Unauthenticated "user not found" ∧
     fst (ListUserAccessTokens s ctx id w') = Panic ∧
     store.GetUserAccessTokens (db w') id = store.GetUserAccessTokens (db w) id).
Proof.
  split_and!.
  - unfold GetAuthStatus. handler. rewrite getCurrentUser_run. simpl.
    by destruct (match ctxUserID ctx with Some _ => _ | None => _ end).
  - intros Hnone. unfold GetAuthStatus. handler. rewrite getCurrentUser_run.
    by rewrite Hnone.
  - intros id Hid. unfold GetAuthStatus, GetUser. handler.
    rewrite getCurrentUser_run, Hid. simpl.
    by destruct (store.GetUser (db w) (byID id)).
  - intros id admin Hid Hok. cbv zeta.
    unfold DeleteUser in *. handler. rewrite getCurrentUser_run in *. simpl in *.
    destruct (match ctxUserID admin with Some _ => _ | None => _ end) as [caller|];
      [|discriminate].
    destruct (store.ID caller =? id); [discriminate|]. simpl.
    assert (store.GetUser (postgres.DeleteUser (db w) id) (byID id) = None) as Hgone.
    { rewrite GetUser_find. apply find_hasID_None. simpl.
      intros u [_ Hu]%list_elem_of_In%filter_In.
      unfold postgres.hasID in Hu. by destruct (Z.eqb_spec (store.ID u) id). }
    split_and!.
    + unfold GetAuthStatus. handler. rewrite getCurrentUser_run, Hid. simpl.
      fold (byID id). by rewrite Hgone.
    + unfold ListUserAccessTokens. handler. rewrite getCurrentUser_run, Hid. simpl.
      fold (byID id). by rewrite Hgone.
    + done.
Qed.

End UserReads.

Section UserReadsDemo.
Local Existing Instance demo.world.

Lemma user_reads_hide_password_hash_witness :
  fst (ListUsers twoUsers) = fst (ListUsers rehashed) ∧
  fst (GetUser 2 twoUsers) = fst (GetUser 2 rehashed).
Proof.
  destruct (user_reads_hide_password_hash demo.asSteven 2 twoUsers rehashed)
    as (Hlist & Hget & _); [reflexivity|].
  split; [exact Hlist|exact Hget].
Defined.

End UserReadsDemo.

Section DeleteFacts.

Lemma delete_gone ctx requestId w :
  isOk (fst (DeleteUser ctx requestId w)) = true →
  store.GetUser (db (snd (DeleteUser ctx requestId w))) (byID requestId) = None.
Proof.
  unfold DeleteUser. handler. rewrite getCurrentUser_run. simpl.
  destruct (match ctxUserID ctx with Some _ => _ | None => _ end) as [caller|];
    [|discriminate].
  destruct (store.ID caller =? requestId); [discriminate|]. simpl. intros _.
  rewrite GetUser_find. apply find_hasID_None. simpl.
  intros u [_ Hu]%list_elem_of_In%filter_In.
  unfold postgres.hasID in Hu. by destruct (Z.eqb_spec (store.ID u) requestId).
Qed.

End DeleteFacts.

(** ** The instance owner *)

Section OwnerCache.
Context `{Externals} (s : APIV1Service).
Variable orderBy : list store.User → list store.User.
Variable UserNamePrefix : string.
Variable serverProfile : Profile.
Variable Subscription : Type.
Variable GetSubscription : Subscription.
Hypothesis orderBy_perm : ∀ l, orderBy l ≡ₚ l.

Lemma firstUser_admin d :
  match firstUser orderBy d (byRole store.RoleAdmin) with
  | Some user => user ∈ store.users d ∧ store.Role_ user = store.RoleAdmin
  | None => ∀ user, user ∈ store.users d → store.Role_ user ≠ store.RoleAdmin
  end.
Proof.
  unfold firstUser, store.ListUsers.
  set (admins := filter _ (store.users d)).
  assert (∀ user, user ∈ admins ↔
            user ∈ store.users d ∧ store.Role_ user = store.RoleAdmin) as Hadmins.
  { intros user. unfold admins. rewrite list_elem_of_filter.
    unfold store.matches. simpl. rewrite bool_decide_eq_true. tauto. }
  pose proof (orderBy_perm admins) as Hperm.
  destruct (orderBy admins) as [|user rest] eqn:Hordered; simpl.
  - apply Permutation_nil in Hperm.
    intros user Hin Hrole.
    assert (user ∈ admins) as Habs by (by apply Hadmins).
    rewrite Hperm in Habs. by apply elem_of_nil in Habs.
  - apply Hadmins. rewrite <- Hperm. by left.
Qed.

(** X29. The owner cache is never invalidated.  With an empty cache,
    GetInstanceOwner answers with an Admin of the database and caches that
    answer, or answers nil, caching nothing, exactly when no user is an
    Admin.  With a cached owner it answers the cached owner for every
    database: once the owner has been deleted, GetInstanceOwner and the
    workspace profile still name that user, whom GetUser no longer
    finds. *)
Theorem owner_cache_is_never_invalidated (ctx : Ctx) (w : World) :
  let first := GetInstanceOwner orderBy None (db w) in
  snd first = fst first ∧
  match fst first with
  | Some owner =>
      ∃ user, user ∈ store.users (db w) ∧ store.Role_ user = store.RoleAdmin ∧
              owner = convertUserFromStore user
  | None => ∀ user, user ∈ store.users (db w) → store.Role_ user ≠ store.RoleAdmin
  end ∧
  (∀ owner d, GetInstanceOwner orderBy (Some owner) d = (Some owner, Some owner)) ∧
  (∀ owner, fst first = Some owner →
     isOk (fst (DeleteUser ctx (v1pb.Id owner) w)) = true →
     let w' := snd (DeleteUser ctx (v1pb.Id owner) w) in
     fst (GetInstanceOwner orderBy (snd first) (db w')) = Some owner ∧
     fst (GetUser (v1pb.Id owner) w') = Fail NotFound "user not found" ∧
     profileOwner
       (fst (GetWorkspaceProfile orderBy UserNamePrefix serverProfile Subscription
               GetSubscription (snd first) (db w'))) =
       UserNamePrefix +:+ pretty (v1pb.Id owner)).
Proof.
  cbv zeta.
  assert (snd (GetInstanceOwner orderBy None (db w)) =
          fst (GetInstanceOwner orderBy None (db w))) as Hcache.
  { unfold GetInstanceOwner. by destruct (firstUser _ _ _). }
  split_and!; try done.
  - pose proof (firstUser_admin (db w)) as Hfirst.
    unfold GetInstanceOwner.
    destruct (firstUser orderBy (db w) (byRole store.RoleAdmin)) as [user|]; simpl.
    + destruct Hfirst. by exists user.
    + done.
  - intros owner Howner Hdeleted. rewrite Hcache, Howner.
    unfold GetWorkspaceProfile. simpl. split_and!; try done.
    pose proof (delete_gone ctx (v1pb.Id owner) w Hdeleted) as Hgone.
    unfold GetUser. handler. by rewrite Hgone.
Qed.

End OwnerCache.

Section OwnerCacheDemo.
Local Existing Instance demo.world.

(** Steven is the owner; Ann deletes him; the profile still names him. *)
Lemma owner_cache_is_never_invalidated_witness :
  let first := GetInstanceOwner id None (db twoUsers) in
  let w' := snd (DeleteUser asAnn 1 twoUsers) in
  fst first = Some (convertUserFromStore demo.steven) ∧
  profileOwner
    (fst (GetWorkspaceProfile id usersPrefix devProfile unit tt (snd first) (db w'))) =
    "users/1" ∧
  fst (GetUser 1 w') = Fail NotFound "user not found".
Proof.
  cbv zeta.
  destruct (owner_cache_is_never_invalidated id usersPrefix devProfile unit tt
              (λ l, reflexivity l) asAnn twoUsers) as (_ & _ & _ & Hstale).
  destruct (Hstale (convertUserFromStore demo.steven)) as (_ & Hgone & Hprofile);
    [reflexivity|reflexivity|].
  split; [reflexivity|]. split; [exact Hprofile|exact Hgone].
Defined.

End OwnerCacheDemo.

(** ** Collections *)

Section CollectionClaims.
Context `{collection.Store} (s : APIV1Service).
Variable collectionsLimit : Z.

Lemma notCreatorNorAdmin_false found user :
  notCreatorNorAdmin found user = false ↔ mayWrite user found.
Proof.
  unfold notCreatorNorAdmin, mayWrite.
  destruct (Z.eqb_spec (collection.CreatorId found) (store.ID user)); simpl.
  - split; [by left|done].
  - case_bool_decide; simpl; split; try done; [by right|].
    by intros [?|?].
Qed.

(** X30. The gates of the collection handlers, for any store.  A read
    answers with the stored collection, and for a request without session
    only when the collection is public.  A delete or an update reaches the
    store only for a signed-in caller who created the collection or is an
    Admin, and a create only for a signed-in caller, with a name and a
    title, below the limit of collections unless they are unlimited; the
    creator that is recorded is the caller.  In every other case the call
    does not answer and the store is as it was. *)
Theorem collection_gates (ctx : Ctx) (w : World) (st : collection.State) :
  (∀ requestId message,
     GetCollection ctx requestId w st = Ok message →
     ∃ c, collection.GetCollection st (collectionByID requestId) = Some c ∧
          message = convertCollectionFromStore c ∧
          (callerOf ctx (db w) = None → collection.Visibility c = storepb.PUBLIC)) ∧
  (∀ requestName message,
     GetCollectionByName ctx requestName w st = Ok message →
     ∃ c, collection.GetCollection st (collectionByName requestName) = Some c ∧
          message = convertCollectionFromStore c ∧
          (callerOf ctx (db w) = None → collection.Visibility c = storepb.PUBLIC)) ∧
  (∀ requestId,
     let r := DeleteCollection ctx requestId w st in
     (∃ user found,
        callerOf ctx (db w) = Some user ∧
        collection.GetCollection st (collectionByID requestId) = Some found ∧
        mayWrite user found ∧
        snd r = snd (collection.DeleteCollection st (collection.Id found))) ∨
     (isOk (fst r) = false ∧ snd r = st)) ∧
  (∀ requestCollection requestUpdateMask,
     let r := UpdateCollection ctx requestCollection requestUpdateMask w st in
     (∃ user c found paths,
        callerOf ctx (db w) = Some user ∧ requestCollection = Some c ∧
        requestUpdateMask = Some paths ∧
        collection.GetCollection st (collectionByID (collection.mId c)) = Some found ∧
        mayWrite user found ∧
        snd r = snd (collection.UpdateCollection st (collectionUpdateOf found c paths))) ∨
     (isOk (fst r) = false ∧ snd r = st)) ∧
  (∀ requestCollection,
     let r := CreateCollection s collectionsLimit ctx requestCollection w st in
     (∃ user c,
        callerOf ctx (db w) = Some user ∧ requestCollection = Some c ∧
        collection.mName c ≠ EmptyString ∧ collection.mTitle c ≠ EmptyString ∧
        (IsFeatureEnabled s FeatureTypeUnlimitedCollections = true ∨
         Z.of_nat (length (collection.ListCollections st)) < collectionsLimit) ∧
        collection.CreatorId (collectionCreate user c) = store.ID user ∧
        snd r = snd (collection.CreateCollection st (collectionCreate user c))) ∨
     (isOk (fst r) = false ∧ snd r = st)).
Proof.
  assert (∀ found message,
            showCollection ctx w found = Ok message →
            ∃ c, found = Some c ∧ message = convertCollectionFromStore c ∧
                 (callerOf ctx (db w) = None →
                  collection.Visibility c = storepb.PUBLIC)) as Hshow.
  { intros [c|] message; unfold showCollection; [|done].
    destruct (callerOf ctx (db w)) as [user|].
    - intros [= <-]. by exists c.
    - destruct (collection.Visibility c) eqn:Hv; try done.
      intros [= <-]. by exists c. }
  split_and!.
  - intros requestId message. apply Hshow.
  - intros requestName message. apply Hshow.
  - intros requestId. cbv zeta. unfold DeleteCollection.
    destruct (collection.GetCollection st _) as [found|]; [|by right].
    destruct (callerOf ctx (db w)) as [user|]; [|by right].
    destruct (notCreatorNorAdmin found user) eqn:Hgate; [by right|].
    left. exists user, found. apply notCreatorNorAdmin_false in Hgate.
    split_and!; try done.
    by destruct (collection.DeleteCollection st _) as [[[]|e] st'].
  - intros requestCollection requestUpdateMask. cbv zeta. unfold UpdateCollection.
    destruct requestUpdateMask as [[|path paths]|]; try by right.
    destruct requestCollection as [c|]; [|by right].
    destruct (collection.GetCollection st _) as [found|] eqn:Hfound; [|by right].
    destruct (callerOf ctx (db w)) as [user|]; [|by right].
    destruct (notCreatorNorAdmin found user) eqn:Hgate; [by right|].
    left. exists user, c, found, (path :: paths).
    apply notCreatorNorAdmin_false in Hgate. split_and!; try done.
    by destruct (collection.UpdateCollection st _) as [[updated|e] st'].
  - intros requestCollection. cbv zeta. unfold CreateCollection.
    destruct requestCollection as [c|]; [|by right].
    destruct (String.eqb_spec (collection.mName c) EmptyString) as [|Hname];
      [by right|].
    destruct (String.eqb_spec (collection.mTitle c) EmptyString) as [|Htitle];
      [by right|]. simpl.
    destruct (IsFeatureEnabled s FeatureTypeUnlimitedCollections) eqn:Hunlimited;
      simpl.
    + destruct (callerOf ctx (db w)) as [user|]; [|by right].
      left. exists user, c. split_and!; try done; [by left|].
      by destruct (collection.CreateCollection st _) as [[created|e] st'].
    + destruct (Z.geb_spec (Z.of_nat (length (collection.ListCollections st)))
                  collectionsLimit) as [|Hbelow]; [by right|].
      destruct (callerOf ctx (db w)) as [user|]; [|by right].
      left. exists user, c. split_and!; try done; [by right|].
      by destruct (collection.CreateCollection st _) as [[created|e] st'].
Qed.

End CollectionClaims.

Section CollectionDemo.
Local Existing Instance listStore.

(** Ann's reading list is for the workspace: a request without session is
    turned away, Ann may delete the list, and another user may not. *)
Example reading_list_is_gated :
  GetCollection demo.anonymous 1 twoUsers [readingList] =
    Fail PermissionDenied "Permission denied" ∧
  DeleteCollection asAnn 1 twoUsers [readingList] = (Ok tt, []) ∧
  DeleteCollection {| ctxUserID := Some 3; ctxNow := 1000 |} 1
    (withUsers fourUsers false) [readingList] =
    (Fail PermissionDenied "Permission denied", [readingList]).
Proof. split_and!; vm_compute; reflexivity. Qed.

End CollectionDemo.
